(** * homebridge-atag-one: the poll cycle and its data extraction

    A shallow embedding of [homebridge_atag_plugin.js]: the accessory
    constructor, the poll cycle ([updateATAGData], [executeATAGCommand],
    [parseATAGData], [updateHomeKitCharacteristics]) and the
    set-temperature path ([setTargetTemperature]), together with the parts
    of the JavaScript runtime the code leans on (UTF-16 strings, the
    regular expression of [parseATAGData], [JSON.parse], [parseFloat],
    truthiness, promises settled by the event loop).

    JavaScript numbers are IEEE-754 binary64 values: they are embedded as
    Rocq's primitive [float]. *)

From Stdlib Require Import List NArith ZArith Bool Lia String Ascii.
From Stdlib Require Import Floats.
Import ListNotations.
Local Open Scope list_scope.

#[local] Set Warnings "-register-all".

(** ** JavaScript strings *)

(** A JavaScript string is a sequence of UTF-16 code units. *)
Definition jsstring := list N.

(** The code units of an ASCII literal. *)
Definition lit (s : string) : jsstring :=
  map N_of_ascii (list_ascii_of_string s).

(** The code units of an ASCII literal in which every apostrophe stands for
    a quotation mark, to write JSON text down. *)
Definition quoted (s : string) : jsstring :=
  map (fun c => if N.eqb c 39 then 34%N else c) (lit s).

Definition jsstring_eqb (a b : jsstring) : bool :=
  if list_eq_dec N.eq_dec a b then true else false.

Definition lbrace : N := 123.
Definition rbrace : N := 125.

(** The class \s of a regular expression, which is also the
    StrWhiteSpaceChar that [parseFloat] trims: the WhiteSpace and
    LineTerminator code points. *)
Definition isSpace (c : N) : bool :=
  ((9 <=? c) && (c <=? 13) || (c =? 32) || (c =? 160) || (c =? 5760)
   || (8192 <=? c) && (c <=? 8202) || (c =? 8232) || (c =? 8233)
   || (c =? 8239) || (c =? 8287) || (c =? 12288) || (c =? 65279))%N.

(** The class of the code units other than the two braces. *)
Definition notBrace (c : N) : bool :=
  negb (N.eqb c lbrace) && negb (N.eqb c rbrace).

(** ** The regular expression of [parseATAGData]

    The pattern, its tokens set apart by blanks that are not part of it:

      ( \{ [^{}]* (?: \{ [^{}]* \} [^{}]* ) * \} ) \s* $

    with the flag s, which only affects the dot.  The module defines
    regular expressions over code units and their language. *)
Module Regex.

Inductive t :=
| Chr (c : N)                 (* a literal code unit *)
| Class (p : N -> bool)       (* a character class *)
| Seq (r1 r2 : t)
| Star (r : t).

Inductive matches : t -> jsstring -> Prop :=
| MChr c : matches (Chr c) [c]
| MClass (p : N -> bool) c : p c = true -> matches (Class p) [c]
| MSeq r1 r2 s1 s2 :
    matches r1 s1 -> matches r2 s2 -> matches (Seq r1 r2) (s1 ++ s2)
| MStar0 r : matches (Star r) []
| MStarS r s1 s2 :
    matches r s1 -> matches (Star r) s2 -> matches (Star r) (s1 ++ s2).

(** The body of the non-capturing group: \{ [^{}]* \} [^{}]* *)
Definition inner : t :=
  Seq (Chr lbrace)
      (Seq (Star (Class notBrace))
           (Seq (Chr rbrace) (Star (Class notBrace)))).

(** Capture group 1: \{ [^{}]* (?: inner ) * \} *)
Definition group1 : t :=
  Seq (Chr lbrace)
      (Seq (Star (Class notBrace))
           (Seq (Star inner) (Chr rbrace))).

(** Blanks up to the end of the input (the dollar, without the m flag). *)
Definition trailer : t := Star (Class isSpace).

(** The pattern matches at the start of [s], capturing [m]. *)
Definition matchesAt (s m : jsstring) : Prop :=
  exists w, s = m ++ w /\ matches group1 m /\ matches trailer w.

(** What [String.prototype.match] returns for the pattern: the capture of
    the match at the leftmost offset that has one. *)
Definition firstMatch (s m : jsstring) : Prop :=
  exists pre rest,
    s = pre ++ rest /\ matchesAt rest m /\
    forall pre1 rest1 m1,
      s = pre1 ++ rest1 -> matchesAt rest1 m1 ->
      (List.length pre <= List.length pre1)%nat.

End Regex.

(** The scanner the pattern amounts to.  After the opening brace,
    [scanBody false] reads the rest of capture group 1; [inner] tells
    that an inner brace group is open.  It returns the code units read and
    the rest of the input.  No choice is ever open to the backtracking
    matcher: a run of non-brace code units can only stop at a brace, an
    opening brace can only start an inner group and a closing one can only
    end the group that is open ([matchAt_spec]). *)
Fixpoint scanBody (inner : bool) (s : jsstring) : option (jsstring * jsstring) :=
  match s with
  | [] => None
  | c :: s' =>
      if N.eqb c lbrace then
        if inner then None
        else match scanBody true s' with
             | Some (m, r) => Some (c :: m, r)
             | None => None
             end
      else if N.eqb c rbrace then
        if inner then
          match scanBody false s' with
          | Some (m, r) => Some (c :: m, r)
          | None => None
          end
        else Some ([c], s')
      else
        match scanBody inner s' with
        | Some (m, r) => Some (c :: m, r)
        | None => None
        end
  end.

(** The pattern tried at the start of [s]: capture group 1 when it matches. *)
Definition matchAt (s : jsstring) : option jsstring :=
  match s with
  | c :: s' =>
      if N.eqb c lbrace then
        match scanBody false s' with
        | Some (m, r) => if forallb isSpace r then Some (c :: m) else None
        | None => None
        end
      else None
  | [] => None
  end.

(** [output.match(re)] for a pattern without the [g] flag: the match at the
    leftmost offset where the pattern matches; the result is [jsonMatch[1]],
    [None] standing for [null]. *)
Fixpoint jsonMatch (output : jsstring) : option jsstring :=
  match matchAt output with
  | Some m => Some m
  | None =>
      match output with
      | [] => None
      | _ :: rest => jsonMatch rest
      end
  end.

(** ** Numbers from decimal text

    The number value of [m * 10^e] with sign [neg]: the binary64 value
    nearest to it, ties to even, as [JSON.parse] and [parseFloat] compute
    it.  An integer is rounded by [binary_round]; a negative power of ten
    goes through the correctly rounded division [SFdiv]. *)
Definition decToFloat (neg : bool) (m e : Z) : float :=
  SF2Prim
    match m with
    | Zpos p =>
        if (0 <=? e)%Z
        then binary_round prec emax neg (Z.to_pos (Zpos p * 10 ^ e)) 0
        else SFdiv prec emax (S754_finite neg p 0)
                   (S754_finite false (Z.to_pos (10 ^ (- e))) 0)
    | _ => S754_zero neg
    end.

Definition digitVal (c : N) : option Z :=
  if ((48 <=? c) && (c <=? 57))%N then Some (Z.of_N (c - 48)) else None.

(** Reads a run of decimal digits: the number read after [acc], how many
    digits were read after [n], and the rest. *)
Fixpoint readDigits (s : jsstring) (acc n : Z) : Z * Z * jsstring :=
  match s with
  | c :: r =>
      match digitVal c with
      | Some d => readDigits r (10 * acc + d)%Z (n + 1)%Z
      | None => (acc, n, s)
      end
  | [] => (acc, n, [])
  end.

Fixpoint stripPrefix (p s : jsstring) : option jsstring :=
  match p, s with
  | [], _ => Some s
  | a :: p', b :: s' => if N.eqb a b then stripPrefix p' s' else None
  | _ :: _, [] => None
  end.

(** An optional sign: [both] tells whether a plus sign is read too. *)
Definition readSign (both : bool) (s : jsstring) : bool * jsstring :=
  match s with
  | c :: r =>
      if N.eqb c 45 then (true, r)
      else if both && N.eqb c 43 then (false, r)
      else (false, s)
  | [] => (false, s)
  end.

(** ** JSON values and [JSON.parse] *)

Inductive value :=
| VNull
| VBool (b : bool)
| VNum (x : float)
| VStr (s : jsstring)
| VArr (elems : list value)
| VObj (props : list (jsstring * value)).

(** The own properties of an object, in creation order. *)
Definition object := list (jsstring * value).

(** [O[k]] for an own property. *)
Fixpoint getProp (k : jsstring) (o : object) : option value :=
  match o with
  | [] => None
  | (k', v) :: rest => if jsstring_eqb k k' then Some v else getProp k rest
  end.

(** CreateDataProperty: a duplicate name overwrites the earlier member. *)
Fixpoint setProp (k : jsstring) (v : value) (o : object) : object :=
  match o with
  | [] => [(k, v)]
  | (k', v') :: rest =>
      if jsstring_eqb k k' then (k, v) :: rest else (k', v') :: setProp k v rest
  end.

Definition isJsonWs (c : N) : bool :=
  ((c =? 9) || (c =? 10) || (c =? 13) || (c =? 32))%N.

Fixpoint skipWs (s : jsstring) : jsstring :=
  match s with
  | c :: r => if isJsonWs c then skipWs r else s
  | [] => []
  end.

Definition hexVal (c : N) : option N :=
  if ((48 <=? c) && (c <=? 57))%N then Some (c - 48)%N
  else if ((97 <=? c) && (c <=? 102))%N then Some (c - 87)%N
  else if ((65 <=? c) && (c <=? 70))%N then Some (c - 55)%N
  else None.

(** The code unit of a single-character escape. *)
Definition escapeChar (c : N) : option N :=
  if N.eqb c 34 then Some 34%N            (* quote *)
  else if N.eqb c 92 then Some 92%N       (* backslash *)
  else if N.eqb c 47 then Some 47%N       (* slash *)
  else if N.eqb c 98 then Some 8%N        (* b *)
  else if N.eqb c 102 then Some 12%N      (* f *)
  else if N.eqb c 110 then Some 10%N      (* n *)
  else if N.eqb c 114 then Some 13%N      (* r *)
  else if N.eqb c 116 then Some 9%N       (* t *)
  else None.

(** A JSON string after its opening quote: the code units it denotes and
    the rest after the closing quote. *)
Fixpoint parseString (s : jsstring) : option (jsstring * jsstring) :=
  match s with
  | [] => None
  | c :: r =>
      if N.eqb c 34 then Some ([], r)
      else if N.eqb c 92 then
        match r with
        | e :: r1 =>
            match escapeChar e with
            | Some x =>
                match parseString r1 with
                | Some (str, rest) => Some (x :: str, rest)
                | None => None
                end
            | None =>
                if N.eqb e 117 then
                  match r1 with
                  | h1 :: h2 :: h3 :: h4 :: r2 =>
                      match hexVal h1, hexVal h2, hexVal h3, hexVal h4 with
                      | Some a, Some b, Some c', Some d =>
                          match parseString r2 with
                          | Some (str, rest) =>
                              Some ((((a * 16 + b) * 16 + c') * 16 + d)%N :: str, rest)
                          | None => None
                          end
                      | _, _, _, _ => None
                      end
                  | _ => None
                  end
                else None
            end
        | [] => None
        end
      else if (c <? 32)%N then None
      else
        match parseString r with
        | Some (str, rest) => Some (c :: str, rest)
        | None => None
        end
  end.

(** A JSON number: an optional minus, an integer part without a leading
    zero, an optional fraction and an optional exponent. *)
Definition parseNumber (s : jsstring) : option (float * jsstring) :=
  let (neg, s1) := readSign false s in
  match s1 with
  | c :: r =>
      match digitVal c with
      | None => None
      | Some _ =>
          let '(ip, _, s2) := if N.eqb c 48 then (0%Z, 1%Z, r) else readDigits s1 0 0 in
          let frac :=
            match s2 with
            | c2 :: r2 =>
                if N.eqb c2 46 then
                  let '(m, nf, s3) := readDigits r2 ip 0 in
                  if (nf =? 0)%Z then None else Some (m, nf, s3)
                else Some (ip, 0%Z, s2)
            | [] => Some (ip, 0%Z, s2)
            end in
          match frac with
          | None => None
          | Some (m, nf, s3) =>
              match s3 with
              | c3 :: r3 =>
                  if N.eqb c3 101 || N.eqb c3 69 then
                    let (eneg, r4) := readSign true r3 in
                    let '(ev, ne, s4) := readDigits r4 0 0 in
                    if (ne =? 0)%Z then None
                    else Some (decToFloat neg m ((if eneg then - ev else ev) - nf), s4)
                  else Some (decToFloat neg m (- nf), s3)
              | [] => Some (decToFloat neg m (- nf), s3)
              end
          end
      end
  | [] => None
  end.

Inductive pres :=
| POk (v : value) (rest : jsstring)
| PSyntaxError
| PFuel.

(** The recursive-descent parser of JSON text.  [fuel] bounds the number of
    nested calls; [parseValue_fuel] shows that [2 * length s + 1] is enough,
    so that [PFuel] never comes out of [JSON_parse]. *)
Fixpoint parseValue (fuel : nat) (s : jsstring) {struct fuel} : pres :=
  match fuel with
  | O => PFuel
  | S f =>
      match skipWs s with
      | [] => PSyntaxError
      | c :: r =>
          if N.eqb c lbrace then
            match skipWs r with
            | c1 :: r1 =>
                if N.eqb c1 rbrace then POk (VObj []) r1 else parseMembers f r []
            | [] => PSyntaxError
            end
          else if N.eqb c 91 then
            match skipWs r with
            | c1 :: r1 =>
                if N.eqb c1 93 then POk (VArr []) r1 else parseElements f r []
            | [] => PSyntaxError
            end
          else if N.eqb c 34 then
            match parseString r with
            | Some (str, r1) => POk (VStr str) r1
            | None => PSyntaxError
            end
          else
            match stripPrefix (lit "true") (c :: r),
                  stripPrefix (lit "false") (c :: r),
                  stripPrefix (lit "null") (c :: r) with
            | Some r1, _, _ => POk (VBool true) r1
            | _, Some r1, _ => POk (VBool false) r1
            | _, _, Some r1 => POk VNull r1
            | None, None, None =>
                match parseNumber (c :: r) with
                | Some (x, r1) => POk (VNum x) r1
                | None => PSyntaxError
                end
            end
      end
  end

with parseElements (fuel : nat) (s : jsstring) (acc : list value) {struct fuel} : pres :=
  match fuel with
  | O => PFuel
  | S f =>
      match parseValue f s with
      | POk v r =>
          match skipWs r with
          | c :: r1 =>
              if N.eqb c 44 then parseElements f r1 (acc ++ [v])
              else if N.eqb c 93 then POk (VArr (acc ++ [v])) r1
              else PSyntaxError
          | [] => PSyntaxError
          end
      | e => e
      end
  end

with parseMembers (fuel : nat) (s : jsstring) (acc : object) {struct fuel} : pres :=
  match fuel with
  | O => PFuel
  | S f =>
      match skipWs s with
      | c :: r =>
          if N.eqb c 34 then
            match parseString r with
            | Some (k, r1) =>
                match skipWs r1 with
                | c1 :: r2 =>
                    if N.eqb c1 58 then
                      match parseValue f r2 with
                      | POk v r3 =>
                          match skipWs r3 with
                          | c3 :: r4 =>
                              if N.eqb c3 44 then parseMembers f r4 (setProp k v acc)
                              else if N.eqb c3 rbrace then POk (VObj (setProp k v acc)) r4
                              else PSyntaxError
                          | [] => PSyntaxError
                          end
                      | e => e
                      end
                    else PSyntaxError
                | [] => PSyntaxError
                end
            | None => PSyntaxError
            end
          else PSyntaxError
      | [] => PSyntaxError
      end
  end.

(** [JSON.parse(text)]: [None] stands for the SyntaxError it throws. *)
Definition JSON_parse (text : jsstring) : option value :=
  match parseValue (2 * List.length text + 1) text with
  | POk v rest => match skipWs rest with [] => Some v | _ :: _ => None end
  | _ => None
  end.

(** ** [parseFloat] and the other conversions *)

Fixpoint trimStart (s : jsstring) : jsstring :=
  match s with
  | c :: r => if isSpace c then trimStart r else s
  | [] => []
  end.

(** [parseFloat] of a string: the longest prefix of the trimmed string that
    is a StrDecimalLiteral, [NaN] when there is none. *)
Definition strToFloat (s : jsstring) : float :=
  let (neg, t1) := readSign true (trimStart s) in
  match stripPrefix (lit "Infinity") t1 with
  | Some _ => if neg then neg_infinity else infinity
  | None =>
      let '(ip, ni, t2) := readDigits t1 0 0 in
      let '(m, nf, t3) :=
        match t2 with
        | c :: r => if N.eqb c 46 then readDigits r ip 0 else (ip, 0%Z, t2)
        | [] => (ip, 0%Z, t2)
        end in
      if ((ni =? 0) && (nf =? 0))%Z then nan
      else
        let e :=
          match t3 with
          | c :: r =>
              if N.eqb c 101 || N.eqb c 69 then
                let (eneg, r1) := readSign true r in
                let '(ev, ne, _) := readDigits r1 0 0 in
                if (ne =? 0)%Z then 0%Z else if eneg then (- ev)%Z else ev
              else 0%Z
          | [] => 0%Z
          end in
        decToFloat neg m (e - nf)
  end.

Definition hasProp (k : jsstring) (o : object) : bool :=
  match getProp k o with Some _ => true | None => false end.

(** Whether ToString(v) returns.  An object that [JSON.parse] built has no
    callable property of its own, so an own member named toString hides
    [Object.prototype.toString]; OrdinaryToPrimitive then falls back on
    valueOf, which is either an own member, not callable, or
    [Object.prototype.valueOf], which returns the object: a TypeError is
    thrown.  [Array.prototype.join] converts every element but null. *)
Fixpoint stringifiable (v : value) : bool :=
  match v with
  | VObj o => negb (hasProp (lit "toString") o)
  | VArr l => forallb stringifiable l
  | _ => true
  end.

(** ToString(-0) is the string of 0, so the sign of a zero is lost. *)
Definition canon (x : float) : float :=
  if PrimFloat.is_zero x then zero else x.

(** [parseFloat(ToString(v))] where ToString(v) returns.  A number reads
    back from its shortest round-tripping decimal; null, booleans and
    objects give text that starts no decimal literal; an array gives its
    elements joined by commas, whose longest literal prefix lies within the
    first element. *)
Fixpoint toFloat (v : value) : float :=
  match v with
  | VNum x => canon x
  | VStr s => strToFloat s
  | VArr (e :: _) => toFloat e
  | _ => nan
  end.

(** ** Exceptions *)

Module hap.
(** The constants of HAP-NodeJS the plugin refers to. *)
Module Characteristic.
Module CurrentHeatingCoolingState.
Definition OFF : Z := 0.
Definition HEAT : Z := 1.
Definition COOL : Z := 2.
End CurrentHeatingCoolingState.
Module TargetHeatingCoolingState.
Definition OFF : Z := 0.
Definition HEAT : Z := 1.
Definition COOL : Z := 2.
Definition AUTO : Z := 3.
End TargetHeatingCoolingState.
Module LeakDetected.
Definition LEAK_NOT_DETECTED : Z := 0.
Definition LEAK_DETECTED : Z := 1.
End LeakDetected.
End Characteristic.
Module HAPStatus.
Definition SERVICE_COMMUNICATION_FAILURE : Z := -70402.
End HAPStatus.
End hap.

Inductive message :=
| Text (s : string)
| CommandFailed (code : option Z) (errorOutput : jsstring)
    (* `Command failed with code ${code}: ${errorOutput}` *)
| FailedToExecute (msg : jsstring).
    (* `Failed to execute command: ${error.message}` *)

Inductive exn :=
| Error (msg : message)          (* new Error(msg) *)
| SyntaxError                    (* thrown by JSON.parse *)
| TypeError                      (* thrown by a conversion *)
| HapStatusError (status : Z).   (* new hap.HapStatusError(status) *)

Inductive result (A : Type) :=
| Ret (a : A)
| Throw (e : exn).
Arguments Ret {A} a.
Arguments Throw {A} e.

(** [parseFloat(v)] *)
Definition parseFloat (v : value) : result float :=
  if stringifiable v then Ret (toFloat v) else Throw TypeError.

(** ToBoolean, [None] standing for undefined. *)
Definition truthy (v : option value) : bool :=
  match v with
  | None | Some VNull => false
  | Some (VBool b) => b
  | Some (VNum x) => negb (PrimFloat.is_zero x || PrimFloat.is_nan x)
  | Some (VStr s) => match s with [] => false | _ :: _ => true end
  | Some (VArr _) | Some (VObj _) => true
  end.

(** [a || d] where [d] is a literal. *)
Definition orElse (a : option value) (d : value) : value :=
  match a with
  | Some v => if truthy a then v else d
  | None => d
  end.

(** [v === s] and [v !== s] for a string literal [s]. *)
Definition isString (s : string) (v : value) : bool :=
  match v with
  | VStr t => jsstring_eqb t (lit s)
  | _ => false
  end.

(** ** The accessory *)

(** What the constructor reads from the configuration and never writes
    again, and which of the optional services it created. *)
Record Settings := {
  name : value;
  mode : value;
  host : option value;
  email : option value;
  password : option value;
  jarPath : value;
  javaPath : value;
  pollInterval : value;
  timeout : value;
  minTemp : value;
  maxTemp : value;
  outsideTemperatureService : bool;
  waterPressureService : bool;
  dhwTemperatureService : bool
}.

(** The fields of [this] that are written after construction. *)
Record Accessory := {
  settings : Settings;
  temperatureDisplayUnits : value;
  currentTemperature : float;
  targetTemperature : float;
  currentHeatingCoolingState : Z;
  targetHeatingCoolingState : Z;
  isUpdating : bool;
  outsideTemperature : float;
  dhwTemperature : float;
  waterPressure : float;
  flameActive : bool
}.

Definition set_temperatureDisplayUnits (x : value) (a : Accessory) : Accessory :=
  {| settings := settings a; temperatureDisplayUnits := x;
     currentTemperature := currentTemperature a;
     targetTemperature := targetTemperature a;
     currentHeatingCoolingState := currentHeatingCoolingState a;
     targetHeatingCoolingState := targetHeatingCoolingState a;
     isUpdating := isUpdating a;
     outsideTemperature := outsideTemperature a;
     dhwTemperature := dhwTemperature a;
     waterPressure := waterPressure a;
     flameActive := flameActive a |}.

Definition set_currentTemperature (x : float) (a : Accessory) : Accessory :=
  {| settings := settings a; temperatureDisplayUnits := temperatureDisplayUnits a;
     currentTemperature := x;
     targetTemperature := targetTemperature a;
     currentHeatingCoolingState := currentHeatingCoolingState a;
     targetHeatingCoolingState := targetHeatingCoolingState a;
     isUpdating := isUpdating a;
     outsideTemperature := outsideTemperature a;
     dhwTemperature := dhwTemperature a;
     waterPressure := waterPressure a;
     flameActive := flameActive a |}.

Definition set_targetTemperature (x : float) (a : Accessory) : Accessory :=
  {| settings := settings a; temperatureDisplayUnits := temperatureDisplayUnits a;
     currentTemperature := currentTemperature a;
     targetTemperature := x;
     currentHeatingCoolingState := currentHeatingCoolingState a;
     targetHeatingCoolingState := targetHeatingCoolingState a;
     isUpdating := isUpdating a;
     outsideTemperature := outsideTemperature a;
     dhwTemperature := dhwTemperature a;
     waterPressure := waterPressure a;
     flameActive := flameActive a |}.

Definition set_currentHeatingCoolingState (x : Z) (a : Accessory) : Accessory :=
  {| settings := settings a; temperatureDisplayUnits := temperatureDisplayUnits a;
     currentTemperature := currentTemperature a;
     targetTemperature := targetTemperature a;
     currentHeatingCoolingState := x;
     targetHeatingCoolingState := targetHeatingCoolingState a;
     isUpdating := isUpdating a;
     outsideTemperature := outsideTemperature a;
     dhwTemperature := dhwTemperature a;
     waterPressure := waterPressure a;
     flameActive := flameActive a |}.

Definition set_targetHeatingCoolingState (x : Z) (a : Accessory) : Accessory :=
  {| settings := settings a; temperatureDisplayUnits := temperatureDisplayUnits a;
     currentTemperature := currentTemperature a;
     targetTemperature := targetTemperature a;
     currentHeatingCoolingState := currentHeatingCoolingState a;
     targetHeatingCoolingState := x;
     isUpdating := isUpdating a;
     outsideTemperature := outsideTemperature a;
     dhwTemperature := dhwTemperature a;
     waterPressure := waterPressure a;
     flameActive := flameActive a |}.

Definition set_isUpdating (x : bool) (a : Accessory) : Accessory :=
  {| settings := settings a; temperatureDisplayUnits := temperatureDisplayUnits a;
     currentTemperature := currentTemperature a;
     targetTemperature := targetTemperature a;
     currentHeatingCoolingState := currentHeatingCoolingState a;
     targetHeatingCoolingState := targetHeatingCoolingState a;
     isUpdating := x;
     outsideTemperature := outsideTemperature a;
     dhwTemperature := dhwTemperature a;
     waterPressure := waterPressure a;
     flameActive := flameActive a |}.

Definition set_outsideTemperature (x : float) (a : Accessory) : Accessory :=
  {| settings := settings a; temperatureDisplayUnits := temperatureDisplayUnits a;
     currentTemperature := currentTemperature a;
     targetTemperature := targetTemperature a;
     currentHeatingCoolingState := currentHeatingCoolingState a;
     targetHeatingCoolingState := targetHeatingCoolingState a;
     isUpdating := isUpdating a;
     outsideTemperature := x;
     dhwTemperature := dhwTemperature a;
     waterPressure := waterPressure a;
     flameActive := flameActive a |}.

Definition set_dhwTemperature (x : float) (a : Accessory) : Accessory :=
  {| settings := settings a; temperatureDisplayUnits := temperatureDisplayUnits a;
     currentTemperature := currentTemperature a;
     targetTemperature := targetTemperature a;
     currentHeatingCoolingState := currentHeatingCoolingState a;
     targetHeatingCoolingState := targetHeatingCoolingState a;
     isUpdating := isUpdating a;
     outsideTemperature := outsideTemperature a;
     dhwTemperature := x;
     waterPressure := waterPressure a;
     flameActive := flameActive a |}.

Definition set_waterPressure (x : float) (a : Accessory) : Accessory :=
  {| settings := settings a; temperatureDisplayUnits := temperatureDisplayUnits a;
     currentTemperature := currentTemperature a;
     targetTemperature := targetTemperature a;
     currentHeatingCoolingState := currentHeatingCoolingState a;
     targetHeatingCoolingState := targetHeatingCoolingState a;
     isUpdating := isUpdating a;
     outsideTemperature := outsideTemperature a;
     dhwTemperature := dhwTemperature a;
     waterPressure := x;
     flameActive := flameActive a |}.

Definition set_flameActive (x : bool) (a : Accessory) : Accessory :=
  {| settings := settings a; temperatureDisplayUnits := temperatureDisplayUnits a;
     currentTemperature := currentTemperature a;
     targetTemperature := targetTemperature a;
     currentHeatingCoolingState := currentHeatingCoolingState a;
     targetHeatingCoolingState := targetHeatingCoolingState a;
     isUpdating := isUpdating a;
     outsideTemperature := outsideTemperature a;
     dhwTemperature := dhwTemperature a;
     waterPressure := waterPressure a;
     flameActive := x |}.

(** ** Effects on the host and the operating system *)

Inductive logLevel := Debug | Info | Warn | LError.

(** An argument of the spawned command. *)
Inductive arg :=
| ALit (s : string)
| AVal (v : option value)        (* a field of the configuration *)
| ANumString (x : float).        (* setTemp.toString() *)

(** A value interpolated into a log line or passed after it. *)
Inductive logArg :=
| LNum (x : float)
| LInt (z : Z)
| LBool (b : bool)
| LVal (v : option value)
| LStr (s : jsstring)
| LMessage (e : exn)             (* error.message *)
| LArgs (l : list arg).          (* args.join(' ') *)

Inductive service :=
| AccessoryInformation
| Thermostat
| OutsideTemperatureSensor
| WaterPressureSensor
| DHWTemperatureSensor.

Inductive characteristic :=
| CurrentTemperature
| TargetTemperature
| CurrentHeatingCoolingState
| TargetHeatingCoolingState
| TemperatureDisplayUnits
| LeakDetected.

Inductive cvalue :=
| CNum (x : float)
| CInt (z : Z)
| CVal (v : value).

Inductive effect :=
| Log (level : logLevel) (text : string) (args : list logArg)
| Spawn (pid : nat) (command : value) (args : list arg) (timeoutOpt : value)
| UpdateCharacteristic (s : service) (c : characteristic) (v : cvalue)
| SetTimeout (ms : Z)            (* a one-shot call of updateATAGData *)
| SetInterval (ms : value).      (* the periodic call of updateATAGData *)

(** What a pending promise of [executeATAGCommand] is awaited by. *)
Inductive awaiter :=
| AwaitUpdate                            (* updateATAGData *)
| AwaitSet (temperature : float).        (* setTargetTemperature *)

(** The state of the plugin between two turns of the event loop: the
    accessory, the child processes whose promise is still pending with the
    suspended function each one resumes, and what the plugin has done to
    the outside so far, oldest first. *)
Record World := {
  this : Accessory;
  pending : list (nat * awaiter);
  nextPid : nat;
  trace : list effect
}.

(** ** Synchronous code: state and exceptions *)

Definition M (A : Type) : Type := World -> result A * World.

Definition ret {A} (a : A) : M A := fun w => (Ret a, w).

Definition bind {A B} (m : M A) (k : A -> M B) : M B :=
  fun w =>
    match m w with
    | (Ret a, w1) => k a w1
    | (Throw e, w1) => (Throw e, w1)
    end.

Definition throw {A} (e : exn) : M A := fun w => (Throw e, w).

(** [try { m } catch (error) { h error }] *)
Definition tryCatch {A} (m : M A) (h : exn -> M A) : M A :=
  fun w =>
    match m w with
    | (Ret a, w1) => (Ret a, w1)
    | (Throw e, w1) => h e w1
    end.

(** [try { m } finally { f }], for an [f] that completes normally. *)
Definition finally {A} (m : M A) (f : M unit) : M A :=
  fun w =>
    match m w with
    | (r, w1) =>
        match f w1 with
        | (Ret _, w2) => (r, w2)
        | (Throw e, w2) => (Throw e, w2)
        end
    end.

Definition getThis : M Accessory := fun w => (Ret (this w), w).

Definition setThis (a : Accessory) (w : World) : World :=
  {| this := a; pending := pending w; nextPid := nextPid w; trace := trace w |}.

Definition logged (e : effect) (w : World) : World :=
  {| this := this w; pending := pending w; nextPid := nextPid w;
     trace := trace w ++ [e] |}.

(** An assignment to a field of [this]. *)
Definition modify (f : Accessory -> Accessory) : M unit :=
  fun w => (Ret tt, setThis (f (this w)) w).

(** A call that acts on the outside. *)
Definition emit (e : effect) : M unit :=
  fun w => (Ret tt, logged e w).

Definition liftResult {A} (r : result A) : M A := fun w => (r, w).

Declare Scope js_scope.
Delimit Scope js_scope with js.
Notation "x <- m ;; k" := (bind m (fun x => k))
  (at level 61, m at next level, right associativity) : js_scope.
Notation "m ;; k" := (bind m (fun _ => k))
  (at level 61, right associativity) : js_scope.
Local Open Scope js_scope.

(** ** The plugin *)

Import hap.Characteristic.

(** [spawn(command, args, { timeout })]: the child gets the next process
    identifier. *)
Definition spawn (command : value) (args : list arg) (timeoutOpt : value) : M nat :=
  fun w =>
    (Ret (nextPid w),
     {| this := this w; pending := pending w; nextPid := S (nextPid w);
        trace := trace w ++ [Spawn (nextPid w) command args timeoutOpt] |}).

(** [await p] in an async function: the function is suspended until the
    promise of child [pid] settles. *)
Definition await (pid : nat) (k : awaiter) : M unit :=
  fun w =>
    (Ret tt,
     {| this := this w; pending := pending w ++ [(pid, k)];
        nextPid := nextPid w; trace := trace w |}).

(** ToPrimitive(v), as the interpolation of [v] in a template literal and
    the coercion of [v] to a number run it: a TypeError on a value whose
    conversion throws ([stringifiable]). *)
Definition toPrimitive (v : value) : M unit :=
  if stringifiable v then ret tt else throw TypeError.

(** Whether [args.join(' ')] converts the element: undefined and null give
    the empty string, the other values their ToString. *)
Definition joinable (x : arg) : bool :=
  match x with
  | AVal (Some v) => stringifiable v
  | AVal None | ALit _ | ANumString _ => true
  end.

(** A promise whose executor has thrown: it is rejected from the start, it
    gets the next identifier and no child bears it. *)
Definition rejectedPromise : M nat :=
  fun w =>
    (Ret (nextPid w),
     {| this := this w; pending := pending w; nextPid := S (nextPid w);
        trace := trace w |}).

(** [executeATAGCommand(setTemp = null)] up to the creation of the promise:
    the promise is named by the child it waits for.  The template literal
    of the debug line converts [this.javaPath] and the arguments to
    strings before anything is logged or spawned; when a conversion
    throws, within the executor of the promise, the promise is rejected
    with the TypeError, nothing is logged and no child is spawned. *)
Definition executeATAGCommand (setTemp : option float) : M nat :=
  a <- getThis;;
  let st := settings a in
  let args :=
    [ALit "-jar"; AVal (Some (jarPath st))]
    ++ (if isString "local" (mode st)
        then [ALit "-d"; AVal (host st)]
        else [ALit "-r"; ALit "-e"; AVal (email st); ALit "-p"; AVal (password st)])
    ++ match setTemp with
       | Some t => [ALit "-t"; ANumString t]
       | None => []
       end in
  if stringifiable (javaPath st) && forallb joinable args
  then
    emit (Log Debug "Executing: ${this.javaPath} ${args.join(' ')}"
              [LVal (Some (javaPath st)); LArgs args]);;
    spawn (javaPath st) args (timeout st)
  else rejectedPromise.

(** What settles the promise of [executeATAGCommand]: the close event of
    the child, with the exit code ([None] for null, when a signal ended it)
    and what was collected from its two output streams; its error event,
    when the command cannot be run; or an exception thrown within the
    executor of the promise, which rejects it: the TypeError of the
    template literal ([rejectedPromise]), or what [spawn] throws at once
    on arguments it refuses. *)
Inductive childEvent :=
| Close (code : option Z) (output errorOutput : jsstring)
| ChildError (msg : jsstring)
| SpawnThrows (e : exn).

Inductive settled :=
| Resolved (output : jsstring)
| Rejected (e : exn).

(** The two handlers that settle the promise. *)
Definition settle (ev : childEvent) : settled :=
  match ev with
  | Close code output errorOutput =>
      match code with
      | Some 0%Z => Resolved output
      | _ => Rejected (Error (CommandFailed code errorOutput))
      end
  | ChildError msg => Rejected (Error (FailedToExecute msg))
  | SpawnThrows e => Rejected e
  end.

(** [data.k], where [data] is what [JSON.parse] returned.  The text
    parsed starts with a brace, so [data] is an object
    ([JSON_parse_object]); the other cases are what JavaScript does on the
    other values. *)
Definition fieldsOf (data : value) : result object :=
  match data with
  | VObj o => Ret o
  | VNull => Throw TypeError
  | _ => Ret []
  end.

(** [if (data.k !== undefined) { body(data.k) }] *)
Definition whenDefined (data : object) (k : string) (body : value -> M unit) : M unit :=
  match getProp (lit k) data with
  | Some v => body v
  | None => ret tt
  end.

Definition heatingState (a : Accessory) : Z :=
  if flameActive a then CurrentHeatingCoolingState.HEAT
  else if (currentTemperature a <? targetTemperature a - 0.5)%float
       then CurrentHeatingCoolingState.HEAT
       else CurrentHeatingCoolingState.OFF.

(** The debug line that ends the try block of [parseATAGData]. *)
Definition updatedLog (a : Accessory) : effect :=
  Log Debug
    "Updated data - Current: ${this.currentTemperature}\u00B0C, Target: ${this.targetTemperature}\u00B0C, Heating: ${this.currentHeatingCoolingState}"
    [LNum (currentTemperature a); LNum (targetTemperature a);
     LInt (currentHeatingCoolingState a)].

(** The body of the try block of [parseATAGData], from the decoded object
    on. *)
Definition updateInternalState (data : object) : M unit :=
  whenDefined data "roomTemperature" (fun v =>
    x <- liftResult (parseFloat v);; modify (set_currentTemperature x));;
  whenDefined data "targetTemperature" (fun v =>
    x <- liftResult (parseFloat v);; modify (set_targetTemperature x));;
  whenDefined data "outsideTemperature" (fun v =>
    x <- liftResult (parseFloat v);; modify (set_outsideTemperature x));;
  whenDefined data "dhwWaterTemperature" (fun v =>
    x <- liftResult (parseFloat v);; modify (set_dhwTemperature x));;
  whenDefined data "chWaterPressure" (fun v =>
    x <- liftResult (parseFloat v);; modify (set_waterPressure x));;
  whenDefined data "flameStatus" (fun v =>
    modify (set_flameActive (negb (isString "Off" v)));;
    a <- getThis;;
    modify (set_currentHeatingCoolingState (heatingState a)));;
  a <- getThis;;
  emit (updatedLog a).

(** The first statements of the try block of [parseATAGData]: the match
    and [JSON.parse(jsonMatch[1])]. *)
Definition extractJSON (output : jsstring) : result value :=
  match jsonMatch output with
  | None => Throw (Error (Text "No JSON data found in output"))
  | Some json =>
      match JSON_parse json with
      | None => Throw SyntaxError
      | Some data => Ret data
      end
  end.

(** [parseATAGData(output)] *)
Definition parseATAGData (output : jsstring) : M unit :=
  tryCatch
    (data <- liftResult (extractJSON output);;
     o <- liftResult (fieldsOf data);;
     updateInternalState o)
    (fun error =>
       emit (Log LError "Failed to parse ATAG data:" [LMessage error]);;
       emit (Log Debug "Raw output:" [LStr output]);;
       throw error).

Definition leakValue (pressure : float) : Z :=
  let lowPressure := (pressure <? 1)%float in
  if lowPressure then LeakDetected.LEAK_DETECTED else LeakDetected.LEAK_NOT_DETECTED.

(** [updateHomeKitCharacteristics()] *)
Definition updateHomeKitCharacteristics : M unit :=
  a <- getThis;;
  emit (UpdateCharacteristic Thermostat CurrentTemperature (CNum (currentTemperature a)));;
  emit (UpdateCharacteristic Thermostat TargetTemperature (CNum (targetTemperature a)));;
  emit (UpdateCharacteristic Thermostat CurrentHeatingCoolingState
          (CInt (currentHeatingCoolingState a)));;
  (if outsideTemperatureService (settings a)
   then emit (UpdateCharacteristic OutsideTemperatureSensor CurrentTemperature
                (CNum (outsideTemperature a)))
   else ret tt);;
  (if waterPressureService (settings a)
   then emit (UpdateCharacteristic WaterPressureSensor LeakDetected
                (CInt (leakValue (waterPressure a))))
   else ret tt);;
  (if dhwTemperatureService (settings a)
   then emit (UpdateCharacteristic DHWTemperatureSensor CurrentTemperature
                (CNum (dhwTemperature a)))
   else ret tt).

(** [updateATAGData()] up to its await. *)
Definition updateATAGData : M unit :=
  a <- getThis;;
  if isUpdating a then
    emit (Log Debug "Update already in progress, skipping" [])
  else
    modify (set_isUpdating true);;
    p <- executeATAGCommand None;;
    await p AwaitUpdate.

(** [updateATAGData()] from its await on, once the promise has settled. *)
Definition updateATAGData_resume (r : settled) : M unit :=
  finally
    (tryCatch
       (match r with
        | Resolved data => parseATAGData data;; updateHomeKitCharacteristics
        | Rejected e => throw e
        end)
       (fun error => emit (Log LError "Failed to update ATAG data:" [LMessage error])))
    (modify (set_isUpdating false)).

(** [setTargetTemperature(temperature)] up to its await. *)
Definition setTargetTemperature (temperature : float) : M unit :=
  p <- executeATAGCommand (Some temperature);;
  await p (AwaitSet temperature).

(** [setTargetTemperature(temperature)] from its await on. *)
Definition setTargetTemperature_resume (temperature : float) (r : settled) : M unit :=
  tryCatch
    (match r with
     | Resolved _ =>
         modify (set_targetTemperature temperature);;
         emit (UpdateCharacteristic Thermostat TargetTemperature (CNum temperature));;
         emit (SetTimeout 2000)
     | Rejected e => throw e
     end)
    (fun error =>
       emit (Log LError "Failed to set target temperature:" [LMessage error]);;
       throw (HapStatusError hap.HAPStatus.SERVICE_COMMUNICATION_FAILURE)).

(** [startPolling()].  [setInterval] coerces [this.pollInterval] to a
    number, which throws on a value whose conversion throws. *)
Definition startPolling : M unit :=
  updateATAGData;;
  a <- getThis;;
  toPrimitive (pollInterval (settings a));;
  emit (SetInterval (pollInterval (settings a))).

(** The get handlers of the characteristics. *)
Definition onGet (s : service) (c : characteristic) : option (M cvalue) :=
  match s, c with
  | Thermostat, CurrentTemperature => Some (
      a <- getThis;;
      emit (Log Debug "Getting current temperature: ${this.currentTemperature}\u00B0C"
              [LNum (currentTemperature a)]);;
      ret (CNum (currentTemperature a)))
  | Thermostat, TargetTemperature => Some (
      a <- getThis;;
      emit (Log Debug "Getting target temperature: ${this.targetTemperature}\u00B0C"
              [LNum (targetTemperature a)]);;
      ret (CNum (targetTemperature a)))
  | Thermostat, CurrentHeatingCoolingState => Some (
      a <- getThis;;
      emit (Log Debug "Getting current heating/cooling state: ${this.currentHeatingCoolingState}"
              [LInt (currentHeatingCoolingState a)]);;
      ret (CInt (currentHeatingCoolingState a)))
  | Thermostat, TargetHeatingCoolingState => Some (
      a <- getThis;; ret (CInt (targetHeatingCoolingState a)))
  | Thermostat, TemperatureDisplayUnits => Some (
      a <- getThis;; ret (CVal (temperatureDisplayUnits a)))
  | OutsideTemperatureSensor, CurrentTemperature => Some (
      a <- getThis;;
      emit (Log Debug "Getting outside temperature: ${this.outsideTemperature}\u00B0C"
              [LNum (outsideTemperature a)]);;
      ret (CNum (outsideTemperature a)))
  | WaterPressureSensor, LeakDetected => Some (
      a <- getThis;;
      let lowPressure := (waterPressure a <? 1)%float in
      emit (Log Debug "Water pressure: ${this.waterPressure} bar, low pressure alarm: ${lowPressure}"
              [LNum (waterPressure a); LBool lowPressure]);;
      ret (CInt (if lowPressure then LeakDetected.LEAK_DETECTED
                 else LeakDetected.LEAK_NOT_DETECTED)))
  | DHWTemperatureSensor, CurrentTemperature => Some (
      a <- getThis;;
      emit (Log Debug "Getting DHW temperature: ${this.dhwTemperature}\u00B0C"
              [LNum (dhwTemperature a)]);;
      ret (CNum (dhwTemperature a)))
  | _, _ => None
  end.

(** Whether the constructor created the service. *)
Definition hasService (a : Accessory) (s : service) : bool :=
  match s with
  | AccessoryInformation | Thermostat => true
  | OutsideTemperatureSensor => outsideTemperatureService (settings a)
  | WaterPressureSensor => waterPressureService (settings a)
  | DHWTemperatureSensor => dhwTemperatureService (settings a)
  end.

(** [config.k] *)
Definition configField (config : object) (k : string) : option value :=
  getProp (lit k) config.

(** The configuration part of the constructor. *)
Definition readSettings (config : object) : Settings :=
  {| name := orElse (configField config "name") (VStr (lit "ATAG One"));
     mode := orElse (configField config "mode") (VStr (lit "local"));
     host := configField config "host";
     email := configField config "email";
     password := configField config "password";
     jarPath := orElse (configField config "jarPath")
                  (VStr (lit "/usr/local/lib/node_modules/homebridge-atag-one/atag-one.jar"));
     javaPath := orElse (configField config "javaPath") (VStr (lit "java"));
     pollInterval := orElse (configField config "pollInterval") (VNum 60000);
     timeout := orElse (configField config "timeout") (VNum 30000);
     minTemp := orElse (configField config "minTemp") (VNum 5);
     maxTemp := orElse (configField config "maxTemp") (VNum 30);
     outsideTemperatureService := truthy (configField config "exposeOutsideTemperature");
     waterPressureService := truthy (configField config "exposeWaterPressure");
     dhwTemperatureService := truthy (configField config "exposeDHWTemperature") |}.

(** The validation of the configuration: the error it throws, if any. *)
Definition validate (st : Settings) : option exn :=
  if isString "local" (mode st) && negb (truthy (host st)) then
    Some (Error (Text "Host is required for local mode"))
  else if isString "remote" (mode st)
          && (negb (truthy (email st)) || negb (truthy (password st))) then
    Some (Error (Text "Email and password are required for remote mode"))
  else None.

(** The state the constructor initializes, before anything runs. *)
Definition newWorld (config : object) : World :=
  {| this :=
       {| settings := readSettings config;
          temperatureDisplayUnits :=
            orElse (configField config "temperatureDisplayUnits") (VNum 0);
          currentTemperature := 20;
          targetTemperature := 20;
          currentHeatingCoolingState := CurrentHeatingCoolingState.OFF;
          targetHeatingCoolingState := TargetHeatingCoolingState.AUTO;
          isUpdating := false;
          outsideTemperature := 0;
          dhwTemperature := 0;
          waterPressure := 0;
          flameActive := false |};
     pending := [];
     nextPid := 0;
     trace := [] |}.

(** The creation of the services, lines 60 to 79: calls of the host
    library (the constructors of the services, [setCharacteristic],
    [getCharacteristic], [setProps], [onGet], [onSet]), which is no part of
    the source.  [hapError] is what these calls throw, [None] when they all
    return. *)
Definition createServices (hapError : option exn) : M unit :=
  match hapError with
  | Some e => throw e
  | None => ret tt
  end.

(** What the constructor does once the configuration is accepted.
    [jarFound] is what [fs.existsSync(this.jarPath)] answers, [hapError]
    what the host library throws.  The template literals of the first
    warning and of the last line convert [this.jarPath] and [this.mode] to
    strings, which throws on a value whose conversion throws. *)
Definition startUp (jarFound : bool) (hapError : option exn) : M unit :=
  a <- getThis;;
  (if jarFound then ret tt
   else
     toPrimitive (jarPath (settings a));;
     emit (Log Warn "ATAG One JAR file not found at ${this.jarPath}"
             [LVal (Some (jarPath (settings a)))]);;
     emit (Log Warn
             "Please download it from https://github.com/kozmoz/atag-one-api/releases" []));;
  createServices hapError;;
  startPolling;;
  toPrimitive (mode (settings a));;
  emit (Log Info "ATAG One Thermostat initialized in ${this.mode} mode"
          [LVal (Some (mode (settings a)))]).

(** [new ATAGOneAccessory(log, config, api)]: the constructor throws, or
    it returns and leaves the world in which the first poll is already
    under way. *)
Definition construct (jarFound : bool) (hapError : option exn) (config : object)
  : result World :=
  match validate (readSettings config) with
  | Some e => Throw e
  | None =>
      match startUp jarFound hapError (newWorld config) with
      | (Ret _, w) => Ret w
      | (Throw e, _) => Throw e
      end
  end.

(** ** The event loop *)

(** What the host and the operating system make the plugin run. *)
Inductive event :=
| Timer                                        (* the interval or a timeout fires *)
| SetTargetTemperature (v : float)             (* the set handlers *)
| SetTargetHeatingCoolingState (v : Z)
| SetTemperatureDisplayUnits (v : value)
| Get (s : service) (c : characteristic)       (* a get handler *)
| Child (pid : nat) (ev : childEvent).         (* a child closes or fails *)

Fixpoint findPending (pid : nat) (l : list (nat * awaiter)) : option awaiter :=
  match l with
  | [] => None
  | (p, k) :: rest => if Nat.eqb p pid then Some k else findPending pid rest
  end.

Fixpoint removePending (pid : nat) (l : list (nat * awaiter)) : list (nat * awaiter) :=
  match l with
  | [] => []
  | (p, k) :: rest =>
      if Nat.eqb p pid then removePending pid rest else (p, k) :: removePending pid rest
  end.

Definition settlePromise (pid : nat) : M unit :=
  fun w =>
    (Ret tt,
     {| this := this w; pending := removePending pid (pending w);
        nextPid := nextPid w; trace := trace w |}).

Definition resume (k : awaiter) (r : settled) : M unit :=
  match k with
  | AwaitUpdate => updateATAGData_resume r
  | AwaitSet temperature => setTargetTemperature_resume temperature r
  end.

(** One turn of the event loop: the handler of [e] run to its end or to
    its await.  The result is how the handler completes, which is what the
    host sees of a set handler; [None] when the event cannot happen.  A
    promise may be settled by any event: that a promise rejected by its
    executor is only ever settled by [SpawnThrows], and that timers and
    requests only come once the constructor has set them up, is not
    checked, so that the turns are more than the program takes. *)
Definition step (e : event) (w : World) : option (result unit * World) :=
  match e with
  | Timer => Some (updateATAGData w)
  | SetTargetTemperature v =>
      Some ((emit (Log Info "Setting target temperature to ${value}\u00B0C" [LNum v]);;
             setTargetTemperature v) w)
  | SetTargetHeatingCoolingState v =>
      Some ((emit (Log Info "Setting target heating/cooling state to ${value}" [LInt v]);;
             modify (set_targetHeatingCoolingState v);;
             updateATAGData) w)
  | SetTemperatureDisplayUnits v =>
      Some (modify (set_temperatureDisplayUnits v) w)
  | Get s c =>
      if hasService (this w) s then
        match onGet s c with
        | Some h => Some ((h;; ret tt) w)
        | None => None
        end
      else None
  | Child pid ev =>
      match findPending pid (pending w) with
      | Some k => Some ((settlePromise pid;; resume k (settle ev)) w)
      | None => None
      end
  end.

(** The worlds the plugin can be in, from a configuration that passes the
    validation: the one the constructor leaves, whether it returns or
    throws later on (a poll that it has started goes on all the same),
    whatever the host library answers, and those that the turns of the
    event loop lead to. *)
Inductive reachable (jarFound : bool) (config : object) : World -> Prop :=
| reach_construct hapError r w :
    validate (readSettings config) = None ->
    startUp jarFound hapError (newWorld config) = (r, w) ->
    reachable jarFound config w
| reach_step w e r w' :
    reachable jarFound config w -> step e w = Some (r, w') ->
    reachable jarFound config w'.

(** The commands in flight are the promises of [executeATAGCommand] that
    are still pending, each one with its child unless its executor threw;
    those of a poll are awaited by [updateATAGData]. *)
Definition isUpdateAwaiter (p : nat * awaiter) : bool :=
  match snd p with AwaitUpdate => true | AwaitSet _ => false end.

Definition pollsInFlight (w : World) : nat :=
  List.length (filter isUpdateAwaiter (pending w)).


(** ** Notions the properties are stated with *)

(** A balanced-brace object, by counting braces: [closes limit depth s]
    holds when, [depth] braces being open, [s] closes the last of them with
    its last code unit and never has more than [limit] braces open. *)
Fixpoint closes (limit depth : nat) (s : jsstring) : bool :=
  match s with
  | [] => false
  | c :: r =>
      if N.eqb c lbrace then Nat.ltb depth limit && closes limit (S depth) r
      else if N.eqb c rbrace then
        match depth with
        | O => false
        | S O => match r with [] => true | _ :: _ => false end
        | S d => closes limit d r
        end
      else closes limit depth r
  end.

(** A balanced-brace object of nesting depth at most [limit]. *)
Definition braceObject (limit : nat) (s : jsstring) : bool :=
  match s with
  | c :: r => N.eqb c lbrace && closes limit 1 r
  | [] => false
  end.

(** The five JSON fields that [parseATAGData] converts with [parseFloat]. *)
Definition floatFields : list string :=
  ["roomTemperature"; "targetTemperature"; "outsideTemperature";
   "dhwWaterTemperature"; "chWaterPressure"]%string.

(** No conversion of a present field throws. *)
Definition convertible (o : object) : bool :=
  forallb (fun k => match getProp (lit k) o with
                    | Some v => stringifiable v
                    | None => true
                    end) floatFields.

(** The accessory after the six conditional updates, when no conversion
    throws. *)
Definition applyFields (o : object) (a : Accessory) : Accessory :=
  let upd (k : string) (set : float -> Accessory -> Accessory) (a : Accessory) :=
    match getProp (lit k) o with
    | Some v => set (toFloat v) a
    | None => a
    end in
  let a5 :=
    upd "chWaterPressure"%string set_waterPressure
      (upd "dhwWaterTemperature"%string set_dhwTemperature
         (upd "outsideTemperature"%string set_outsideTemperature
            (upd "targetTemperature"%string set_targetTemperature
               (upd "roomTemperature"%string set_currentTemperature a)))) in
  match getProp (lit "flameStatus") o with
  | Some v =>
      let a6 := set_flameActive (negb (isString "Off" v)) a5 in
      set_currentHeatingCoolingState (heatingState a6) a6
  | None => a5
  end.

(** After the opening brace, the rest of capture group 1. *)
Definition tailShape (m : jsstring) : Prop :=
  exists a ins, m = a ++ ins ++ [rbrace]
                /\ forallb notBrace a = true /\ Regex.matches (Regex.Star Regex.inner) ins.

(** The world a completed [parseATAGData] leaves. *)
Definition parsedWorld (o : object) (w : World) : World :=
  logged (updatedLog (applyFields o (this w))) (setThis (applyFields o (this w)) w).

(** The world a failed extraction leaves: the two lines of the catch
    block. *)
Definition failedWorld (output : jsstring) (e : exn) (w : World) : World :=
  logged (Log Debug "Raw output:" [LStr output])
    (logged (Log LError "Failed to parse ATAG data:" [LMessage e]) w).

(** The device snapshot: the readings and the flame and heating flags. *)
Definition snapshot (a : Accessory) : float * float * float * float * float * bool * Z :=
  (currentTemperature a, targetTemperature a, outsideTemperature a,
   dhwTemperature a, waterPressure a, flameActive a, currentHeatingCoolingState a).

(** The snapshot field goes from [before] to [after] as the JSON field [k]
    says: set to its float value when it is present, unchanged when it is
    absent. *)
Definition copied (o : object) (k : string) (before after : float) : Prop :=
  match getProp (lit k) o with
  | Some v => parseFloat v = Ret after
  | None => after = before
  end.

Definition hasField (o : object) (k : string) : bool := hasProp (lit k) o.

(** All six JSON fields that [parseATAGData] reads are present. *)
Definition allPresent (o : object) : bool :=
  forallb (hasField o) (floatFields ++ ["flameStatus"%string]).

(** A configuration for the local mode with the water-pressure sensor, and
    outputs of the command, to evaluate the plugin on. *)
Definition exampleConfig : object :=
  [(lit "host", VStr (lit "192.168.1.20"));
   (lit "exposeWaterPressure", VBool true)].

Definition exampleWorld : World :=
  snd (startUp true None (newWorld exampleConfig)).

Definition exampleOutput : jsstring :=
  lit "Connecting to {x} "
  ++ quoted "{'roomTemperature': 21.5, 'targetTemperature': '22', 'flameStatus': 'Off', 'chWaterPressure': 0.5, 'details': {'a': 1}}"
  ++ [10%N].

(** An output that reports all six fields. *)
Definition fullOutput : jsstring :=
  quoted "{'roomTemperature': 20.5, 'targetTemperature': 21, 'outsideTemperature': 8.5, 'dhwWaterTemperature': 45, 'chWaterPressure': 1.5, 'flameStatus': 'On'}".

Definition fullObject : object :=
  [(lit "roomTemperature", VNum 20.5);
   (lit "targetTemperature", VNum 21);
   (lit "outsideTemperature", VNum 8.5);
   (lit "dhwWaterTemperature", VNum 45);
   (lit "chWaterPressure", VNum 1.5);
   (lit "flameStatus", VStr (lit "On"))].

(** The object that [exampleOutput] ends in. *)
Definition exampleObject : object :=
  [(lit "roomTemperature", VNum 21.5);
   (lit "targetTemperature", VStr (lit "22"));
   (lit "flameStatus", VStr (lit "Off"));
   (lit "chWaterPressure", VNum 0.5);
   (lit "details", VObj [(lit "a", VNum 1)])].

(** [exampleWorld] after HomeKit has set the target temperature to 21: a
    poll and a set-temperature command are under way. *)
Definition exampleSetWorld : World :=
  snd ((emit (Log Info "Setting target temperature to ${value}\u00B0C" [LNum 21]);;
        setTargetTemperature 21) exampleWorld).

(** What [updateHomeKitCharacteristics] publishes, in order. *)
Definition publishList (a : Accessory) : list effect :=
  [UpdateCharacteristic Thermostat CurrentTemperature (CNum (currentTemperature a));
   UpdateCharacteristic Thermostat TargetTemperature (CNum (targetTemperature a));
   UpdateCharacteristic Thermostat CurrentHeatingCoolingState
     (CInt (currentHeatingCoolingState a))]
  ++ (if outsideTemperatureService (settings a)
      then [UpdateCharacteristic OutsideTemperatureSensor CurrentTemperature
              (CNum (outsideTemperature a))]
      else [])
  ++ (if waterPressureService (settings a)
      then [UpdateCharacteristic WaterPressureSensor LeakDetected
              (CInt (leakValue (waterPressure a)))]
      else [])
  ++ (if dhwTemperatureService (settings a)
      then [UpdateCharacteristic DHWTemperatureSensor CurrentTemperature
              (CNum (dhwTemperature a))]
      else []).

(** The failures of a poll that the specification lists, with the error
    each one raises in [updateATAGData]: the child exits with a code other
    than 0 (or is ended by a signal), the spawn fails (with an error event
    or with an exception), the output has no match of the pattern, the
    match is not JSON. *)
Inductive pollFailure : childEvent -> exn -> Prop :=
| ExitNonZero code output errorOutput :
    code <> Some 0%Z ->
    pollFailure (Close code output errorOutput)
                (Error (CommandFailed code errorOutput))
| SpawnFails msg :
    pollFailure (ChildError msg) (Error (FailedToExecute msg))
| SpawnRefuses e :
    pollFailure (SpawnThrows e) e
| NoJson output errorOutput :
    jsonMatch output = None ->
    pollFailure (Close (Some 0%Z) output errorOutput)
                (Error (Text "No JSON data found in output"))
| BadJson output errorOutput json :
    jsonMatch output = Some json -> JSON_parse json = None ->
    pollFailure (Close (Some 0%Z) output errorOutput) SyntaxError.

(** The command of [executeATAGCommand] succeeded: it exited with code 0. *)
Definition succeeded (ev : childEvent) : bool :=
  match ev with
  | Close (Some 0%Z) _ _ => true
  | _ => false
  end.

(** Process identifiers are fresh, and the flag [isUpdating] tells whether
    the command of a poll is in flight (its promise is pending). *)
Definition invariant (w : World) : Prop :=
  (forall p k, In (p, k) (pending w) -> (p < nextPid w)%nat)
  /\ NoDup (map fst (pending w))
  /\ pollsInFlight w = (if isUpdating (this w) then 1%nat else 0%nat).

(** The mode the constructor settles on: ['local'] when none is given. *)
Definition effectiveMode (config : object) : value :=
  orElse (configField config "mode") (VStr (lit "local")).


(** Nothing throws in the constructor after the validation: the JAR file
    is found or its path converts to a string, the host library creates
    the services, and the interval and the mode convert. *)
Definition completes (jarFound : bool) (hapError : option exn) (st : Settings) : bool :=
  (jarFound || stringifiable (jarPath st))
  && match hapError with None => true | Some _ => false end
  && stringifiable (pollInterval st)
  && stringifiable (mode st).



(** ** The rest of the class, and runs of the event loop *)

(** [this.services], which [getServices()] hands to Homebridge: the two
    services that are always there, then the optional ones in the order
    the constructor pushes them. *)
Definition getServices (a : Accessory) : list service :=
  [AccessoryInformation; Thermostat]
  ++ (if outsideTemperatureService (settings a) then [OutsideTemperatureSensor] else [])
  ++ (if waterPressureService (settings a) then [WaterPressureSensor] else [])
  ++ (if dhwTemperatureService (settings a) then [DHWTemperatureSensor] else []).

(** The serial number that [createInformationService] sets:
    [this.host || 'Remote']. *)
Definition serialNumber (st : Settings) : value :=
  orElse (host st) (VStr (lit "Remote")).

(** The turns of the event loop taken one after the other: [None] when one
    of the events cannot happen. *)
Fixpoint run (es : list event) (w : World) : option World :=
  match es with
  | [] => Some w
  | e :: rest =>
      match step e w with
      | Some (_, w') => run rest w'
      | None => None
      end
  end.

(** The event is the settling of the promise of child [pid]. *)
Definition settles (pid : nat) (e : event) : bool :=
  match e with
  | Child p _ => Nat.eqb p pid
  | _ => false
  end.

(** The arguments of a command as [executeATAGCommand] builds them from
    the settings [st], [tail] holding the set-temperature option. *)
Definition commandArgs (st : Settings) (tail : list arg) : list arg :=
  [ALit "-jar"; AVal (Some (jarPath st))]
  ++ (if isString "local" (mode st)
      then [ALit "-d"; AVal (host st)]
      else [ALit "-r"; ALit "-e"; AVal (email st); ALit "-p"; AVal (password st)])
  ++ tail.

(** An effect is no spawn, or the spawn of the configured command. *)
Definition configuredSpawn (st : Settings) (x : effect) : Prop :=
  match x with
  | Spawn _ command args timeoutOpt =>
      command = javaPath st /\ timeoutOpt = timeout st
      /\ (args = commandArgs st []
          \/ exists t, args = commandArgs st [ALit "-t"; ANumString t])
  | _ => True
  end.

(** The debug line of [executeATAGCommand]. *)
Definition executingLog (st : Settings) (args : list arg) : effect :=
  Log Debug "Executing: ${this.javaPath} ${args.join(' ')}"
    [LVal (Some (javaPath st)); LArgs args].

(** The command line can be written: the conversions to strings in the
    debug line of [executeATAGCommand] return. *)
Definition speakable (st : Settings) : bool :=
  stringifiable (javaPath st) && forallb joinable (commandArgs st []).

(** What [executeATAGCommand] does to the outside with the option [tail]:
    the debug line and the spawn, or nothing when the command line cannot
    be written. *)
Definition commandEffects (st : Settings) (pid : nat) (tail : list arg) : list effect :=
  if speakable st
  then [executingLog st (commandArgs st tail);
        Spawn pid (javaPath st) (commandArgs st tail) (timeout st)]
  else [].

(** The world after [executeATAGCommand] has run with the option [tail]
    and the caller [k] has started to wait for its promise. *)
Definition spawned (k : awaiter) (tail : list arg) (w : World) : World :=
  {| this := this w;
     pending := pending w ++ [(nextPid w, k)];
     nextPid := S (nextPid w);
     trace := trace w ++ commandEffects (settings (this w)) (nextPid w) tail |}.

(** The world after a call of [updateATAGData], up to its await. *)
Definition polled (w : World) : World :=
  if isUpdating (this w)
  then logged (Log Debug "Update already in progress, skipping" []) w
  else spawned AwaitUpdate [] (setThis (set_isUpdating true (this w)) w).

(** The effect is a line of the log. *)
Definition isLog (x : effect) : bool :=
  match x with Log _ _ _ => true | _ => false end.

(** The effect is a line of the log or the update of a characteristic. *)
Definition isLogOrUpdate (x : effect) : bool :=
  match x with
  | Log _ _ _ | UpdateCharacteristic _ _ _ => true
  | _ => false
  end.

(** The two warnings of the constructor when [fs.existsSync(this.jarPath)]
    answers false. *)
Definition jarWarnings (jarFound : bool) (st : Settings) : list effect :=
  if jarFound then []
  else [Log Warn "ATAG One JAR file not found at ${this.jarPath}"
          [LVal (Some (jarPath st))];
        Log Warn "Please download it from https://github.com/kozmoz/atag-one-api/releases"
          []].

(** The settings that the constructor reads with [config.k || d]: the
    name of the field of the configuration, the setting and the default
    [d]. *)
Definition defaults : list (string * (Settings -> value) * value) :=
  [("name"%string, name, VStr (lit "ATAG One"));
   ("mode"%string, mode, VStr (lit "local"));
   ("jarPath"%string, jarPath,
    VStr (lit "/usr/local/lib/node_modules/homebridge-atag-one/atag-one.jar"));
   ("javaPath"%string, javaPath, VStr (lit "java"));
   ("pollInterval"%string, pollInterval, VNum 60000);
   ("timeout"%string, timeout, VNum 30000);
   ("minTemp"%string, minTemp, VNum 5);
   ("maxTemp"%string, maxTemp, VNum 30)].

(** The readings that only a poll writes: the snapshot without the target
    temperature, which the set handler writes too. *)
Definition readings (a : Accessory) : float * float * float * float * bool * Z :=
  (currentTemperature a, outsideTemperature a, dhwTemperature a,
   waterPressure a, flameActive a, currentHeatingCoolingState a).

(** An effect that is none of a poll: no spawn but that of a
    set-temperature command, no update of a characteristic but that of the
    target temperature, no interval. *)
Definition noPollEffect (st : Settings) (x : effect) : Prop :=
  match x with
  | Spawn _ _ args _ => exists t, args = commandArgs st [ALit "-t"; ANumString t]
  | UpdateCharacteristic s c _ => s = Thermostat /\ c = TargetTemperature
  | SetInterval _ => False
  | Log _ _ _ | SetTimeout _ => True
  end.

(** The events by their kind. *)
Definition isChild (e : event) : bool :=
  match e with Child _ _ => true | _ => false end.

Definition isSetState (e : event) : bool :=
  match e with SetTargetHeatingCoolingState _ => true | _ => false end.

Definition isSetUnits (e : event) : bool :=
  match e with SetTemperatureDisplayUnits _ => true | _ => false end.

(** The update of a characteristic of a service that [getServices] hands
    out, with the value that the get handler of the characteristic returns
    in [w]. *)
Definition readsBack (w : World) (x : effect) : Prop :=
  match x with
  | UpdateCharacteristic s c v =>
      In s (getServices (this w))
      /\ exists h w', onGet s c = Some h /\ h w = (Ret v, w') /\ this w' = this w
  | _ => False
  end.

(** A JSON value that is no number and no text: [parseFloat] turns its
    string (null, true, false, [object Object]) into NaN. *)
Definition notNumeric (v : value) : bool :=
  match v with
  | VNull | VBool _ | VObj _ => true
  | VNum _ | VStr _ | VArr _ => false
  end.

(** A configuration for the remote mode. *)
Definition remoteConfig : object :=
  [(lit "mode", VStr (lit "remote"));
   (lit "email", VStr (lit "user@example.org"));
   (lit "password", VStr (lit "secret"))].

(** * Properties *)

(** ** Strings *)


(** ** The runtime model on concrete inputs *)

Example jsonMatch_exampleOutput :
  jsonMatch exampleOutput
  = Some (quoted "{'roomTemperature': 21.5, 'targetTemperature': '22', 'flameStatus': 'Off', 'chWaterPressure': 0.5, 'details': {'a': 1}}").
Proof. vm_compute. reflexivity. Qed.

Example exampleObject_extracted :
  extractJSON exampleOutput = Ret (VObj exampleObject).
Proof. vm_compute. reflexivity. Qed.

Example fullObject_extracted :
  extractJSON fullOutput = Ret (VObj fullObject).
Proof. vm_compute. reflexivity. Qed.

Example exampleWorld_constructed :
  construct true None exampleConfig = Ret exampleWorld
  /\ pending exampleWorld = [(0%nat, AwaitUpdate)]
  /\ isUpdating (this exampleWorld) = true.
Proof. repeat split; vm_compute; reflexivity. Qed.

Example jsonMatch_not_trailing :
  jsonMatch (quoted "{'a':1} done") = None.
Proof. vm_compute. reflexivity. Qed.

Example jsonMatch_brace_in_string :
  jsonMatch (quoted "{'a':'}'}") = None
  /\ JSON_parse (quoted "{'a':'}'}") = Some (VObj [(lit "a", VStr (lit "}"))]).
Proof. split; vm_compute; reflexivity. Qed.

Example JSON_parse_numbers :
  JSON_parse (lit "[0, -0.5, 215e-1, 1E2, 1e400]")
  = Some (VArr [VNum 0; VNum (-0.5); VNum 21.5; VNum 100; VNum infinity]).
Proof. vm_compute. reflexivity. Qed.

Example JSON_parse_strings :
  JSON_parse (quoted "'a\u0041\n\/'") = Some (VStr [97; 65; 10; 47]%N).
Proof. vm_compute. reflexivity. Qed.

Example JSON_parse_duplicate_member :
  JSON_parse (quoted "{'a': 1, 'b': null, 'a': true}")
  = Some (VObj [(lit "a", VBool true); (lit "b", VNull)]).
Proof. vm_compute. reflexivity. Qed.

Example JSON_parse_rejects :
  JSON_parse (lit "[01]") = None
  /\ JSON_parse (lit "[1,]") = None
  /\ JSON_parse (lit "1.") = None
  /\ JSON_parse (quoted "{'a' 1}") = None
  /\ JSON_parse (quoted "{a: 1}") = None
  /\ JSON_parse (lit "{} x") = None
  /\ JSON_parse (lit "") = None.
Proof. repeat split; vm_compute; reflexivity. Qed.

Example strToFloat_prefixes :
  strToFloat (lit "  -12.5e1xyz") = (-125)%float
  /\ strToFloat (lit ".5") = 0.5%float
  /\ strToFloat (lit "5.") = 5%float
  /\ strToFloat (lit "1e") = 1%float
  /\ strToFloat (lit "0x10") = 0%float
  /\ strToFloat (lit "-Infinityx") = neg_infinity
  /\ PrimFloat.is_nan (strToFloat (lit ".")) = true
  /\ PrimFloat.is_nan (strToFloat (lit "On")) = true.
Proof. repeat split; vm_compute; reflexivity. Qed.

Example parseFloat_values :
  parseFloat (VNum 20.5) = Ret 20.5%float
  /\ parseFloat (VStr (lit "22")) = Ret 22%float
  /\ parseFloat (VArr [VNum 3; VObj []]) = Ret 3%float
  /\ parseFloat (VObj [(lit "toString", VNum 1)]) = Throw TypeError
  /\ parseFloat (VArr [VNum 3; VObj [(lit "toString", VNull)]]) = Throw TypeError.
Proof. repeat split; vm_compute; reflexivity. Qed.

(** ** The scanner and the regular expression *)

Section Scanner.

Lemma star_class_forallb p s :
  Regex.matches (Regex.Star (Regex.Class p)) s <-> forallb p s = true.
Proof.
  split.
  - intros H. remember (Regex.Star (Regex.Class p)) as r eqn:E.
    induction H as [ | | | | r s1 s2 H1 _ H2 IH2]; inversion E; subst; auto.
    inversion H1 as [ | q c Hc | | | ]; subst.
    simpl. rewrite Hc. now apply IH2.
  - induction s as [|c s IH]; simpl; intros H.
    + constructor.
    + apply andb_true_iff in H as [Hc Hs].
      change (c :: s) with ([c] ++ s).
      apply Regex.MStarS; [now constructor | now apply IH].
Qed.

Lemma notBrace_spec c :
  notBrace c = true <-> N.eqb c lbrace = false /\ N.eqb c rbrace = false.
Proof.
  unfold notBrace. rewrite andb_true_iff, !negb_true_iff. tauto.
Qed.

Lemma isSpace_notBrace c : isSpace c = true -> notBrace c = true.
Proof.
  intros H. apply notBrace_spec.
  split; apply N.eqb_neq; intros ->; discriminate H.
Qed.

(** A run of non-brace code units is skipped. *)
Lemma scanBody_skip b a s :
  forallb notBrace a = true ->
  scanBody b (a ++ s) =
  match scanBody b s with
  | Some (m, r) => Some (a ++ m, r)
  | None => None
  end.
Proof.
  induction a as [|c a IH]; simpl; intros H.
  - now destruct (scanBody b s) as [[m r]|].
  - apply andb_true_iff in H as [Hc Ha].
    apply notBrace_spec in Hc as [-> ->].
    rewrite (IH Ha). now destruct (scanBody b s) as [[m r]|].
Qed.

(** At the end of the input the group is still open. *)
Lemma scanBody_blank b ws : forallb notBrace ws = true -> scanBody b ws = None.
Proof.
  intros H. rewrite <- (app_nil_r ws), (scanBody_skip b ws [] H). reflexivity.
Qed.

(** What the scanner read is a prefix of its input. *)
Lemma scanBody_split s : forall b m r,
  scanBody b s = Some (m, r) -> s = m ++ r.
Proof.
  induction s as [|c s IH]; simpl; intros b m r H; [discriminate|].
  destruct (N.eqb c lbrace).
  - destruct b; [discriminate|].
    destruct (scanBody true s) as [[m1 r1]|] eqn:E; inversion H; subst.
    simpl. f_equal. eauto.
  - destruct (N.eqb c rbrace).
    + destruct b.
      * destruct (scanBody false s) as [[m1 r1]|] eqn:E; inversion H; subst.
        simpl. f_equal. eauto.
      * inversion H; subst. reflexivity.
    + destruct (scanBody b s) as [[m1 r1]|] eqn:E; inversion H; subst.
      simpl. f_equal. eauto.
Qed.

(** The scanner does not look beyond the closing brace. *)
Lemma scanBody_app s : forall b m r t,
  scanBody b s = Some (m, r) -> scanBody b (s ++ t) = Some (m, r ++ t).
Proof.
  induction s as [|c s IH]; simpl; intros b m r t H; [discriminate|].
  destruct (N.eqb c lbrace).
  - destruct b; [discriminate|].
    destruct (scanBody true s) as [[m1 r1]|] eqn:E; inversion H; subst.
    now rewrite (IH _ _ _ t E).
  - destruct (N.eqb c rbrace).
    + destruct b.
      * destruct (scanBody false s) as [[m1 r1]|] eqn:E; inversion H; subst.
        now rewrite (IH _ _ _ t E).
      * inversion H; subst. reflexivity.
    + destruct (scanBody b s) as [[m1 r1]|] eqn:E; inversion H; subst.
      now rewrite (IH _ _ _ t E).
Qed.

Lemma scanBody_whole s : forall b m r,
  scanBody b s = Some (m, r) -> scanBody b m = Some (m, []).
Proof.
  induction s as [|c s IH]; simpl; intros b m r H; [discriminate|].
  destruct (N.eqb c lbrace) eqn:El.
  - destruct b; [discriminate|].
    destruct (scanBody true s) as [[m1 r1]|] eqn:E; inversion H; subst.
    simpl. rewrite El. now rewrite (IH _ _ _ E).
  - destruct (N.eqb c rbrace) eqn:Er.
    + destruct b.
      * destruct (scanBody false s) as [[m1 r1]|] eqn:E; inversion H; subst.
        simpl. rewrite El, Er. now rewrite (IH _ _ _ E).
      * inversion H; subst. simpl. now rewrite El, Er.
    + destruct (scanBody b s) as [[m1 r1]|] eqn:E; inversion H; subst.
      simpl. rewrite El, Er. now rewrite (IH _ _ _ E).
Qed.

End Scanner.

Section RegexLanguage.

Import Regex.

Lemma matches_chr c s : matches (Chr c) s -> s = [c].
Proof. intros H. now inversion H. Qed.

Lemma matches_seq r1 r2 s :
  matches (Seq r1 r2) s ->
  exists s1 s2, s = s1 ++ s2 /\ matches r1 s1 /\ matches r2 s2.
Proof. intros H. inversion H; subst. eauto. Qed.

Lemma inner_shape s :
  matches inner s <->
  exists a b, s = lbrace :: a ++ rbrace :: b
              /\ forallb notBrace a = true /\ forallb notBrace b = true.
Proof.
  unfold inner. split.
  - intros H.
    apply matches_seq in H as (s1 & t1 & -> & H1 & H).
    apply matches_seq in H as (a & t2 & -> & Ha & H).
    apply matches_seq in H as (s3 & b & -> & H3 & Hb).
    apply matches_chr in H1 as ->. apply matches_chr in H3 as ->.
    apply star_class_forallb in Ha. apply star_class_forallb in Hb.
    exists a, b. auto.
  - intros (a & b & -> & Ha & Hb).
    apply (MSeq _ _ [lbrace]); [constructor|].
    apply MSeq; [now apply star_class_forallb|].
    apply (MSeq _ _ [rbrace]); [constructor|].
    now apply star_class_forallb.
Qed.

(** The scanner walks over a sequence of inner groups. *)
Lemma scanBody_inners ins :
  matches (Star inner) ins ->
  forall t,
    scanBody false (ins ++ t) =
    match scanBody false t with
    | Some (m, r) => Some (ins ++ m, r)
    | None => None
    end.
Proof.
  intros H. remember (Star inner) as re eqn:E.
  induction H as [ | | | | r s1 s2 H1 _ H2 IH2]; inversion E; subst; intros t.
  - simpl. now destruct (scanBody false t) as [[m r0]|].
  - apply inner_shape in H1 as (a & b & -> & Ha & Hb).
    specialize (IH2 eq_refl t).
    cbn [app scanBody]. rewrite N.eqb_refl.
    rewrite <- !app_assoc. rewrite (scanBody_skip true a _ Ha).
    cbn [app scanBody].
    replace (N.eqb rbrace lbrace) with false by reflexivity.
    rewrite N.eqb_refl.
    rewrite (scanBody_skip false b _ Hb), IH2.
    destruct (scanBody false t) as [[m r0]|]; [|reflexivity].
    now repeat (rewrite <- app_assoc || rewrite <- app_comm_cons).
Qed.

Lemma scanBody_shape s : forall b m r,
  scanBody b s = Some (m, r) ->
  if b then exists a m', m = a ++ rbrace :: m'
                         /\ forallb notBrace a = true /\ tailShape m'
  else tailShape m.
Proof.
  induction s as [|c s IH]; simpl; intros b m r H; [discriminate|].
  destruct (N.eqb c lbrace) eqn:El.
  - destruct b; [discriminate|].
    destruct (scanBody true s) as [[m1 r1]|] eqn:E; inversion H; subst.
    apply N.eqb_eq in El. subst c.
    destruct (IH _ _ _ E) as (a & m' & -> & Ha & (a' & ins & -> & Ha' & Hins)).
    exists [], ((lbrace :: a ++ rbrace :: a') ++ ins). repeat split.
    + simpl. now repeat (rewrite <- app_assoc || rewrite <- app_comm_cons).
    + apply MStarS; [|assumption]. apply inner_shape. eauto.
  - destruct (N.eqb c rbrace) eqn:Er.
    + apply N.eqb_eq in Er. subst c. destruct b.
      * destruct (scanBody false s) as [[m1 r1]|] eqn:E; inversion H; subst.
        exists [], m1. repeat split. exact (IH _ _ _ E).
      * inversion H; subst. exists [], []. repeat split. constructor.
    + assert (Hc : notBrace c = true) by now apply notBrace_spec.
      destruct (scanBody b s) as [[m1 r1]|] eqn:E; inversion H; subst.
      specialize (IH _ _ _ E). destruct b.
      * destruct IH as (a & m' & -> & Ha & Hm').
        exists (c :: a), m'. repeat split; [|assumption].
        simpl. now rewrite Hc.
      * destruct IH as (a & ins & -> & Ha & Hins).
        exists (c :: a), ins. repeat split; [|assumption].
        simpl. now rewrite Hc.
Qed.

(** Capture group 1 is what the scanner reads to its end. *)
Lemma group1_scanBody m :
  matches group1 m <->
  exists x, m = lbrace :: x /\ scanBody false x = Some (x, []).
Proof.
  unfold group1. split.
  - intros H.
    apply matches_seq in H as (s1 & t1 & -> & H1 & H).
    apply matches_seq in H as (a & t2 & -> & Ha & H).
    apply matches_seq in H as (ins & s3 & -> & Hins & H3).
    apply matches_chr in H1 as ->. apply matches_chr in H3 as ->.
    apply star_class_forallb in Ha.
    exists (a ++ ins ++ [rbrace]). split; [reflexivity|].
    rewrite (scanBody_skip false a _ Ha), (scanBody_inners ins Hins).
    reflexivity.
  - intros (x & -> & H).
    apply scanBody_shape in H as (a & ins & -> & Ha & Hins).
    apply (MSeq _ _ [lbrace]); [constructor|].
    apply MSeq; [now apply star_class_forallb|].
    apply MSeq; [assumption | constructor].
Qed.

(** [matchAt] decides whether the pattern matches at the start of the
    input and computes the capture, which is unique. *)
Lemma matchAt_spec s m : matchAt s = Some m <-> matchesAt s m.
Proof.
  unfold matchesAt, trailer. split.
  - destruct s as [|c s]; simpl; [discriminate|].
    destruct (N.eqb c lbrace) eqn:El; [|discriminate].
    apply N.eqb_eq in El. subst c.
    destruct (scanBody false s) as [[m1 r]|] eqn:E; [|discriminate].
    destruct (forallb isSpace r) eqn:Hr; [|discriminate].
    intros H. inversion H; subst. exists r. repeat split.
    + simpl. f_equal. eapply scanBody_split; eauto.
    + apply group1_scanBody. exists m1. split; [reflexivity|].
      eapply scanBody_whole; eauto.
    + now apply star_class_forallb.
  - intros (w & -> & Hm & Hw).
    apply group1_scanBody in Hm as (x & -> & Hx).
    apply star_class_forallb in Hw.
    simpl. rewrite (scanBody_app x false x [] w Hx). simpl. now rewrite Hw.
Qed.

Lemma jsonMatch_eq s :
  jsonMatch s =
  match matchAt s with
  | Some m => Some m
  | None => match s with [] => None | _ :: rest => jsonMatch rest end
  end.
Proof. destruct s; reflexivity. Qed.

(** [jsonMatch] is [String.prototype.match] for the pattern. *)
Lemma jsonMatch_spec s m : jsonMatch s = Some m <-> firstMatch s m.
Proof.
  unfold firstMatch. split.
  - revert m. induction s as [|c s IH]; intros m; rewrite jsonMatch_eq.
    + destruct (matchAt []) eqn:E; [|discriminate].
      intros H. inversion H; subst. exists [], []. repeat split.
      * now apply matchAt_spec.
      * intros. simpl. lia.
    + destruct (matchAt (c :: s)) as [m0|] eqn:E.
      * intros H. inversion H; subst. exists [], (c :: s). repeat split.
        -- now apply matchAt_spec.
        -- intros. simpl. lia.
      * intros H. destruct (IH _ H) as (pre & rest & -> & Hm & Hleft).
        exists (c :: pre), rest. repeat split; [assumption|].
        intros pre1 rest1 m1 Heq Hm1. destruct pre1 as [|c1 pre1].
        -- simpl in Heq. subst rest1. apply matchAt_spec in Hm1. congruence.
        -- simpl in Heq. inversion Heq; subst. simpl.
           apply le_n_S. eapply Hleft; eauto.
  - intros (pre & rest & -> & Hm & Hleft). revert Hleft.
    induction pre as [|c pre IH]; intros Hleft; rewrite jsonMatch_eq.
    + simpl. apply matchAt_spec in Hm. now rewrite Hm.
    + destruct (matchAt ((c :: pre) ++ rest)) as [m0|] eqn:E.
      * apply matchAt_spec in E.
        specialize (Hleft [] _ m0 eq_refl E). simpl in Hleft. lia.
      * simpl. apply IH. intros pre1 rest1 m1 Heq Hm1.
        specialize (Hleft (c :: pre1) rest1 m1).
        simpl in Hleft. rewrite Heq in Hleft.
        specialize (Hleft eq_refl Hm1). lia.
Qed.

(** It returns null exactly when the pattern matches at no offset. *)
Lemma jsonMatch_none s :
  jsonMatch s = None <->
  forall pre rest m, s = pre ++ rest -> ~ matchesAt rest m.
Proof.
  split.
  - intros Hn pre. revert s Hn.
    induction pre as [|c pre IH]; intros s Hn rest m -> Hm.
    + apply matchAt_spec in Hm. rewrite jsonMatch_eq in Hn. simpl in Hn.
      rewrite Hm in Hn. discriminate Hn.
    + rewrite jsonMatch_eq in Hn.
      destruct (matchAt ((c :: pre) ++ rest)); [discriminate|].
      simpl in Hn. exact (IH _ Hn rest m eq_refl Hm).
  - intros H. destruct (jsonMatch s) as [m|] eqn:E; [|reflexivity].
    apply jsonMatch_spec in E as (pre & rest & Hs & Hm & _).
    exfalso. exact (H pre rest m Hs Hm).
Qed.

End RegexLanguage.

(** ** Balanced-brace objects and the pattern *)

Section BraceObjects.

(** Up to two levels of braces, the scanner reads what closes. *)
Lemma closes_scanBody r : forall b : bool,
  closes 2 (if b then 2 else 1) r = true -> scanBody b r = Some (r, []).
Proof.
  induction r as [|c r IH]; intros b H; [discriminate|].
  cbn [closes scanBody] in *.
  destruct (N.eqb c lbrace).
  - destruct b; [discriminate|].
    now rewrite (IH true H).
  - destruct (N.eqb c rbrace).
    + destruct b.
      * now rewrite (IH false H).
      * destruct r; [reflexivity | discriminate].
    + now rewrite (IH b H).
Qed.

Lemma scanBody_closes r : forall b : bool,
  scanBody b r = Some (r, []) -> closes 2 (if b then 2 else 1) r = true.
Proof.
  induction r as [|c r IH]; intros b H; [discriminate|].
  cbn [closes scanBody] in *.
  destruct (N.eqb c lbrace).
  - destruct b; [discriminate|].
    destruct (scanBody true r) as [[m r1]|] eqn:E; inversion H; subst.
    exact (IH true E).
  - destruct (N.eqb c rbrace).
    + destruct b.
      * destruct (scanBody false r) as [[m r1]|] eqn:E; inversion H; subst.
        exact (IH false E).
      * inversion H; subst. reflexivity.
    + destruct (scanBody b r) as [[m r1]|] eqn:E; inversion H; subst.
      specialize (IH b E). now destruct b.
Qed.

(** The language of capture group 1 is the balanced-brace objects of
    nesting depth at most two. *)
Lemma group1_braceObject m :
  Regex.matches Regex.group1 m <-> braceObject 2 m = true.
Proof.
  rewrite group1_scanBody. unfold braceObject. split.
  - intros (x & -> & H). rewrite N.eqb_refl. exact (scanBody_closes x false H).
  - destruct m as [|c x]; [discriminate|].
    intros H. apply andb_true_iff in H as [Hc Hx].
    apply N.eqb_eq in Hc. subst c.
    exists x. split; [reflexivity|]. exact (closes_scanBody x false Hx).
Qed.

Lemma matchAt_lbrace s m : matchAt s = Some m -> exists x, m = lbrace :: x.
Proof.
  destruct s as [|c s]; simpl; [discriminate|].
  destruct (N.eqb c lbrace) eqn:E; [|discriminate].
  apply N.eqb_eq in E. subst c.
  destruct (scanBody false s) as [[m1 r]|]; [|discriminate].
  destruct (forallb isSpace r); [|discriminate].
  intros H. inversion H. eauto.
Qed.

Lemma jsonMatch_lbrace s m : jsonMatch s = Some m -> exists x, m = lbrace :: x.
Proof.
  induction s as [|c s IH]; rewrite jsonMatch_eq.
  - destruct (matchAt []) eqn:E; [|discriminate].
    intros H. inversion H; subst. eapply matchAt_lbrace; eauto.
  - destruct (matchAt (c :: s)) eqn:E; [|exact IH].
    intros H. inversion H; subst. eapply matchAt_lbrace; eauto.
Qed.

Section TrailingObject.

(** An object [lbrace :: x] that the scanner reads to its end, and the
    blanks [ws] that follow it to the end of the output. *)
Variable x ws : jsstring.
Hypothesis x_scanned : scanBody false x = Some (x, []).
Hypothesis ws_blank : forallb isSpace ws = true.

Lemma ws_notBrace : forallb notBrace ws = true.
Proof.
  pose proof ws_blank as H. rewrite forallb_forall in H |- *.
  intros y Hy. apply isSpace_notBrace. auto.
Qed.

(** An inner group that is open when the object starts is never closed:
    either the object opens a third level, or the input ends first. *)
Lemma scanBody_inner_open : scanBody true (x ++ ws) = None.
Proof.
  pose proof x_scanned as Hx. clear x_scanned. revert Hx.
  induction x as [|c y IH]; intros Hx; [discriminate|].
  cbn [app scanBody] in *.
  destruct (N.eqb c lbrace); [reflexivity|].
  destruct (N.eqb c rbrace).
  - inversion Hx; subst. simpl.
    now rewrite (scanBody_blank false ws ws_notBrace).
  - destruct (scanBody false y) as [[m r]|] eqn:E; inversion Hx; subst.
    now rewrite (IH eq_refl).
Qed.

(** No match starts before the object: what would follow such a match is
    not blank. *)
Lemma scanBody_before_object pre : forall b m r,
  scanBody b (pre ++ lbrace :: x ++ ws) = Some (m, r) ->
  forallb isSpace r = false.
Proof.
  induction pre as [|c pre IH]; intros b m r H.
  - cbn [app scanBody] in H. rewrite N.eqb_refl in H.
    destruct b; [discriminate|].
    now rewrite scanBody_inner_open in H.
  - cbn [app scanBody] in H.
    destruct (N.eqb c lbrace).
    + destruct b; [discriminate|].
      destruct (scanBody true (pre ++ lbrace :: x ++ ws)) as [[m1 r1]|] eqn:E;
        inversion H; subst.
      exact (IH _ _ _ E).
    + destruct (N.eqb c rbrace).
      * destruct b.
        -- destruct (scanBody false (pre ++ lbrace :: x ++ ws)) as [[m1 r1]|] eqn:E;
             inversion H; subst.
           exact (IH _ _ _ E).
        -- inversion H; subst.
           rewrite forallb_app. simpl.
           replace (isSpace lbrace) with false by reflexivity.
           now rewrite andb_false_r.
      * destruct (scanBody b (pre ++ lbrace :: x ++ ws)) as [[m1 r1]|] eqn:E;
          inversion H; subst.
        exact (IH _ _ _ E).
Qed.

(** The leftmost match is the object. *)
Lemma jsonMatch_object pre :
  jsonMatch (pre ++ (lbrace :: x) ++ ws) = Some (lbrace :: x).
Proof.
  induction pre as [|c pre IH]; rewrite jsonMatch_eq.
  - assert (E : matchAt ([] ++ (lbrace :: x) ++ ws) = Some (lbrace :: x)).
    { apply matchAt_spec. exists ws. repeat split.
      - apply group1_scanBody. exists x. split; [reflexivity | exact x_scanned].
      - apply star_class_forallb. exact ws_blank. }
    now rewrite E.
  - assert (E : matchAt ((c :: pre) ++ (lbrace :: x) ++ ws) = None).
    { cbn [app matchAt].
      destruct (N.eqb c lbrace); [|reflexivity].
      destruct (scanBody false (pre ++ lbrace :: x ++ ws)) as [[m r]|] eqn:E;
        [|reflexivity].
      now rewrite (scanBody_before_object pre false m r E). }
    rewrite E. exact IH.
Qed.

End TrailingObject.

(** The match on an output that ends in an object of depth at most two. *)
Lemma jsonMatch_trailing_object pre obj ws :
  braceObject 2 obj = true ->
  forallb isSpace ws = true ->
  jsonMatch (pre ++ obj ++ ws) = Some obj.
Proof.
  intros Hobj Hws.
  apply group1_braceObject, group1_scanBody in Hobj as (x & -> & Hx).
  exact (jsonMatch_object x ws Hx Hws pre).
Qed.

End BraceObjects.

(** ** [JSON.parse] *)

Section JsonParser.

Lemma skipWs_length s : (List.length (skipWs s) <= List.length s)%nat.
Proof.
  induction s as [|c s IH]; simpl; [lia|].
  destruct (isJsonWs c); simpl; lia.
Qed.

Lemma skipWs_cons s c r :
  skipWs s = c :: r -> (List.length r < List.length s)%nat.
Proof.
  intros H. pose proof (skipWs_length s) as L. rewrite H in L. simpl in L. lia.
Qed.

Lemma skipWs_lbrace s : skipWs (lbrace :: s) = lbrace :: s.
Proof. reflexivity. Qed.

Lemma stripPrefix_length p : forall s r,
  stripPrefix p s = Some r -> List.length s = (List.length p + List.length r)%nat.
Proof.
  induction p as [|a p IH]; intros s r H.
  - simpl in H. inversion H. reflexivity.
  - destruct s as [|b s]; simpl in H; [discriminate|].
    destruct (N.eqb a b); [|discriminate].
    simpl. now rewrite (IH _ _ H).
Qed.

Lemma readDigits_length s : forall acc n a n' r,
  readDigits s acc n = (a, n', r) -> (List.length r <= List.length s)%nat.
Proof.
  induction s as [|c s IH]; simpl; intros acc n a n' r H.
  - inversion H. simpl. lia.
  - destruct (digitVal c).
    + apply IH in H. lia.
    + inversion H. simpl. lia.
Qed.

Lemma readSign_length both s neg r :
  readSign both s = (neg, r) -> (List.length r <= List.length s)%nat.
Proof.
  destruct s as [|c s]; simpl.
  - intros H. inversion H. simpl. lia.
  - destruct (N.eqb c 45); [intros H; inversion H; simpl; lia|].
    destruct (both && N.eqb c 43); intros H; inversion H; simpl; lia.
Qed.

Lemma parseString_length n : forall s str r,
  (List.length s <= n)%nat ->
  parseString s = Some (str, r) -> (List.length r < List.length s)%nat.
Proof.
  induction n as [|n IH]; intros s str r Hn H.
  - destruct s; [discriminate | simpl in Hn; lia].
  - destruct s as [|c s]; [discriminate|]. simpl in Hn.
    cbn [parseString] in H.
    destruct (N.eqb c 34); [inversion H; subst; simpl; lia|].
    destruct (N.eqb c 92).
    + destruct s as [|e s]; [discriminate|]. simpl in Hn.
      destruct (escapeChar e).
      * destruct (parseString s) as [[str1 r1]|] eqn:E; inversion H; subst.
        apply IH in E; simpl; lia.
      * destruct (N.eqb e 117); [|discriminate].
        destruct s as [|h1 [|h2 [|h3 [|h4 s]]]]; try discriminate.
        simpl in Hn.
        destruct (hexVal h1), (hexVal h2), (hexVal h3), (hexVal h4);
          try discriminate.
        destruct (parseString s) as [[str1 r1]|] eqn:E; inversion H; subst.
        apply IH in E; simpl; lia.
    + destruct (c <? 32)%N; [discriminate|].
      destruct (parseString s) as [[str1 r1]|] eqn:E; inversion H; subst.
      apply IH in E; simpl; lia.
Qed.

Lemma parseNumber_length s x r :
  parseNumber s = Some (x, r) -> (List.length r < List.length s)%nat.
Proof.
  unfold parseNumber.
  destruct (readSign false s) as [neg s1] eqn:Es.
  apply readSign_length in Es.
  destruct s1 as [|c r1]; [discriminate|].
  destruct (digitVal c) as [d|] eqn:Ed; [|discriminate].
  assert (Hip : forall ip k s2,
             (if N.eqb c 48 then (0%Z, 1%Z, r1) else readDigits (c :: r1) 0 0)
             = (ip, k, s2) -> (List.length s2 <= List.length r1)%nat).
  { intros ip k s2. destruct (N.eqb c 48).
    - intros H. inversion H. lia.
    - cbn [readDigits]. rewrite Ed. apply readDigits_length. }
  destruct (if N.eqb c 48 then (0%Z, 1%Z, r1) else readDigits (c :: r1) 0 0)
    as [[ip k] s2] eqn:E2.
  specialize (Hip _ _ _ eq_refl). simpl in Es.
  assert (Hfrac : forall m nf s3,
             match s2 with
             | c2 :: r2 =>
                 if N.eqb c2 46
                 then let '(m, nf, s3) := readDigits r2 ip 0 in
                      if (nf =? 0)%Z then None else Some (m, nf, s3)
                 else Some (ip, 0%Z, s2)
             | [] => Some (ip, 0%Z, s2)
             end = Some (m, nf, s3) ->
             (List.length s3 <= List.length s2)%nat).
  { intros m nf s3. destruct s2 as [|c2 r2].
    - intros H. inversion H. lia.
    - destruct (N.eqb c2 46).
      + destruct (readDigits r2 ip 0) as [[m1 nf1] s31] eqn:E3.
        apply readDigits_length in E3.
        destruct (nf1 =? 0)%Z; intros H; inversion H; subst. simpl. lia.
      + intros H. inversion H. lia. }
  match goal with
  | |- match ?f with _ => _ end = _ -> _ => destruct f as [[[m nf] s3]|] eqn:E3
  end; [|discriminate].
  specialize (Hfrac _ _ _ eq_refl).
  destruct s3 as [|c3 r3].
  - intros H. inversion H; subst. simpl in *. lia.
  - destruct (N.eqb c3 101 || N.eqb c3 69).
    + destruct (readSign true r3) as [eneg r4] eqn:E4.
      apply readSign_length in E4.
      destruct (readDigits r4 0 0) as [[ev ne] s4] eqn:E5.
      apply readDigits_length in E5.
      destruct (ne =? 0)%Z; intros H; inversion H; subst. simpl in *. lia.
    + intros H. inversion H; subst. simpl in *. lia.
Qed.

Lemma lit_true_length : List.length (lit "true") = 4%nat.
Proof. reflexivity. Qed.
Lemma lit_false_length : List.length (lit "false") = 5%nat.
Proof. reflexivity. Qed.
Lemma lit_null_length : List.length (lit "null") = 4%nat.
Proof. reflexivity. Qed.

(** Every parser consumes input. *)
Lemma parse_length fuel :
  (forall s v r, parseValue fuel s = POk v r ->
                 (List.length r < List.length s)%nat) /\
  (forall s acc v r, parseElements fuel s acc = POk v r ->
                     (List.length r < List.length s)%nat) /\
  (forall s acc v r, parseMembers fuel s acc = POk v r ->
                     (List.length r < List.length s)%nat).
Proof.
  induction fuel as [|f (IHv & IHe & IHm)];
    [repeat split; intros; discriminate|].
  repeat split.
  - intros s v r H. cbn [parseValue] in H.
    destruct (skipWs s) as [|c r0] eqn:Es; [discriminate|].
    apply skipWs_cons in Es.
    destruct (N.eqb c lbrace).
    { destruct (skipWs r0) as [|c1 r1] eqn:E1; [discriminate|].
      apply skipWs_cons in E1.
      destruct (N.eqb c1 rbrace); [inversion H; subst; cbn [List.length] in *; lia|].
      apply IHm in H. (cbn [List.length] in *; lia). }
    destruct (N.eqb c 91).
    { destruct (skipWs r0) as [|c1 r1] eqn:E1; [discriminate|].
      apply skipWs_cons in E1.
      destruct (N.eqb c1 93); [inversion H; subst; cbn [List.length] in *; lia|].
      apply IHe in H. (cbn [List.length] in *; lia). }
    destruct (N.eqb c 34).
    { destruct (parseString r0) as [[str r1]|] eqn:E; inversion H; subst.
      apply (parseString_length (List.length r0)) in E; (cbn [List.length] in *; lia). }
    destruct (stripPrefix (lit "true") (c :: r0)) eqn:E1.
    { inversion H; subst. apply stripPrefix_length in E1.
      rewrite lit_true_length in E1. simpl in E1. (cbn [List.length] in *; lia). }
    destruct (stripPrefix (lit "false") (c :: r0)) eqn:E2.
    { inversion H; subst. apply stripPrefix_length in E2.
      rewrite lit_false_length in E2. simpl in E2. (cbn [List.length] in *; lia). }
    destruct (stripPrefix (lit "null") (c :: r0)) eqn:E3.
    { inversion H; subst. apply stripPrefix_length in E3.
      rewrite lit_null_length in E3. simpl in E3. (cbn [List.length] in *; lia). }
    destruct (parseNumber (c :: r0)) as [[x r1]|] eqn:E; inversion H; subst.
    apply parseNumber_length in E. (cbn [List.length] in *; lia).
  - intros s acc v r H. cbn [parseElements] in H.
    destruct (parseValue f s) as [v1 r1| |] eqn:Ev; try discriminate.
    apply IHv in Ev.
    destruct (skipWs r1) as [|c r2] eqn:E1; [discriminate|].
    apply skipWs_cons in E1.
    destruct (N.eqb c 44); [apply IHe in H; cbn [List.length] in *; lia|].
    destruct (N.eqb c 93); inversion H; subst. (cbn [List.length] in *; lia).
  - intros s acc v r H. cbn [parseMembers] in H.
    destruct (skipWs s) as [|c r0] eqn:Es; [discriminate|].
    apply skipWs_cons in Es.
    destruct (N.eqb c 34); [|discriminate].
    destruct (parseString r0) as [[k r1]|] eqn:Ek; [|discriminate].
    apply (parseString_length (List.length r0)) in Ek; [|cbn [List.length] in *; lia].
    destruct (skipWs r1) as [|c1 r2] eqn:E1; [discriminate|].
    apply skipWs_cons in E1.
    destruct (N.eqb c1 58); [|discriminate].
    destruct (parseValue f r2) as [v1 r3| |] eqn:Ev; try discriminate.
    apply IHv in Ev.
    destruct (skipWs r3) as [|c3 r4] eqn:E3; [discriminate|].
    apply skipWs_cons in E3.
    destruct (N.eqb c3 44); [apply IHm in H; cbn [List.length] in *; lia|].
    destruct (N.eqb c3 rbrace); inversion H; subst. (cbn [List.length] in *; lia).
Qed.

(** With fuel for twice the length of the input, no parser runs out. *)
Lemma parse_fuel fuel :
  (forall s, (2 * List.length s + 1 <= fuel)%nat -> parseValue fuel s <> PFuel) /\
  (forall s acc, (2 * List.length s + 2 <= fuel)%nat ->
                 parseElements fuel s acc <> PFuel) /\
  (forall s acc, (2 * List.length s + 2 <= fuel)%nat ->
                 parseMembers fuel s acc <> PFuel).
Proof.
  induction fuel as [|f (IHv & IHe & IHm)];
    [repeat split; intros; cbn [List.length] in *; lia|].
  destruct (parse_length f) as (Lv & _ & _).
  repeat split.
  - intros s Hf. cbn [parseValue].
    destruct (skipWs s) as [|c r0] eqn:Es; [discriminate|].
    apply skipWs_cons in Es.
    destruct (N.eqb c lbrace).
    { destruct (skipWs r0) as [|c1 r1] eqn:E1; [discriminate|].
      destruct (N.eqb c1 rbrace); [discriminate|].
      apply IHm. (cbn [List.length] in *; lia). }
    destruct (N.eqb c 91).
    { destruct (skipWs r0) as [|c1 r1] eqn:E1; [discriminate|].
      destruct (N.eqb c1 93); [discriminate|].
      apply IHe. (cbn [List.length] in *; lia). }
    destruct (N.eqb c 34).
    { destruct (parseString r0) as [[str r1]|]; discriminate. }
    destruct (stripPrefix (lit "true") (c :: r0)); [discriminate|].
    destruct (stripPrefix (lit "false") (c :: r0)); [discriminate|].
    destruct (stripPrefix (lit "null") (c :: r0)); [discriminate|].
    destruct (parseNumber (c :: r0)) as [[x r1]|]; discriminate.
  - intros s acc Hf. cbn [parseElements].
    destruct (parseValue f s) as [v1 r1| |] eqn:Ev; try discriminate.
    + apply Lv in Ev.
      destruct (skipWs r1) as [|c r2] eqn:E1; [discriminate|].
      apply skipWs_cons in E1.
      destruct (N.eqb c 44); [apply IHe; cbn [List.length] in *; lia|].
      destruct (N.eqb c 93); discriminate.
    + exfalso. revert Ev. apply IHv. (cbn [List.length] in *; lia).
  - intros s acc Hf. cbn [parseMembers].
    destruct (skipWs s) as [|c r0] eqn:Es; [discriminate|].
    apply skipWs_cons in Es.
    destruct (N.eqb c 34); [|discriminate].
    destruct (parseString r0) as [[k r1]|] eqn:Ek; [|discriminate].
    apply (parseString_length (List.length r0)) in Ek; [|cbn [List.length] in *; lia].
    destruct (skipWs r1) as [|c1 r2] eqn:E1; [discriminate|].
    apply skipWs_cons in E1.
    destruct (N.eqb c1 58); [|discriminate].
    destruct (parseValue f r2) as [v1 r3| |] eqn:Ev; try discriminate.
    + apply Lv in Ev.
      destruct (skipWs r3) as [|c3 r4] eqn:E3; [discriminate|].
      apply skipWs_cons in E3.
      destruct (N.eqb c3 44); [apply IHm; cbn [List.length] in *; lia|].
      destruct (N.eqb c3 rbrace); discriminate.
    + exfalso. revert Ev. apply IHv. (cbn [List.length] in *; lia).
Qed.

(** [JSON_parse] never fails for lack of fuel: [None] is a SyntaxError. *)
Lemma parseValue_fuel text :
  parseValue (2 * List.length text + 1) text <> PFuel.
Proof. apply parse_fuel. lia. Qed.

Lemma parseMembers_object fuel : forall s acc v r,
  parseMembers fuel s acc = POk v r -> exists o, v = VObj o.
Proof.
  induction fuel as [|f IH]; intros s acc v r H; [discriminate|].
  cbn [parseMembers] in H.
  destruct (skipWs s) as [|c r0]; [discriminate|].
  destruct (N.eqb c 34); [|discriminate].
  destruct (parseString r0) as [[k r1]|]; [|discriminate].
  destruct (skipWs r1) as [|c1 r2]; [discriminate|].
  destruct (N.eqb c1 58); [|discriminate].
  destruct (parseValue f r2) as [v1 r3| |]; try discriminate.
  destruct (skipWs r3) as [|c3 r4]; [discriminate|].
  destruct (N.eqb c3 44); [eauto|].
  destruct (N.eqb c3 rbrace); inversion H; subst. eauto.
Qed.

(** Text that starts with a brace parses to an object or not at all. *)
Lemma JSON_parse_object x v :
  JSON_parse (lbrace :: x) = Some v -> exists o, v = VObj o.
Proof.
  unfold JSON_parse.
  replace (2 * List.length (lbrace :: x) + 1)%nat
    with (S (2 * List.length (lbrace :: x))) by lia.
  cbn [parseValue]. rewrite skipWs_lbrace, N.eqb_refl.
  destruct (skipWs x) as [|c1 r1]; [discriminate|].
  destruct (N.eqb c1 rbrace).
  - destruct (skipWs r1); [|discriminate]. intros H. inversion H. eauto.
  - destruct (parseMembers _ x []) as [v1 r| |] eqn:E; try discriminate.
    apply parseMembers_object in E as [o ->].
    destruct (skipWs r); [|discriminate]. intros H. inversion H. eauto.
Qed.

Lemma extractJSON_object output data :
  extractJSON output = Ret data -> exists o, data = VObj o.
Proof.
  unfold extractJSON.
  destruct (jsonMatch output) as [json|] eqn:E; [|discriminate].
  apply jsonMatch_lbrace in E as [x ->].
  destruct (JSON_parse (lbrace :: x)) as [v|] eqn:Ev; [|discriminate].
  intros H. inversion H; subst. eapply JSON_parse_object; eauto.
Qed.

End JsonParser.

(** ** [parseATAGData] *)

Section ParseATAGData.

Ltac split_fields o :=
  repeat match goal with
         | |- context [getProp (lit ?k) o] => destruct (getProp (lit k) o)
         end;
  repeat match goal with
         | |- context [stringifiable ?v] => destruct (stringifiable v)
         end.

(** The try block from the decoded object on: it completes exactly when
    no conversion throws, and then it has done the six updates. *)
Lemma updateInternalState_spec o w :
  if convertible o
  then updateInternalState o w =
       (Ret tt, logged (updatedLog (applyFields o (this w)))
                       (setThis (applyFields o (this w)) w))
  else exists w',
      updateInternalState o w = (Throw TypeError, w')
      /\ pending w' = pending w /\ nextPid w' = nextPid w
      /\ trace w' = trace w
      /\ isUpdating (this w') = isUpdating (this w).
Proof.
  cbv beta iota zeta delta
    [convertible floatFields forallb updateInternalState applyFields
     whenDefined parseFloat].
  split_fields o;
    cbv beta iota zeta delta [andb bind liftResult modify emit getThis ret];
    try reflexivity; eexists; repeat split; reflexivity.
Qed.

(** When one of the five conversions throws, the sixth update has not been
    reached: the flame flag and the heating state are as before, and the
    debug line has not been written. *)
Lemma updateInternalState_throws o w e w' :
  updateInternalState o w = (Throw e, w') ->
  e = TypeError
  /\ convertible o = false
  /\ flameActive (this w') = flameActive (this w)
  /\ currentHeatingCoolingState (this w') = currentHeatingCoolingState (this w)
  /\ trace w' = trace w.
Proof.
  cbv beta iota zeta delta
    [convertible floatFields forallb updateInternalState whenDefined parseFloat].
  split_fields o;
    cbv beta iota zeta delta [andb bind liftResult modify emit getThis ret];
    intros H; inversion H; subst; clear H;
    cbn [setThis logged this pending nextPid trace];
    repeat split; reflexivity.
Qed.

Ltac fields o :=
  unfold applyFields; cbv beta zeta;
  repeat match goal with
         | |- context [getProp (lit ?k) o] => destruct (getProp (lit k) o)
         end;
  try reflexivity.

Lemma applyFields_currentTemperature o a :
  currentTemperature (applyFields o a) =
  match getProp (lit "roomTemperature") o with
  | Some v => toFloat v
  | None => currentTemperature a
  end.
Proof. fields o. Qed.

Lemma applyFields_targetTemperature o a :
  targetTemperature (applyFields o a) =
  match getProp (lit "targetTemperature") o with
  | Some v => toFloat v
  | None => targetTemperature a
  end.
Proof. fields o. Qed.

Lemma applyFields_outsideTemperature o a :
  outsideTemperature (applyFields o a) =
  match getProp (lit "outsideTemperature") o with
  | Some v => toFloat v
  | None => outsideTemperature a
  end.
Proof. fields o. Qed.

Lemma applyFields_dhwTemperature o a :
  dhwTemperature (applyFields o a) =
  match getProp (lit "dhwWaterTemperature") o with
  | Some v => toFloat v
  | None => dhwTemperature a
  end.
Proof. fields o. Qed.

Lemma applyFields_waterPressure o a :
  waterPressure (applyFields o a) =
  match getProp (lit "chWaterPressure") o with
  | Some v => toFloat v
  | None => waterPressure a
  end.
Proof. fields o. Qed.

Lemma applyFields_flameActive o a :
  flameActive (applyFields o a) =
  match getProp (lit "flameStatus") o with
  | Some v => negb (isString "Off" v)
  | None => flameActive a
  end.
Proof. fields o. Qed.

Lemma applyFields_heatingState o a :
  currentHeatingCoolingState (applyFields o a) =
  match getProp (lit "flameStatus") o with
  | Some v => heatingState (applyFields o a)
  | None => currentHeatingCoolingState a
  end.
Proof. fields o. Qed.

Lemma applyFields_rest o a :
  settings (applyFields o a) = settings a
  /\ isUpdating (applyFields o a) = isUpdating a
  /\ targetHeatingCoolingState (applyFields o a) = targetHeatingCoolingState a
  /\ temperatureDisplayUnits (applyFields o a) = temperatureDisplayUnits a.
Proof. repeat split; fields o. Qed.

Lemma parseATAGData_ok output o w :
  extractJSON output = Ret (VObj o) ->
  convertible o = true ->
  parseATAGData output w = (Ret tt, parsedWorld o w).
Proof.
  intros He Hc. pose proof (updateInternalState_spec o w) as Hu.
  rewrite Hc in Hu.
  unfold parseATAGData, tryCatch, bind, liftResult. rewrite He. simpl.
  now rewrite Hu.
Qed.

Lemma parseATAGData_extract_fail output e w :
  extractJSON output = Throw e ->
  parseATAGData output w = (Throw e, failedWorld output e w).
Proof.
  intros He. unfold parseATAGData, tryCatch, bind, liftResult.
  rewrite He. reflexivity.
Qed.

(** [parseATAGData] completes only on an object whose fields convert. *)
Lemma parseATAGData_ret output w w' :
  parseATAGData output w = (Ret tt, w') ->
  exists o, extractJSON output = Ret (VObj o)
            /\ convertible o = true /\ w' = parsedWorld o w.
Proof.
  destruct (extractJSON output) as [data|e] eqn:He.
  - destruct (extractJSON_object output data He) as [o ->].
    pose proof (updateInternalState_spec o w) as Hu.
    destruct (convertible o) eqn:Hc.
    + rewrite (parseATAGData_ok output o w He Hc).
      intros H. inversion H. eauto.
    + destruct Hu as (w1 & Hu & _).
      unfold parseATAGData, tryCatch, bind, liftResult. rewrite He. simpl.
      rewrite Hu. discriminate.
  - rewrite (parseATAGData_extract_fail output e w He). discriminate.
Qed.

End ParseATAGData.

(** * The claims of the specification *)

(** ** Extraction (C3, C1, C7, C9) *)

Lemma convertible_field o k v :
  convertible o = true ->
  In k floatFields ->
  getProp (lit k) o = Some v ->
  stringifiable v = true.
Proof.
  unfold convertible. rewrite forallb_forall.
  intros H Hk Hv. specialize (H k Hk). now rewrite Hv in H.
Qed.

Lemma copied_applyFields o k before :
  convertible o = true ->
  In k floatFields ->
  copied o k before
    match getProp (lit k) o with Some v => toFloat v | None => before end.
Proof.
  intros Hc Hk. unfold copied.
  destruct (getProp (lit k) o) as [v|] eqn:E; [|reflexivity].
  unfold parseFloat. now rewrite (convertible_field o k v Hc Hk E).
Qed.

(** C3, as stated, fails: an output that ends in a balanced-brace object
    with three levels of braces has no match at all, so that
    [parseATAGData] finds no JSON in it, although the object is JSON. *)
Lemma C3_counterexample :
  braceObject 3 (quoted "{'a':{'b':{'c':1}}}") = true
  /\ jsonMatch (quoted "{'a':{'b':{'c':1}}}" ++ [10%N]) = None
  /\ extractJSON (quoted "{'a':{'b':{'c':1}}}" ++ [10%N])
     = Throw (Error (Text "No JSON data found in output"))
  /\ JSON_parse (quoted "{'a':{'b':{'c':1}}}")
     = Some (VObj [(lit "a", VObj [(lit "b", VObj [(lit "c", VNum 1)])])]).
Proof. repeat split; vm_compute; reflexivity. Qed.

(** C3, amended: for every output that ends in a balanced-brace object of
    nesting depth at most two (an object whose members hold at most one
    further level of braces), possibly followed by white space, whatever
    comes before it, the matched substring is exactly that object, and it
    is that object which [JSON.parse] decodes. *)
Theorem C3_trailing_object pre obj ws :
  braceObject 2 obj = true ->
  forallb isSpace ws = true ->
  jsonMatch (pre ++ obj ++ ws) = Some obj
  /\ extractJSON (pre ++ obj ++ ws)
     = match JSON_parse obj with
       | Some data => Ret data
       | None => Throw SyntaxError
       end.
Proof.
  intros Hobj Hws.
  pose proof (jsonMatch_trailing_object pre obj ws Hobj Hws) as Hm.
  split; [exact Hm|].
  unfold extractJSON. rewrite Hm. reflexivity.
Qed.

Lemma C3_trailing_object_witness :
  braceObject 2 (quoted "{'roomTemperature': 21.5, 'details': {'a': 1}}") = true
  /\ forallb isSpace [13%N; 10%N] = true
  /\ (jsonMatch (lit "Connecting to {x} "
                 ++ quoted "{'roomTemperature': 21.5, 'details': {'a': 1}}"
                 ++ [13%N; 10%N])
      = Some (quoted "{'roomTemperature': 21.5, 'details': {'a': 1}}")
      /\ extractJSON (lit "Connecting to {x} "
                      ++ quoted "{'roomTemperature': 21.5, 'details': {'a': 1}}"
                      ++ [13%N; 10%N])
         = match JSON_parse (quoted "{'roomTemperature': 21.5, 'details': {'a': 1}}") with
           | Some data => Ret data
           | None => Throw SyntaxError
           end).
Proof.
  split; [reflexivity|]. split; [reflexivity|].
  apply C3_trailing_object; reflexivity.
Defined.

(** C1, as stated, fails: the trailing object parses, the field
    chWaterPressure is present with the float value 2, and yet
    [parseATAGData] leaves [waterPressure] as it was, because the
    conversion of targetTemperature, an object with a member named
    toString, throws a TypeError before chWaterPressure is looked at. *)
Lemma C1_counterexample :
  exists o w',
    extractJSON
      (quoted "{'roomTemperature':1,'targetTemperature':{'toString':1},'chWaterPressure':2}")
    = Ret (VObj o)
    /\ getProp (lit "chWaterPressure") o = Some (VNum 2)
    /\ parseFloat (VNum 2) = Ret 2%float
    /\ parseATAGData
         (quoted "{'roomTemperature':1,'targetTemperature':{'toString':1},'chWaterPressure':2}")
         exampleWorld
       = (Throw TypeError, w')
    /\ waterPressure (this exampleWorld) = 0%float
    /\ waterPressure (this w') = 0%float
    /\ ~ copied o "chWaterPressure"
         (waterPressure (this exampleWorld)) (waterPressure (this w')).
Proof.
  eexists. eexists.
  split; [vm_compute; reflexivity|].
  split; [vm_compute; reflexivity|].
  split; [vm_compute; reflexivity|].
  split; [vm_compute; reflexivity|].
  split; [vm_compute; reflexivity|].
  split; [vm_compute; reflexivity|].
  intros H. vm_compute in H.
  apply (f_equal (fun r => match r with
                           | Ret x => PrimFloat.eqb x 2
                           | Throw _ => false
                           end)) in H.
  vm_compute in H. discriminate H.
Qed.

(** C1, amended: for every command output whose trailing JSON object
    parses successfully and in which no present field among the five has a
    value whose conversion to a string throws (an object with a member
    named toString, or an array that holds one), [parseATAGData] completes
    and sets each snapshot field to the float value of the correspondingly
    named JSON field when that field is present, and leaves it unchanged
    when the field is absent. *)
Theorem C1_fields_copied output o w :
  extractJSON output = Ret (VObj o) ->
  convertible o = true ->
  exists w',
    parseATAGData output w = (Ret tt, w')
    /\ copied o "roomTemperature"
         (currentTemperature (this w)) (currentTemperature (this w'))
    /\ copied o "targetTemperature"
         (targetTemperature (this w)) (targetTemperature (this w'))
    /\ copied o "outsideTemperature"
         (outsideTemperature (this w)) (outsideTemperature (this w'))
    /\ copied o "dhwWaterTemperature"
         (dhwTemperature (this w)) (dhwTemperature (this w'))
    /\ copied o "chWaterPressure"
         (waterPressure (this w)) (waterPressure (this w')).
Proof.
  intros He Hc. exists (parsedWorld o w).
  split; [exact (parseATAGData_ok output o w He Hc)|].
  cbn [parsedWorld logged setThis this].
  rewrite applyFields_currentTemperature, applyFields_targetTemperature,
    applyFields_outsideTemperature, applyFields_dhwTemperature,
    applyFields_waterPressure.
  repeat split; apply copied_applyFields; try assumption;
    unfold floatFields; simpl; tauto.
Qed.

Lemma C1_fields_copied_witness :
  extractJSON exampleOutput = Ret (VObj exampleObject)
  /\ convertible exampleObject = true
  /\ exists w',
      parseATAGData exampleOutput exampleWorld = (Ret tt, w')
      /\ copied exampleObject "roomTemperature"
           (currentTemperature (this exampleWorld)) (currentTemperature (this w'))
      /\ copied exampleObject "targetTemperature"
           (targetTemperature (this exampleWorld)) (targetTemperature (this w'))
      /\ copied exampleObject "outsideTemperature"
           (outsideTemperature (this exampleWorld)) (outsideTemperature (this w'))
      /\ copied exampleObject "dhwWaterTemperature"
           (dhwTemperature (this exampleWorld)) (dhwTemperature (this w'))
      /\ copied exampleObject "chWaterPressure"
           (waterPressure (this exampleWorld)) (waterPressure (this w')).
Proof.
  split; [vm_compute; reflexivity|]. split; [reflexivity|].
  apply C1_fields_copied; [vm_compute; reflexivity | reflexivity].
Defined.

(** C9, as stated, fails: the JSON of the output parses and its
    flameStatus is 'On', and yet the flame flag stays false: the
    conversion of roomTemperature, an object with a member named toString,
    throws before flameStatus is looked at. *)
Lemma C9_counterexample :
  exists o w',
    extractJSON (quoted "{'roomTemperature':{'toString':1},'flameStatus':'On'}")
    = Ret (VObj o)
    /\ getProp (lit "flameStatus") o = Some (VStr (lit "On"))
    /\ negb (isString "Off" (VStr (lit "On"))) = true
    /\ parseATAGData
         (quoted "{'roomTemperature':{'toString':1},'flameStatus':'On'}")
         exampleWorld
       = (Throw TypeError, w')
    /\ flameActive (this exampleWorld) = false
    /\ flameActive (this w') = false.
Proof.
  eexists. eexists. split; [vm_compute; reflexivity|].
  repeat split; vm_compute; reflexivity.
Qed.

(** C9, amended: for every poll output whose JSON parses and in which no
    present field among the five numeric ones has a value whose
    conversion throws, [parseATAGData] completes, and the flame flag and
    the heating state are updated only when the JSON field flameStatus is
    present: then [flameActive] is true exactly when flameStatus is not
    the string 'Off', and [currentHeatingCoolingState] is HEAT when
    [flameActive] is true or
    [currentTemperature < targetTemperature - 0.5], and OFF otherwise;
    when flameStatus is absent both keep their prior values.  When a
    conversion throws, [parseATAGData] throws the TypeError and both keep
    their prior values, whatever flameStatus is. *)
Theorem C9_flame_and_heating output o w :
  extractJSON output = Ret (VObj o) ->
  if convertible o
  then exists w',
      parseATAGData output w = (Ret tt, w')
      /\ match getProp (lit "flameStatus") o with
         | Some v =>
             flameActive (this w') = negb (isString "Off" v)
             /\ currentHeatingCoolingState (this w') =
                if flameActive (this w')
                   || (currentTemperature (this w') <? targetTemperature (this w') - 0.5)%float
                then CurrentHeatingCoolingState.HEAT
                else CurrentHeatingCoolingState.OFF
         | None =>
             flameActive (this w') = flameActive (this w)
             /\ currentHeatingCoolingState (this w')
                = currentHeatingCoolingState (this w)
         end
  else exists w',
      parseATAGData output w = (Throw TypeError, w')
      /\ flameActive (this w') = flameActive (this w)
      /\ currentHeatingCoolingState (this w') = currentHeatingCoolingState (this w).
Proof.
  intros He. destruct (convertible o) eqn:Hc.
  - exists (parsedWorld o w). split; [exact (parseATAGData_ok output o w He Hc)|].
    cbn [parsedWorld logged setThis this].
    pose proof (applyFields_flameActive o (this w)) as Hf.
    pose proof (applyFields_heatingState o (this w)) as Hh.
    destruct (getProp (lit "flameStatus") o) as [v|]; [|now split].
    split; [exact Hf|].
    rewrite Hh. unfold heatingState.
    destruct (flameActive (applyFields o (this w))); [reflexivity|].
    simpl. reflexivity.
  - pose proof (updateInternalState_spec o w) as Hu. rewrite Hc in Hu.
    destruct Hu as (w1 & Hu & _).
    destruct (updateInternalState_throws o w TypeError w1 Hu) as (_ & _ & Hf & Hh & _).
    unfold parseATAGData, tryCatch, bind, liftResult. rewrite He.
    cbn [fieldsOf]. rewrite Hu. unfold emit, throw.
    eexists. split; [reflexivity|]. cbn [logged this]. now split.
Qed.

Lemma C9_flame_and_heating_witness :
  extractJSON exampleOutput = Ret (VObj exampleObject)
  /\ convertible exampleObject = true
  /\ getProp (lit "flameStatus") exampleObject = Some (VStr (lit "Off"))
  /\ exists w',
      parseATAGData exampleOutput exampleWorld = (Ret tt, w')
      /\ flameActive (this w') = negb (isString "Off" (VStr (lit "Off")))
      /\ currentHeatingCoolingState (this w') =
         if flameActive (this w')
            || (currentTemperature (this w') <? targetTemperature (this w') - 0.5)%float
         then CurrentHeatingCoolingState.HEAT
         else CurrentHeatingCoolingState.OFF.
Proof.
  assert (He : extractJSON exampleOutput = Ret (VObj exampleObject))
    by (vm_compute; reflexivity).
  split; [exact He|]. split; [reflexivity|]. split; [reflexivity|].
  exact (C9_flame_and_heating exampleOutput exampleObject exampleWorld He).
Defined.

(** ** The poll cycle *)

Section PollCycle.

Lemma updateHomeKitCharacteristics_spec w :
  exists w',
    updateHomeKitCharacteristics w = (Ret tt, w')
    /\ this w' = this w /\ pending w' = pending w /\ nextPid w' = nextPid w
    /\ trace w' = trace w ++ publishList (this w).
Proof.
  unfold updateHomeKitCharacteristics, publishList, bind, emit, getThis, ret.
  cbn [logged this].
  destruct (outsideTemperatureService (settings (this w))),
    (waterPressureService (settings (this w))),
    (dhwTemperatureService (settings (this w)));
    eexists; repeat split; cbn [logged trace app];
    repeat (rewrite <- app_assoc; cbn [app]); reflexivity.
Qed.

(** [parseATAGData] leaves the promises and the flag alone, however it
    completes. *)
Lemma parseATAGData_frame output w :
  exists r w',
    parseATAGData output w = (r, w')
    /\ pending w' = pending w /\ nextPid w' = nextPid w
    /\ isUpdating (this w') = isUpdating (this w).
Proof.
  destruct (extractJSON output) as [data|e] eqn:He.
  - destruct (extractJSON_object output data He) as [o ->].
    pose proof (updateInternalState_spec o w) as Hu.
    destruct (convertible o) eqn:Hc.
    + exists (Ret tt), (parsedWorld o w).
      split; [exact (parseATAGData_ok output o w He Hc)|].
      cbn [parsedWorld logged setThis this pending nextPid].
      repeat split. apply applyFields_rest.
    + destruct Hu as (w1 & Hu & Hp & Hn & Ht & Hi).
      unfold parseATAGData, tryCatch, bind, liftResult. rewrite He. simpl.
      rewrite Hu. cbv beta iota delta [emit throw bind].
      eexists. eexists. split; [reflexivity|].
      cbn [logged pending nextPid this]. auto.
  - exists (Throw e), (failedWorld output e w).
    split; [exact (parseATAGData_extract_fail output e w He)|].
    repeat split.
Qed.

(** The rest of [updateATAGData] after a parse that completed. *)
Lemma updateATAGData_resume_ok output o w :
  extractJSON output = Ret (VObj o) ->
  convertible o = true ->
  exists w',
    updateATAGData_resume (Resolved output) w = (Ret tt, w')
    /\ this w' = set_isUpdating false (applyFields o (this w))
    /\ pending w' = pending w /\ nextPid w' = nextPid w
    /\ trace w' = trace w ++ updatedLog (applyFields o (this w))
                             :: publishList (applyFields o (this w)).
Proof.
  intros He Hc.
  destruct (updateHomeKitCharacteristics_spec (parsedWorld o w))
    as (w1 & Hk & Ht & Hp & Hn & Hl).
  unfold updateATAGData_resume, finally, tryCatch, bind.
  rewrite (parseATAGData_ok output o w He Hc), Hk.
  cbv beta iota delta [modify].
  eexists. split; [reflexivity|].
  cbn [setThis this pending nextPid trace].
  rewrite Ht, Hp, Hn, Hl.
  cbn [parsedWorld logged setThis this pending nextPid trace].
  repeat split. now rewrite <- app_assoc.
Qed.

(** The rest of [updateATAGData] after one of the listed failures. *)
Lemma updateATAGData_resume_failure ev e w :
  pollFailure ev e ->
  exists w' logs,
    updateATAGData_resume (settle ev) w = (Ret tt, w')
    /\ this w' = set_isUpdating false (this w)
    /\ pending w' = pending w /\ nextPid w' = nextPid w
    /\ trace w' = trace w ++ logs
                  ++ [Log LError "Failed to update ATAG data:" [LMessage e]]
    /\ (forall x, In x logs -> exists l t a, x = Log l t a).
Proof.
  assert (Hrej : forall e0, settle ev = Rejected e0 ->
            exists w' logs,
              updateATAGData_resume (settle ev) w = (Ret tt, w')
              /\ this w' = set_isUpdating false (this w)
              /\ pending w' = pending w /\ nextPid w' = nextPid w
              /\ trace w' = trace w ++ logs
                            ++ [Log LError "Failed to update ATAG data:" [LMessage e0]]
              /\ (forall x, In x logs -> exists l t a, x = Log l t a)).
  { intros e0 Hs. rewrite Hs. exists (setThis (set_isUpdating false (this w))
      (logged (Log LError "Failed to update ATAG data:" [LMessage e0]) w)), [].
    repeat split. intros x []. }
  assert (Hext : forall output e0,
            settle ev = Resolved output -> extractJSON output = Throw e0 ->
            exists w' logs,
              updateATAGData_resume (settle ev) w = (Ret tt, w')
              /\ this w' = set_isUpdating false (this w)
              /\ pending w' = pending w /\ nextPid w' = nextPid w
              /\ trace w' = trace w ++ logs
                            ++ [Log LError "Failed to update ATAG data:" [LMessage e0]]
              /\ (forall x, In x logs -> exists l t a, x = Log l t a)).
  { intros output e0 Hs He. rewrite Hs.
    unfold updateATAGData_resume, finally, tryCatch, bind.
    rewrite (parseATAGData_extract_fail output e0 w He).
    cbv beta iota delta [modify emit].
    eexists. exists [Log LError "Failed to parse ATAG data:" [LMessage e0];
                     Log Debug "Raw output:" [LStr output]].
    split; [reflexivity|].
    cbn [failedWorld setThis logged this pending nextPid trace].
    repeat split.
    - repeat (rewrite <- app_assoc; cbn [app]). reflexivity.
    - intros x [<-|[<-|[]]]; eauto. }
  intros Hf. destruct Hf as [code output errorOutput Hcode| msg | e
                            | output errorOutput Hm | output errorOutput json Hm Hj].
  - apply Hrej. destruct code as [[| |]|]; try reflexivity. congruence.
  - apply Hrej. reflexivity.
  - apply Hrej. reflexivity.
  - apply (Hext output); [reflexivity|]. unfold extractJSON. now rewrite Hm.
  - apply (Hext output); [reflexivity|]. unfold extractJSON. now rewrite Hm, Hj.
Qed.

(** However the promise settles, [updateATAGData] completes normally and
    releases the guard. *)
Lemma updateATAGData_resume_any r w :
  exists w',
    updateATAGData_resume r w = (Ret tt, w')
    /\ isUpdating (this w') = false
    /\ pending w' = pending w /\ nextPid w' = nextPid w.
Proof.
  unfold updateATAGData_resume, finally, tryCatch, bind.
  destruct r as [output|e].
  - destruct (parseATAGData_frame output w) as (r & w1 & Hp & Hpe & Hn & _).
    rewrite Hp. destruct r as [[]|e].
    + destruct (updateHomeKitCharacteristics_spec w1) as (w2 & Hk & _ & Hp2 & Hn2 & _).
      rewrite Hk. cbv beta iota delta [modify].
      eexists. split; [reflexivity|].
      cbn [setThis this pending nextPid]. repeat split; congruence.
    + cbv beta iota delta [modify emit].
      eexists. split; [reflexivity|].
      cbn [setThis logged this pending nextPid]. repeat split; congruence.
  - cbv beta iota delta [modify emit throw].
    eexists. split; [reflexivity|]. repeat split.
Qed.

End PollCycle.

(** ** The event loop *)

Section EventLoop.

Lemma removePending_absent pid l :
  ~ In pid (map fst l) -> removePending pid l = l.
Proof.
  induction l as [|[p k] l IH]; simpl; intros H; [reflexivity|].
  destruct (Nat.eqb_spec p pid) as [->|Hne]; [tauto|].
  rewrite IH; tauto.
Qed.

Lemma removePending_In pid l x : In x (removePending pid l) -> In x l.
Proof.
  induction l as [|[p k] l IH]; simpl; [tauto|].
  destruct (Nat.eqb p pid); simpl; tauto.
Qed.

Lemma removePending_NoDup pid l :
  NoDup (map fst l) -> NoDup (map fst (removePending pid l)).
Proof.
  induction l as [|[p k] l IH]; simpl; intros H; [constructor|].
  inversion H as [|? ? Hnot Hnd]; subst.
  destruct (Nat.eqb p pid); [auto|].
  simpl. constructor; [|auto].
  intros Hin. apply Hnot. apply in_map_iff in Hin as ([p' k'] & <- & Hin).
  apply in_map_iff. exists (p', k'). split; [reflexivity|].
  eapply removePending_In; eauto.
Qed.

(** Settling the promise of a child takes exactly that child out. *)
Lemma removePending_polls pid l k :
  NoDup (map fst l) ->
  findPending pid l = Some k ->
  List.length (filter isUpdateAwaiter l) =
  (List.length (filter isUpdateAwaiter (removePending pid l))
   + if isUpdateAwaiter (pid, k) then 1 else 0)%nat.
Proof.
  induction l as [|[p k0] l IH];
    cbn [filter findPending removePending map fst]; intros Hnd Hf; [discriminate|].
  inversion Hnd as [|? ? Hnot Hnd']; subst.
  destruct (Nat.eqb_spec p pid) as [->|Hne].
  - inversion Hf; subst k0. rewrite (removePending_absent pid l Hnot).
    destruct (isUpdateAwaiter (pid, k)); cbn [List.length]; lia.
  - specialize (IH Hnd' Hf). cbn [filter].
    destruct (isUpdateAwaiter (p, k0)); cbn [List.length]; lia.
Qed.

Lemma executeATAGCommand_spec setTemp w :
  exists w',
    executeATAGCommand setTemp w = (Ret (nextPid w), w')
    /\ this w' = this w /\ pending w' = pending w
    /\ nextPid w' = S (nextPid w)
    /\ (trace w' = trace w
        \/ exists line command args timeoutOpt,
            trace w' = trace w
                       ++ [Log Debug "Executing: ${this.javaPath} ${args.join(' ')}" line;
                           Spawn (nextPid w) command args timeoutOpt]).
Proof.
  unfold executeATAGCommand, bind, getThis, emit, spawn, rejectedPromise.
  cbv zeta.
  match goal with |- context [if ?b then _ else _] => destruct b end.
  - cbn [logged this pending nextPid trace].
    eexists. split; [reflexivity|].
    cbn [this pending nextPid trace]. repeat split.
    right. rewrite <- app_assoc. do 4 eexists. reflexivity.
  - eexists. split; [reflexivity|].
    cbn [this pending nextPid trace]. repeat split. now left.
Qed.

(** A poll that starts: the guard is taken and one command is started. *)
Lemma updateATAGData_idle w :
  isUpdating (this w) = false ->
  exists w',
    updateATAGData w = (Ret tt, w')
    /\ this w' = set_isUpdating true (this w)
    /\ pending w' = pending w ++ [(nextPid w, AwaitUpdate)]
    /\ nextPid w' = S (nextPid w).
Proof.
  intros Hi. unfold updateATAGData, bind, getThis. rewrite Hi.
  unfold modify.
  destruct (executeATAGCommand_spec None (setThis (set_isUpdating true (this w)) w))
    as (w1 & He & Ht & Hp & Hn & _).
  cbn [setThis this pending nextPid] in *.
  rewrite He. unfold await. eexists. split; [reflexivity|].
  cbn [this pending nextPid]. rewrite Ht, Hp, Hn. repeat split.
Qed.

(** A poll that finds the guard taken does nothing but log. *)
Lemma updateATAGData_busy w :
  isUpdating (this w) = true ->
  updateATAGData w =
  (Ret tt, logged (Log Debug "Update already in progress, skipping" []) w).
Proof.
  intros Hi. unfold updateATAGData, bind, getThis. rewrite Hi. reflexivity.
Qed.

(** The set-temperature path starts its command without a look at the
    guard. *)
Lemma setTargetTemperature_spec v w :
  exists w',
    setTargetTemperature v w = (Ret tt, w')
    /\ this w' = this w
    /\ pending w' = pending w ++ [(nextPid w, AwaitSet v)]
    /\ nextPid w' = S (nextPid w).
Proof.
  unfold setTargetTemperature, bind.
  destruct (executeATAGCommand_spec (Some v) w)
    as (w1 & He & Ht & Hp & Hn & _).
  rewrite He. unfold await. eexists. split; [reflexivity|].
  cbn [this pending nextPid]. rewrite Ht, Hp, Hn. repeat split.
Qed.

Lemma setTargetTemperature_resume_spec v r w :
  exists res w',
    setTargetTemperature_resume v r w = (res, w')
    /\ pending w' = pending w /\ nextPid w' = nextPid w
    /\ isUpdating (this w') = isUpdating (this w).
Proof.
  unfold setTargetTemperature_resume, tryCatch, bind, modify, emit, throw.
  destruct r; eexists; eexists; (split; [reflexivity|]); repeat split.
Qed.

Lemma onGet_frame s c h w :
  onGet s c = Some h ->
  exists x w', h w = (Ret x, w')
               /\ this w' = this w /\ pending w' = pending w /\ nextPid w' = nextPid w.
Proof.
  destruct s, c; simpl; intros H; inversion H; subst;
    unfold bind, getThis, emit, ret;
    eexists; eexists; (split; [reflexivity|]); repeat split.
Qed.

Lemma pollsInFlight_app w l :
  List.length (filter isUpdateAwaiter (pending w ++ l)) =
  (pollsInFlight w + List.length (filter isUpdateAwaiter l))%nat.
Proof. unfold pollsInFlight. now rewrite filter_app, length_app. Qed.

Lemma fresh_NoDup (l : list (nat * awaiter)) n k :
  (forall p k0, In (p, k0) l -> (p < n)%nat) ->
  NoDup (map fst l) ->
  NoDup (map fst (l ++ [(n, k)])).
Proof.
  intros Hlt Hnd. rewrite map_app. simpl.
  apply NoDup_app; [assumption | repeat constructor; intros [] |].
  intros p Hin [<-|[]].
  apply in_map_iff in Hin as ([p' k'] & <- & Hin).
  specialize (Hlt _ _ Hin). simpl in *. lia.
Qed.

Lemma fresh_bound (l : list (nat * awaiter)) n k :
  (forall p k0, In (p, k0) l -> (p < n)%nat) ->
  forall p k0, In (p, k0) (l ++ [(n, k)]) -> (p < S n)%nat.
Proof.
  intros Hlt p k0 Hin. apply in_app_or in Hin as [Hin|[Heq|[]]].
  - specialize (Hlt _ _ Hin). lia.
  - inversion Heq. lia.
Qed.

Lemma invariant_frame w w' :
  invariant w ->
  pending w' = pending w -> nextPid w' = nextPid w ->
  isUpdating (this w') = isUpdating (this w) ->
  invariant w'.
Proof.
  unfold invariant, pollsInFlight. intros (Hlt & Hnd & Hp) Ep En Ei.
  rewrite Ep, En, Ei. auto.
Qed.

Lemma invariant_spawn w w' k :
  invariant w ->
  pending w' = pending w ++ [(nextPid w, k)] ->
  nextPid w' = S (nextPid w) ->
  match k with
  | AwaitUpdate => isUpdating (this w) = false /\ isUpdating (this w') = true
  | AwaitSet _ => isUpdating (this w') = isUpdating (this w)
  end ->
  invariant w'.
Proof.
  unfold invariant. intros (Hlt & Hnd & Hp) Ep En Hk.
  unfold pollsInFlight at 1. rewrite Ep, En, pollsInFlight_app, Hp.
  split; [now apply fresh_bound|]. split; [now apply fresh_NoDup|].
  destruct k as [|v].
  - destruct Hk as [-> ->]. reflexivity.
  - rewrite Hk. simpl. lia.
Qed.

Lemma invariant_settle w w' pid k :
  invariant w ->
  findPending pid (pending w) = Some k ->
  pending w' = removePending pid (pending w) ->
  nextPid w' = nextPid w ->
  isUpdating (this w') =
    match k with
    | AwaitUpdate => false
    | AwaitSet _ => isUpdating (this w)
    end ->
  invariant w'.
Proof.
  unfold invariant. intros (Hlt & Hnd & Hp) Hf Ep En Ei.
  pose proof (removePending_polls pid (pending w) k Hnd Hf) as Hc.
  unfold pollsInFlight in *. rewrite Ep, En, Ei.
  split; [intros p k0 Hin; apply (Hlt p k0); eapply removePending_In; eauto|].
  split; [now apply removePending_NoDup|].
  destruct k as [|v]; unfold isUpdateAwaiter in Hc at 3; simpl in Hc.
  - destruct (isUpdating (this w)); lia.
  - destruct (isUpdating (this w)); lia.
Qed.

(** One turn of the event loop preserves the invariant. *)
Lemma step_invariant e w r w' :
  invariant w -> step e w = Some (r, w') -> invariant w'.
Proof.
  intros Hinv. destruct e as [|v|v|v|s c|pid ev]; cbn [step].
  - destruct (isUpdating (this w)) eqn:Hi.
    + rewrite (updateATAGData_busy w Hi). intros H. inversion H; subst.
      now apply (invariant_frame w).
    + destruct (updateATAGData_idle w Hi) as (w1 & Hu & Ht & Hp & Hn).
      rewrite Hu. intros H. inversion H; subst.
      apply (invariant_spawn w w' AwaitUpdate); auto.
      split; [assumption|]. now rewrite Ht.
  - unfold bind at 1. unfold emit at 1.
    set (w0 := logged _ w).
    destruct (setTargetTemperature_spec v w0) as (w1 & Hu & Ht & Hp & Hn).
    rewrite Hu. intros H. inversion H; subst.
    apply (invariant_spawn w w' (AwaitSet v)); auto. now rewrite Ht.
  - unfold bind at 1. unfold emit at 1. unfold bind at 1. unfold modify at 1.
    set (w0 := setThis _ (logged _ w)).
    assert (Hinv0 : invariant w0) by now apply (invariant_frame w).
    destruct (isUpdating (this w0)) eqn:Hi.
    + rewrite (updateATAGData_busy w0 Hi). intros H. inversion H; subst.
      now apply (invariant_frame w0).
    + destruct (updateATAGData_idle w0 Hi) as (w1 & Hu & Ht & Hp & Hn).
      rewrite Hu. intros H. inversion H; subst.
      apply (invariant_spawn w0 w' AwaitUpdate); auto.
      split; [assumption|]. now rewrite Ht.
  - intros H. inversion H; subst. now apply (invariant_frame w).
  - destruct (hasService (this w) s); [|discriminate].
    destruct (onGet s c) as [h|] eqn:Hg; [|discriminate].
    destruct (onGet_frame s c h w Hg) as (x & w1 & Hh & Ht & Hp & Hn).
    unfold bind, ret. rewrite Hh. intros H. inversion H; subst.
    apply (invariant_frame w); auto. now rewrite Ht.
  - destruct (findPending pid (pending w)) as [k|] eqn:Hf; [|discriminate].
    unfold bind at 1. unfold settlePromise at 1.
    set (w0 := Build_World _ _ _ _).
    destruct k as [|v]; cbn [resume].
    + destruct (updateATAGData_resume_any (settle ev) w0) as (w1 & Hu & Hi & Hp & Hn).
      rewrite Hu. intros H. inversion H; subst.
      apply (invariant_settle w w' pid AwaitUpdate); auto.
    + destruct (setTargetTemperature_resume_spec v (settle ev) w0)
        as (res & w1 & Hu & Hp & Hn & Hi).
      rewrite Hu. intros H. inversion H; subst.
      apply (invariant_settle w w' pid (AwaitSet v)); auto.
Qed.

(** The world the constructor leaves, however it ends. *)
Lemma startUp_invariant jarFound hapError config r w :
  startUp jarFound hapError (newWorld config) = (r, w) -> invariant w.
Proof.
  unfold startUp, startPolling, createServices, toPrimitive, updateATAGData,
    executeATAGCommand, await, spawn, rejectedPromise, bind, getThis, emit, modify,
    ret, throw.
  cbn [newWorld this settings isUpdating setThis set_isUpdating logged pending nextPid trace].
  destruct jarFound, hapError;
    repeat match goal with
           | |- context [if ?b then _ else _] => destruct b
           end;
    intros H; inversion H; subst; clear H;
    unfold invariant, pollsInFlight;
    cbn [logged setThis set_isUpdating this pending nextPid isUpdating filter
         isUpdateAwaiter snd List.length map fst app];
    (split; [|split; [|reflexivity]]);
    first [ solve [intros p k [E|[]]; inversion E; lia]
          | solve [intros p k []]
          | solve [repeat constructor; simpl; tauto] ].
Qed.

Lemma construct_invariant jarFound hapError config w :
  construct jarFound hapError config = Ret w -> invariant w.
Proof.
  unfold construct. destruct (validate (readSettings config)); [discriminate|].
  destruct (startUp jarFound hapError (newWorld config)) as [[[]|e] w1] eqn:Hs;
    [|discriminate].
  intros H. inversion H; subst. exact (startUp_invariant _ _ _ _ _ Hs).
Qed.

Lemma reachable_invariant jarFound config w :
  reachable jarFound config w -> invariant w.
Proof.
  induction 1 as [hapError r w Hv Hs | w e r w' _ IH Hs].
  - exact (startUp_invariant _ _ _ _ _ Hs).
  - eapply step_invariant; eauto.
Qed.

End EventLoop.

(** ** The poll cycle (C2, C4, C5, C7) *)

Lemma step_child pid ev w k :
  findPending pid (pending w) = Some k ->
  step (Child pid ev) w =
  Some (resume k (settle ev)
          {| this := this w; pending := removePending pid (pending w);
             nextPid := nextPid w; trace := trace w |}).
Proof. intros Hf. cbn [step]. rewrite Hf. reflexivity. Qed.

(** C2, as stated, fails: the child of a poll exits with code 0, its
    output ends in JSON that parses, and the conversion of
    targetTemperature, an object with a member named toString, throws.
    The poll has failed, the error is caught and logged and the guard is
    released, as for any failure; but roomTemperature was converted before
    the error, and the current temperature keeps its new value, 1 instead
    of 20. *)
Lemma C2_counterexample :
  exists w',
    step (Child 0 (Close (Some 0%Z)
                     (quoted "{'roomTemperature':1,'targetTemperature':{'toString':1}}") []))
         exampleWorld
    = Some (Ret tt, w')
    /\ isUpdating (this w') = false
    /\ last (trace w') (SetTimeout 0)
       = Log LError "Failed to update ATAG data:" [LMessage TypeError]
    /\ currentTemperature (this exampleWorld) = 20%float
    /\ currentTemperature (this w') = 1%float
    /\ snapshot (this w') <> snapshot (this exampleWorld).
Proof.
  eexists. split; [vm_compute; reflexivity|].
  repeat split; try (vm_compute; reflexivity).
  vm_compute. intros H. inversion H.
Qed.

(** C2, amended: in every poll cycle, whether it succeeds or fails, the
    handler completes normally and [isUpdating] is false when it
    finishes; and when the child exits with a code other than 0, the
    spawn fails, the output has no JSON or the JSON does not parse, the
    error is caught and logged and every field of the accessory but
    [isUpdating], so every snapshot field, keeps its prior value. *)
Theorem C2_failed_poll_keeps_state w pid ev :
  findPending pid (pending w) = Some AwaitUpdate ->
  exists w',
    step (Child pid ev) w = Some (Ret tt, w')
    /\ isUpdating (this w') = false
    /\ forall e,
        pollFailure ev e ->
        this w' = set_isUpdating false (this w)
        /\ snapshot (this w') = snapshot (this w)
        /\ exists logs,
            trace w' = trace w ++ logs
                       ++ [Log LError "Failed to update ATAG data:" [LMessage e]]
            /\ forall x, In x logs -> exists l t a, x = Log l t a.
Proof.
  intros Hf. rewrite (step_child pid ev w AwaitUpdate Hf). cbn [resume].
  set (w0 := Build_World _ _ _ _).
  destruct (updateATAGData_resume_any (settle ev) w0) as (w1 & Hu & Hi & _).
  exists w1. split; [now rewrite Hu|]. split; [assumption|].
  intros e He.
  destruct (updateATAGData_resume_failure ev e w0 He)
    as (w2 & logs & Hu2 & Ht & _ & _ & Hl & Hlogs).
  rewrite Hu in Hu2. inversion Hu2; subst w2.
  rewrite Ht. repeat split. exists logs. split; assumption.
Qed.

Lemma C2_failed_poll_keeps_state_witness :
  findPending 0 (pending exampleWorld) = Some AwaitUpdate
  /\ pollFailure (Close (Some 1%Z) [] (lit "Connection refused"))
       (Error (CommandFailed (Some 1%Z) (lit "Connection refused")))
  /\ exists w',
      step (Child 0 (Close (Some 1%Z) [] (lit "Connection refused"))) exampleWorld
      = Some (Ret tt, w')
      /\ isUpdating (this w') = false
      /\ this w' = set_isUpdating false (this exampleWorld)
      /\ snapshot (this w') = snapshot (this exampleWorld)
      /\ exists logs,
          trace w' = trace exampleWorld ++ logs
                     ++ [Log LError "Failed to update ATAG data:"
                           [LMessage (Error (CommandFailed (Some 1%Z)
                                               (lit "Connection refused")))]]
          /\ forall x, In x logs -> exists l t a, x = Log l t a.
Proof.
  assert (Hf : pollFailure (Close (Some 1%Z) [] (lit "Connection refused"))
                 (Error (CommandFailed (Some 1%Z) (lit "Connection refused"))))
    by (constructor; discriminate).
  split; [reflexivity|]. split; [exact Hf|].
  destruct (C2_failed_poll_keeps_state exampleWorld 0
              (Close (Some 1%Z) [] (lit "Connection refused")) eq_refl)
    as (w' & Hs & Hi & Hfail).
  exists w'. split; [exact Hs|]. split; [exact Hi|].
  exact (Hfail _ Hf).
Defined.

(** C4: an invocation of [updateATAGData] while [isUpdating] is true is
    a no-op: no field of the accessory changes, no child is spawned (no
    promise is added, no process identifier is used) and nothing is
    published; one debug line is all it leaves. *)
Theorem C4_overlapping_poll_is_noop w :
  isUpdating (this w) = true ->
  exists w',
    updateATAGData w = (Ret tt, w')
    /\ step Timer w = Some (Ret tt, w')
    /\ this w' = this w
    /\ pending w' = pending w
    /\ nextPid w' = nextPid w
    /\ trace w' = trace w ++ [Log Debug "Update already in progress, skipping" []].
Proof.
  intros Hi. exists (logged (Log Debug "Update already in progress, skipping" []) w).
  cbn [step]. rewrite (updateATAGData_busy w Hi). repeat split.
Qed.

Lemma C4_overlapping_poll_is_noop_witness :
  isUpdating (this exampleWorld) = true
  /\ exists w',
      updateATAGData exampleWorld = (Ret tt, w')
      /\ step Timer exampleWorld = Some (Ret tt, w')
      /\ this w' = this exampleWorld
      /\ pending w' = pending exampleWorld
      /\ nextPid w' = nextPid exampleWorld
      /\ trace w' = trace exampleWorld
                    ++ [Log Debug "Update already in progress, skipping" []].
Proof.
  split; [reflexivity|].
  apply C4_overlapping_poll_is_noop. reflexivity.
Defined.




(** C7, as stated, fails: a poll succeeds on an output that has no
    outsideTemperature, and the outside temperature after the poll is the
    one from before the poll, 0 in one world and 7 in another, not a value
    derived from the output. *)
Lemma C7_counterexample :
  hasField exampleObject "outsideTemperature" = false
  /\ exists w1' w2',
      step (Child 0 (Close (Some 0%Z) exampleOutput [])) exampleWorld
      = Some (Ret tt, w1')
      /\ step (Child 0 (Close (Some 0%Z) exampleOutput []))
           (setThis (set_outsideTemperature 7 (this exampleWorld)) exampleWorld)
         = Some (Ret tt, w2')
      /\ trace w1' = trace exampleWorld
                     ++ updatedLog (this w1') :: publishList (this w1')
      /\ outsideTemperature (this exampleWorld) = 0%float
      /\ outsideTemperature (this w1') = 0%float
      /\ outsideTemperature (this w2') = 7%float.
Proof.
  split; [reflexivity|]. eexists. eexists.
  split; [vm_compute; reflexivity|].
  split; [vm_compute; reflexivity|].
  repeat split; vm_compute; reflexivity.
Qed.

(** C7, amended: on every successful poll, each snapshot field whose JSON
    field is present in the output is replaced by a value derived from that
    output alone (the same from whatever state the poll starts), and each
    field whose JSON field is absent keeps its value from before the poll;
    the snapshot is overwritten wholesale, retaining no value from before
    the poll, when all six JSON fields are present. *)
Theorem C7_present_fields_overwritten output o w1 w2 :
  extractJSON output = Ret (VObj o) ->
  convertible o = true ->
  exists w1' w2',
    updateATAGData_resume (Resolved output) w1 = (Ret tt, w1')
    /\ updateATAGData_resume (Resolved output) w2 = (Ret tt, w2')
    /\ (if hasField o "roomTemperature"
        then currentTemperature (this w1') = currentTemperature (this w2')
        else currentTemperature (this w1') = currentTemperature (this w1))
    /\ (if hasField o "targetTemperature"
        then targetTemperature (this w1') = targetTemperature (this w2')
        else targetTemperature (this w1') = targetTemperature (this w1))
    /\ (if hasField o "outsideTemperature"
        then outsideTemperature (this w1') = outsideTemperature (this w2')
        else outsideTemperature (this w1') = outsideTemperature (this w1))
    /\ (if hasField o "dhwWaterTemperature"
        then dhwTemperature (this w1') = dhwTemperature (this w2')
        else dhwTemperature (this w1') = dhwTemperature (this w1))
    /\ (if hasField o "chWaterPressure"
        then waterPressure (this w1') = waterPressure (this w2')
        else waterPressure (this w1') = waterPressure (this w1))
    /\ (if hasField o "flameStatus"
        then flameActive (this w1') = flameActive (this w2')
        else flameActive (this w1') = flameActive (this w1)
             /\ currentHeatingCoolingState (this w1')
                = currentHeatingCoolingState (this w1))
    /\ (allPresent o = true -> snapshot (this w1') = snapshot (this w2')).
Proof.
  intros He Hc.
  destruct (updateATAGData_resume_ok output o w1 He Hc) as (w1' & Hu1 & Ht1 & _).
  destruct (updateATAGData_resume_ok output o w2 He Hc) as (w2' & Hu2 & Ht2 & _).
  exists w1', w2'. split; [assumption|]. split; [assumption|].
  rewrite Ht1, Ht2. unfold snapshot, allPresent, floatFields, hasField, hasProp.
  cbn [set_isUpdating currentTemperature targetTemperature outsideTemperature
       dhwTemperature waterPressure flameActive currentHeatingCoolingState
       forallb app].
  rewrite !applyFields_heatingState. unfold heatingState.
  rewrite !applyFields_currentTemperature, !applyFields_targetTemperature,
    !applyFields_outsideTemperature, !applyFields_dhwTemperature,
    !applyFields_waterPressure, !applyFields_flameActive.
  destruct (getProp (lit "roomTemperature") o),
    (getProp (lit "targetTemperature") o),
    (getProp (lit "outsideTemperature") o),
    (getProp (lit "dhwWaterTemperature") o),
    (getProp (lit "chWaterPressure") o),
    (getProp (lit "flameStatus") o);
    repeat split; try reflexivity; intros H; discriminate H.
Qed.

Lemma C7_present_fields_overwritten_witness :
  extractJSON fullOutput = Ret (VObj fullObject)
  /\ convertible fullObject = true
  /\ allPresent fullObject = true
  /\ exists w1' w2',
      updateATAGData_resume (Resolved fullOutput) exampleWorld = (Ret tt, w1')
      /\ updateATAGData_resume (Resolved fullOutput) exampleSetWorld = (Ret tt, w2')
      /\ snapshot (this w1') = snapshot (this w2').
Proof.
  assert (He : extractJSON fullOutput = Ret (VObj fullObject))
    by (vm_compute; reflexivity).
  split; [exact He|]. split; [reflexivity|]. split; [reflexivity|].
  destruct (C7_present_fields_overwritten fullOutput fullObject
              exampleWorld exampleSetWorld He eq_refl)
    as (w1' & w2' & H1 & H2 & _ & _ & _ & _ & _ & _ & Hall).
  exists w1', w2'. split; [exact H1|]. split; [exact H2|].
  exact (Hall eq_refl).
Defined.

(** ** Setting the target temperature (C6) *)

Lemma settle_succeeded ev :
  if succeeded ev
  then exists output, settle ev = Resolved output
  else exists e, settle ev = Rejected e.
Proof.
  destruct ev as [[[| |]|] output errorOutput|msg|e]; simpl; eauto.
Qed.

(** C6: a call [setTargetTemperature(value)] spawns the command and
    waits, the accessory unchanged.  When the command fails (its child
    exits with a code other than 0 or cannot be spawned), the call throws a
    HapStatusError with SERVICE_COMMUNICATION_FAILURE to the host and the
    accessory, so the stored target temperature, is as before; when the
    command succeeds, [targetTemperature] is set to [value]. *)
Theorem C6_set_temperature w pid value ev :
  findPending pid (pending w) = Some (AwaitSet value) ->
  (forall w0, exists w1,
        step (SetTargetTemperature value) w0 = Some (Ret tt, w1)
        /\ this w1 = this w0
        /\ pending w1 = pending w0 ++ [(nextPid w0, AwaitSet value)])
  /\ if succeeded ev
     then exists w',
         step (Child pid ev) w = Some (Ret tt, w')
         /\ targetTemperature (this w') = value
         /\ this w' = set_targetTemperature value (this w)
     else exists w' e,
         step (Child pid ev) w
         = Some (Throw (HapStatusError hap.HAPStatus.SERVICE_COMMUNICATION_FAILURE), w')
         /\ targetTemperature (this w') = targetTemperature (this w)
         /\ this w' = this w
         /\ trace w' = trace w
                       ++ [Log LError "Failed to set target temperature:" [LMessage e]].
Proof.
  intros Hf. split.
  - intros w0. cbn [step]. unfold bind at 1. unfold emit at 1.
    set (w2 := logged _ w0).
    destruct (setTargetTemperature_spec value w2) as (w1 & Hu & Ht & Hp & _).
    exists w1. rewrite Hu. repeat split; assumption.
  - rewrite (step_child pid ev w (AwaitSet value) Hf). cbn [resume].
    pose proof (settle_succeeded ev) as Hs.
    destruct (succeeded ev).
    + destruct Hs as [output ->]. eexists. split; [reflexivity|]. split; reflexivity.
    + destruct Hs as [e ->]. eexists. exists e. split; [reflexivity|].
      repeat split.
Qed.

Lemma C6_set_temperature_witness :
  findPending 1 (pending exampleSetWorld) = Some (AwaitSet 21)
  /\ ((forall w0, exists w1,
          step (SetTargetTemperature 21) w0 = Some (Ret tt, w1)
          /\ this w1 = this w0
          /\ pending w1 = pending w0 ++ [(nextPid w0, AwaitSet 21)])
      /\ if succeeded (ChildError (lit "spawn java ENOENT"))
         then exists w',
             step (Child 1 (ChildError (lit "spawn java ENOENT"))) exampleSetWorld
             = Some (Ret tt, w')
             /\ targetTemperature (this w') = 21%float
             /\ this w' = set_targetTemperature 21 (this exampleSetWorld)
         else exists w' e,
             step (Child 1 (ChildError (lit "spawn java ENOENT"))) exampleSetWorld
             = Some (Throw (HapStatusError hap.HAPStatus.SERVICE_COMMUNICATION_FAILURE), w')
             /\ targetTemperature (this w') = targetTemperature (this exampleSetWorld)
             /\ this w' = this exampleSetWorld
             /\ trace w' = trace exampleSetWorld
                           ++ [Log LError "Failed to set target temperature:" [LMessage e]]).
Proof.
  split; [reflexivity|].
  apply (C6_set_temperature exampleSetWorld 1 21 (ChildError (lit "spawn java ENOENT"))).
  reflexivity.
Defined.

(** ** Construction (C8) *)


(** The constructor after the validation: it returns when nothing throws,
    and what it throws otherwise is the TypeError of a conversion or the
    exception of the host library. *)
Lemma startUp_outcome jarFound hapError config :
  if completes jarFound hapError (readSettings config)
  then exists w, startUp jarFound hapError (newWorld config) = (Ret tt, w)
  else exists e w,
      startUp jarFound hapError (newWorld config) = (Throw e, w)
      /\ (e = TypeError \/ hapError = Some e).
Proof.
  unfold completes.
  destruct jarFound, hapError as [e0|],
    (stringifiable (jarPath (readSettings config))) eqn:Hj,
    (stringifiable (pollInterval (readSettings config))) eqn:Hpi,
    (stringifiable (mode (readSettings config))) eqn:Hm;
    cbn [orb andb];
    unfold startUp, startPolling, createServices, toPrimitive, updateATAGData,
      executeATAGCommand, await, spawn, rejectedPromise, bind, getThis, emit,
      modify, ret, throw;
    repeat (cbn [newWorld this settings isUpdating setThis set_isUpdating logged
                 pending nextPid trace];
            rewrite ?Hj, ?Hpi, ?Hm;
            match goal with
            | |- context [if ?b then _ else _] => destruct b
            end);
    cbn [newWorld this settings isUpdating setThis set_isUpdating logged
         pending nextPid trace];
    rewrite ?Hj, ?Hpi, ?Hm; eauto 6.
Qed.



(** ** The water-pressure leak sensor (C10) *)

(** C10: for every stored water pressure, the exposed leak sensor reports
    LEAK_DETECTED exactly when [waterPressure < 1.0] and LEAK_NOT_DETECTED
    otherwise, when the characteristic is read and when the
    characteristics are republished after a poll. *)
Theorem C10_leak_sensor w :
  waterPressureService (settings (this w)) = true ->
  (exists h w1,
      hasService (this w) WaterPressureSensor = true
      /\ onGet WaterPressureSensor LeakDetected = Some h
      /\ h w = (Ret (CInt (if (waterPressure (this w) <? 1)%float
                           then LeakDetected.LEAK_DETECTED
                           else LeakDetected.LEAK_NOT_DETECTED)), w1))
  /\ (exists w2,
        updateHomeKitCharacteristics w = (Ret tt, w2)
        /\ trace w2 = trace w ++ publishList (this w)
        /\ In (UpdateCharacteristic WaterPressureSensor LeakDetected
                 (CInt (if (waterPressure (this w) <? 1)%float
                        then LeakDetected.LEAK_DETECTED
                        else LeakDetected.LEAK_NOT_DETECTED)))
              (publishList (this w))
        /\ forall v,
            In (UpdateCharacteristic WaterPressureSensor LeakDetected v)
               (publishList (this w)) ->
            v = CInt (if (waterPressure (this w) <? 1)%float
                      then LeakDetected.LEAK_DETECTED
                      else LeakDetected.LEAK_NOT_DETECTED)).
Proof.
  intros Hs. split.
  - eexists. eexists. split; [exact Hs|]. split; [reflexivity|].
    unfold bind, getThis, emit, ret. reflexivity.
  - destruct (updateHomeKitCharacteristics_spec w) as (w2 & Hu & _ & _ & _ & Ht).
    exists w2. split; [assumption|]. split; [assumption|].
    unfold publishList, leakValue. rewrite Hs.
    destruct (outsideTemperatureService (settings (this w))),
      (dhwTemperatureService (settings (this w))); simpl; split;
      try tauto;
      intros v H;
      repeat (destruct H as [H|H]; [try discriminate H; now inversion H|]);
      destruct H.
Qed.

Lemma C10_leak_sensor_witness :
  waterPressureService (settings (this exampleWorld)) = true
  /\ ((exists h w1,
          hasService (this exampleWorld) WaterPressureSensor = true
          /\ onGet WaterPressureSensor LeakDetected = Some h
          /\ h exampleWorld
             = (Ret (CInt (if (waterPressure (this exampleWorld) <? 1)%float
                           then LeakDetected.LEAK_DETECTED
                           else LeakDetected.LEAK_NOT_DETECTED)), w1))
      /\ (exists w2,
            updateHomeKitCharacteristics exampleWorld = (Ret tt, w2)
            /\ trace w2 = trace exampleWorld ++ publishList (this exampleWorld)
            /\ In (UpdateCharacteristic WaterPressureSensor LeakDetected
                     (CInt (if (waterPressure (this exampleWorld) <? 1)%float
                            then LeakDetected.LEAK_DETECTED
                            else LeakDetected.LEAK_NOT_DETECTED)))
                  (publishList (this exampleWorld))
            /\ forall v,
                In (UpdateCharacteristic WaterPressureSensor LeakDetected v)
                   (publishList (this exampleWorld)) ->
                v = CInt (if (waterPressure (this exampleWorld) <? 1)%float
                          then LeakDetected.LEAK_DETECTED
                          else LeakDetected.LEAK_NOT_DETECTED))).
Proof.
  split; [reflexivity|].
  apply C10_leak_sensor. reflexivity.
Defined.

(** * Further properties of the code *)

Ltac conjs := repeat match goal with |- _ /\ _ => split end.

(** ** What each function leaves alone *)

Section Frames.

Ltac all_fields o :=
  repeat match goal with
         | |- context [getProp (lit ?k) o] => destruct (getProp (lit k) o)
         end;
  repeat match goal with
         | |- context [stringifiable ?v] => destruct (stringifiable v)
         end.

(** The six conditional updates, however they end: the configuration, the
    guard, the fields that HomeKit sets and the promises are untouched,
    the heating state is the old one or the recomputed one, and the debug
    line is the only thing logged. *)
Lemma updateInternalState_frame o w r w' :
  updateInternalState o w = (r, w') ->
  settings (this w') = settings (this w)
  /\ isUpdating (this w') = isUpdating (this w)
  /\ targetHeatingCoolingState (this w') = targetHeatingCoolingState (this w)
  /\ temperatureDisplayUnits (this w') = temperatureDisplayUnits (this w)
  /\ pending w' = pending w /\ nextPid w' = nextPid w
  /\ (currentHeatingCoolingState (this w') = currentHeatingCoolingState (this w)
      \/ currentHeatingCoolingState (this w') = heatingState (this w'))
  /\ (trace w' = trace w \/ trace w' = trace w ++ [updatedLog (this w')]).
Proof.
  cbv beta iota zeta delta [updateInternalState whenDefined parseFloat].
  all_fields o;
    cbv beta iota zeta delta [bind liftResult modify emit getThis ret];
    intros H; inversion H; subst; clear H;
    cbn [setThis logged this pending nextPid trace];
    repeat split; auto.
Qed.

Lemma heatingState_cases a :
  heatingState a = CurrentHeatingCoolingState.OFF
  \/ heatingState a = CurrentHeatingCoolingState.HEAT.
Proof.
  unfold heatingState. destruct (flameActive a); [now right|].
  destruct (currentTemperature a <? targetTemperature a - 0.5)%float; auto.
Qed.

Lemma world_eq (w1 w2 : World) :
  this w1 = this w2 -> pending w1 = pending w2 -> nextPid w1 = nextPid w2 ->
  trace w1 = trace w2 -> w1 = w2.
Proof. destruct w1, w2; simpl; intros; subst; reflexivity. Qed.

Lemma speakable_args st (setTemp : option float) :
  stringifiable (javaPath st)
  && forallb joinable
       (commandArgs st match setTemp with
                       | Some t => [ALit "-t"; ANumString t]
                       | None => []
                       end)
  = speakable st.
Proof.
  unfold speakable, commandArgs. rewrite !forallb_app.
  destruct setTemp; cbn [forallb joinable andb]; reflexivity.
Qed.

Lemma executeATAGCommand_run setTemp w :
  exists w1,
    executeATAGCommand setTemp w = (Ret (nextPid w), w1)
    /\ forall k,
        snd (await (nextPid w) k w1)
        = spawned k match setTemp with
                    | Some t => [ALit "-t"; ANumString t]
                    | None => []
                    end w.
Proof.
  pose proof (speakable_args (settings (this w)) setTemp) as Hs.
  unfold executeATAGCommand, bind, getThis, emit, spawn, rejectedPromise.
  unfold commandArgs in Hs. cbv zeta. rewrite Hs.
  unfold spawned, commandEffects.
  destruct (speakable (settings (this w)));
    (eexists; split; [reflexivity|]);
    intros k; unfold await, executingLog, commandArgs;
    cbn [snd logged this pending nextPid trace];
    apply world_eq; cbn [this pending nextPid trace]; try reflexivity.
  - rewrite <- app_assoc. reflexivity.
  - now rewrite app_nil_r.
Qed.

Lemma updateATAGData_run w : updateATAGData w = (Ret tt, polled w).
Proof.
  unfold updateATAGData, polled, bind, getThis.
  destruct (isUpdating (this w)); [reflexivity|].
  unfold modify.
  destruct (executeATAGCommand_run None (setThis (set_isUpdating true (this w)) w))
    as (w1 & He & Ha).
  cbn [setThis nextPid] in He, Ha. rewrite He.
  specialize (Ha AwaitUpdate). unfold await in *. cbn [snd] in Ha.
  now rewrite Ha.
Qed.

Lemma setTargetTemperature_run v w :
  setTargetTemperature v w
  = (Ret tt, spawned (AwaitSet v) [ALit "-t"; ANumString v] w).
Proof.
  unfold setTargetTemperature, bind.
  destruct (executeATAGCommand_run (Some v) w) as (w1 & He & Ha).
  rewrite He. specialize (Ha (AwaitSet v)). unfold await in *. cbn [snd] in Ha.
  now rewrite Ha.
Qed.

(** [parseATAGData], however it ends. *)
Lemma parseATAGData_leaves output w r w' :
  parseATAGData output w = (r, w') ->
  settings (this w') = settings (this w)
  /\ isUpdating (this w') = isUpdating (this w)
  /\ targetHeatingCoolingState (this w') = targetHeatingCoolingState (this w)
  /\ temperatureDisplayUnits (this w') = temperatureDisplayUnits (this w)
  /\ pending w' = pending w /\ nextPid w' = nextPid w
  /\ (currentHeatingCoolingState (this w') = currentHeatingCoolingState (this w)
      \/ currentHeatingCoolingState (this w') = heatingState (this w'))
  /\ exists logs, trace w' = trace w ++ logs /\ forallb isLog logs = true.
Proof.
  unfold parseATAGData, tryCatch, bind, liftResult.
  destruct (extractJSON output) as [data|e] eqn:He.
  - destruct (extractJSON_object output data He) as [o ->]. cbn [fieldsOf].
    destruct (updateInternalState o w) as [r1 w1] eqn:Hu.
    destruct (updateInternalState_frame o w r1 w1 Hu)
      as (Hs & Hi & Ht & Hd & Hp & Hn & Hc & Hl).
    destruct r1 as [[]|e].
    + intros H. inversion H; subst. repeat split; auto.
      destruct Hl as [->| ->].
      * exists []. now rewrite app_nil_r.
      * eexists. split; reflexivity.
    + unfold emit, throw. intros H. inversion H; subst.
      cbn [logged this pending nextPid trace]. repeat split; auto.
      destruct Hl as [->| ->].
      * eexists. rewrite <- app_assoc. split; reflexivity.
      * eexists. rewrite <- !app_assoc. split; reflexivity.
  - unfold emit, throw. intros H. inversion H; subst.
    cbn [logged this pending nextPid trace]. repeat split; auto.
    eexists. rewrite <- app_assoc. split; reflexivity.
Qed.

(** The rest of [updateATAGData], however the promise settles. *)
Lemma updateATAGData_resume_leaves r w :
  exists w',
    updateATAGData_resume r w = (Ret tt, w')
    /\ settings (this w') = settings (this w)
    /\ isUpdating (this w') = false
    /\ targetHeatingCoolingState (this w') = targetHeatingCoolingState (this w)
    /\ temperatureDisplayUnits (this w') = temperatureDisplayUnits (this w)
    /\ pending w' = pending w /\ nextPid w' = nextPid w
    /\ (currentHeatingCoolingState (this w') = currentHeatingCoolingState (this w)
        \/ currentHeatingCoolingState (this w') = heatingState (this w'))
    /\ exists l, trace w' = trace w ++ l /\ forallb isLogOrUpdate l = true.
Proof.
  assert (Hlog : forall l, forallb isLog l = true -> forallb isLogOrUpdate l = true).
  { intros l. rewrite !forallb_forall. intros H x Hx. specialize (H x Hx).
    destruct x; simpl in *; congruence. }
  assert (Hpub : forall a, forallb isLogOrUpdate (publishList a) = true).
  { intros a. unfold publishList.
    destruct (outsideTemperatureService (settings a)),
      (waterPressureService (settings a)),
      (dhwTemperatureService (settings a)); reflexivity. }
  unfold updateATAGData_resume, finally, tryCatch, bind.
  destruct r as [output|e].
  - destruct (parseATAGData output w) as [r1 w1] eqn:Hp.
    destruct (parseATAGData_leaves output w r1 w1 Hp)
      as (Hs & Hi & Ht & Hd & Hpe & Hn & Hc & logs & Hl & Hlogs).
    destruct r1 as [[]|e].
    + destruct (updateHomeKitCharacteristics_spec w1)
        as (w2 & Hk & Ht2 & Hp2 & Hn2 & Hl2).
      rewrite Hk. unfold modify. eexists. split; [reflexivity|].
      cbn [setThis this pending nextPid trace]. rewrite Ht2.
      cbn [set_isUpdating settings isUpdating targetHeatingCoolingState
           temperatureDisplayUnits currentHeatingCoolingState].
      repeat split; try congruence.
      * destruct Hc as [Hc|Hc]; [now left|right]. rewrite Hc. reflexivity.
      * exists (logs ++ publishList (this w1)).
        rewrite Hl2, Hl, <- app_assoc. split; [reflexivity|].
        rewrite forallb_app, (Hlog _ Hlogs), Hpub. reflexivity.
    + unfold modify, emit. eexists. split; [reflexivity|].
      cbn [setThis logged this pending nextPid trace].
      cbn [set_isUpdating settings isUpdating targetHeatingCoolingState
           temperatureDisplayUnits currentHeatingCoolingState].
      repeat split; try congruence.
      * destruct Hc as [Hc|Hc]; [now left|right]. rewrite Hc. reflexivity.
      * exists (logs ++ [Log LError "Failed to update ATAG data:" [LMessage e]]).
        rewrite Hl, <- app_assoc. split; [reflexivity|].
        rewrite forallb_app, (Hlog _ Hlogs). reflexivity.
  - unfold modify, emit, throw. eexists. split; [reflexivity|].
    cbn [setThis logged this pending nextPid trace].
    repeat split; auto.
    eexists. split; reflexivity.
Qed.

End Frames.

(** ** The turns of the event loop *)

Section Turns.

Lemma step_timer w : step Timer w = Some (Ret tt, polled w).
Proof. cbn [step]. now rewrite updateATAGData_run. Qed.

Lemma step_setTargetTemperature v w :
  step (SetTargetTemperature v) w
  = Some (Ret tt,
          spawned (AwaitSet v) [ALit "-t"; ANumString v]
            (logged (Log Info "Setting target temperature to ${value}\u00B0C" [LNum v]) w)).
Proof.
  cbn [step]. unfold bind at 1. unfold emit at 1.
  now rewrite setTargetTemperature_run.
Qed.

Lemma step_setTargetHeatingCoolingState v w :
  step (SetTargetHeatingCoolingState v) w
  = Some (Ret tt,
          polled (setThis (set_targetHeatingCoolingState v (this w))
                    (logged (Log Info "Setting target heating/cooling state to ${value}"
                               [LInt v]) w))).
Proof.
  cbn [step]. unfold bind at 1. unfold emit at 1. unfold bind at 1. unfold modify at 1.
  now rewrite updateATAGData_run.
Qed.

Lemma onGet_leaves s c h w :
  onGet s c = Some h ->
  exists x w' logs,
    h w = (Ret x, w')
    /\ this w' = this w /\ pending w' = pending w /\ nextPid w' = nextPid w
    /\ trace w' = trace w ++ logs /\ forallb isLog logs = true.
Proof.
  destruct s, c; simpl; intros H; inversion H; subst;
    unfold bind, getThis, emit, ret;
    eexists; eexists;
    first [ exists []; split; [reflexivity|]; cbn [logged this pending nextPid trace];
            rewrite app_nil_r; conjs; reflexivity
          | eexists; split; [reflexivity|]; cbn [logged this pending nextPid trace];
            conjs; reflexivity ].
Qed.

Lemma commandEffects_configured st pid tail :
  tail = [] \/ (exists t, tail = [ALit "-t"; ANumString t]) ->
  Forall (configuredSpawn st) (commandEffects st pid tail).
Proof.
  intros Ht. unfold commandEffects. destruct (speakable st); [|constructor].
  repeat (apply Forall_cons || apply Forall_nil); [exact I|].
  cbn [configuredSpawn]. conjs; try reflexivity.
  destruct Ht as [-> | [t ->]]; eauto.
Qed.

Lemma polled_leaves w :
  settings (this (polled w)) = settings (this w)
  /\ snapshot (this (polled w)) = snapshot (this w)
  /\ targetHeatingCoolingState (this (polled w)) = targetHeatingCoolingState (this w)
  /\ temperatureDisplayUnits (this (polled w)) = temperatureDisplayUnits (this w)
  /\ exists l, trace (polled w) = trace w ++ l
               /\ Forall (configuredSpawn (settings (this w))) l.
Proof.
  unfold polled. destruct (isUpdating (this w)).
  - conjs; try reflexivity. eexists. split; [reflexivity|]. repeat constructor.
  - conjs; try reflexivity. eexists. split; [reflexivity|].
    apply commandEffects_configured. now left.
Qed.

(** What a turn of the event loop leaves alone: the configuration always;
    the snapshot unless a promise settles; the fields that HomeKit sets
    unless HomeKit sets them.  The heating state is the old one or a
    recomputed one, and whatever is spawned is the configured command. *)
Lemma step_leaves e w r w' :
  step e w = Some (r, w') ->
  settings (this w') = settings (this w)
  /\ (currentHeatingCoolingState (this w') = currentHeatingCoolingState (this w)
      \/ currentHeatingCoolingState (this w') = heatingState (this w'))
  /\ targetHeatingCoolingState (this w')
     = match e with
       | SetTargetHeatingCoolingState v => v
       | _ => targetHeatingCoolingState (this w)
       end
  /\ temperatureDisplayUnits (this w')
     = match e with
       | SetTemperatureDisplayUnits v => v
       | _ => temperatureDisplayUnits (this w)
       end
  /\ match e with
     | Child _ _ => True
     | _ => snapshot (this w') = snapshot (this w)
     end
  /\ exists l, trace w' = trace w ++ l
               /\ Forall (configuredSpawn (settings (this w))) l.
Proof.
  assert (Hnospawn : forall st l, forallb isLogOrUpdate l = true ->
                                  Forall (configuredSpawn st) l).
  { intros st l H. apply Forall_forall. intros x Hx.
    rewrite forallb_forall in H. specialize (H x Hx).
    destruct x; simpl in *; try exact I; discriminate. }
  destruct e as [|v|v|v|s c|pid ev].
  - rewrite step_timer. intros H. inversion H; subst.
    destruct (polled_leaves w) as (Hs & Hsn & Ht & Hd & Hl).
    conjs; auto. left. unfold snapshot in Hsn. congruence.
  - rewrite step_setTargetTemperature. intros H. inversion H; subst.
    cbn [spawned logged this trace]. conjs; auto.
    eexists. rewrite <- app_assoc. split; [reflexivity|].
    apply Forall_cons; [exact I|].
    apply commandEffects_configured. eauto.
  - rewrite step_setTargetHeatingCoolingState. intros H. inversion H; subst.
    set (w0 := setThis _ _).
    destruct (polled_leaves w0) as (Hs & Hsn & Ht & Hd & l & Hl & Hf).
    assert (Hc : currentHeatingCoolingState (this (polled w0))
                 = currentHeatingCoolingState (this w0))
      by (unfold snapshot in Hsn; congruence).
    rewrite Hs, Ht, Hd, Hsn, Hl, Hc. subst w0.
    cbn [setThis logged this trace set_targetHeatingCoolingState settings
         targetHeatingCoolingState temperatureDisplayUnits] in *.
    conjs; auto.
    + eexists. rewrite <- app_assoc. split; [reflexivity|].
      constructor; [exact I | exact Hf].
  - cbn [step]. intros H. inversion H; subst.
    unfold modify. cbn [setThis this trace]. conjs; auto.
    exists []. now rewrite app_nil_r.
  - cbn [step]. destruct (hasService (this w) s); [|discriminate].
    destruct (onGet s c) as [h|] eqn:Hg; [|discriminate].
    destruct (onGet_leaves s c h w Hg) as (x & w1 & logs & Hh & Ht & Hp & Hn & Hl & Hlogs).
    unfold bind, ret. rewrite Hh. intros H. inversion H; subst.
    rewrite Ht. conjs; auto.
    exists logs. split; [assumption|]. apply Hnospawn.
    rewrite forallb_forall in *. intros y Hy. specialize (Hlogs y Hy).
    destruct y; simpl in *; congruence.
  - cbn [step]. destruct (findPending pid (pending w)) as [k|] eqn:Hf; [|discriminate].
    unfold bind at 1. unfold settlePromise at 1.
    set (w0 := Build_World _ _ _ _).
    destruct k as [|v]; cbn [resume].
    + destruct (updateATAGData_resume_leaves (settle ev) w0)
        as (w1 & Hu & Hs & Hi & Ht & Hd & Hp & Hn & Hc & l & Hl & Hlu).
      rewrite Hu. intros H. inversion H; subst.
      conjs; auto. exists l. split; [assumption|]. now apply Hnospawn.
    + unfold setTargetTemperature_resume, tryCatch, bind, modify, emit, throw.
      destruct (settle ev); intros H; inversion H; subst;
        cbn [setThis logged this trace w0]; conjs; auto;
        eexists; rewrite <- ?app_assoc; (split; [reflexivity|]); repeat constructor.
Qed.

End Turns.

(** ** The extraction and the parse *)

Section Extraction.

Lemma applyFields_idempotent o a :
  applyFields o (applyFields o a) = applyFields o a.
Proof.
  destruct a. unfold applyFields; cbv beta zeta.
  repeat match goal with
         | |- context [getProp (lit ?k) o] => destruct (getProp (lit k) o)
         end;
    reflexivity.
Qed.


End Extraction.

(** X1: what the pattern of [parseATAGData] finds.  When [output.match]
    succeeds, the capture is a balanced-brace object of nesting depth at
    most two that is followed by white space only up to the end of the
    output, and it is the one that starts leftmost among those; when it
    fails, the output has no such object at its end. *)
Theorem match_is_leftmost_trailing_object (output : jsstring) :
  match jsonMatch output with
  | Some m =>
      exists pre ws,
        output = pre ++ m ++ ws
        /\ braceObject 2 m = true
        /\ forallb isSpace ws = true
        /\ forall pre1 m1 ws1,
            output = pre1 ++ m1 ++ ws1 ->
            braceObject 2 m1 = true ->
            forallb isSpace ws1 = true ->
            (List.length pre <= List.length pre1)%nat
  | None =>
      forall pre m ws,
        output = pre ++ m ++ ws ->
        braceObject 2 m = true ->
        forallb isSpace ws = false
  end.
Proof.
  destruct (jsonMatch output) as [m|] eqn:Hm.
  - apply jsonMatch_spec in Hm.
    destruct Hm as (pre & rest & Hs & (ws & Hr & Hg & Ht) & Hleft).
    exists pre, ws. subst rest. conjs.
    + assumption.
    + now apply group1_braceObject.
    + now apply star_class_forallb.
    + intros pre1 m1 ws1 Hs1 Hb Hw.
      apply (Hleft pre1 (m1 ++ ws1) m1 Hs1).
      exists ws1. conjs; [reflexivity | now apply group1_braceObject
                         | now apply star_class_forallb].
  - intros pre m ws Hs Hb.
    destruct (forallb isSpace ws) eqn:Hw; [|reflexivity].
    rewrite Hs, (jsonMatch_trailing_object pre m ws Hb Hw) in Hm.
    discriminate.
Qed.



(** X3: parsing is idempotent.  When [parseATAGData] has completed on an
    output, a second parse of the same output completes too and leaves
    every field of the accessory as the first one left it; it only writes
    its debug line again. *)
Theorem parseATAGData_idempotent output w w1 :
  parseATAGData output w = (Ret tt, w1) ->
  exists w2,
    parseATAGData output w1 = (Ret tt, w2)
    /\ this w2 = this w1
    /\ trace w2 = trace w1 ++ [updatedLog (this w1)].
Proof.
  intros H. destruct (parseATAGData_ret output w w1 H) as (o & He & Hc & ->).
  exists (parsedWorld o (parsedWorld o w)).
  split; [now apply parseATAGData_ok|].
  unfold parsedWorld. cbn [logged setThis this trace].
  now rewrite applyFields_idempotent.
Qed.

Lemma parseATAGData_idempotent_witness :
  parseATAGData exampleOutput exampleWorld
  = (Ret tt, parsedWorld exampleObject exampleWorld)
  /\ exists w2,
      parseATAGData exampleOutput (parsedWorld exampleObject exampleWorld)
      = (Ret tt, w2)
      /\ this w2 = this (parsedWorld exampleObject exampleWorld)
      /\ trace w2 = trace (parsedWorld exampleObject exampleWorld)
                    ++ [updatedLog (this (parsedWorld exampleObject exampleWorld))].
Proof.
  assert (H : parseATAGData exampleOutput exampleWorld
              = (Ret tt, parsedWorld exampleObject exampleWorld))
    by (vm_compute; reflexivity).
  split; [exact H|].
  exact (parseATAGData_idempotent exampleOutput exampleWorld _ H).
Defined.

(** ** The constructor *)

Section Constructor.

Lemma orElse_cases a d :
  truthy (Some d) = true ->
  truthy (Some (orElse a d)) = true
  /\ if truthy a then a = Some (orElse a d) else orElse a d = d.
Proof.
  intros Hd. unfold orElse. destruct a as [v|]; [|now split].
  destruct (truthy (Some v)) eqn:Hv; now split.
Qed.

Ltac start_up Hj Hpi Hm :=
  unfold startUp, startPolling, createServices, toPrimitive, bind, getThis, emit,
    ret, throw;
  rewrite ?updateATAGData_run; unfold polled, spawned;
  repeat (cbn [newWorld this settings isUpdating setThis set_isUpdating logged
               pending nextPid trace app];
          rewrite ?Hj, ?Hpi, ?Hm, ?updateATAGData_run; unfold polled, spawned).

(** The constructor after the validation, when it returns: the first poll
    is under way. *)
Lemma startUp_run jarFound hapError config w :
  startUp jarFound hapError (newWorld config) = (Ret tt, w) ->
  completes jarFound hapError (readSettings config) = true
  /\ this w = set_isUpdating true (this (newWorld config))
  /\ pending w = [(0%nat, AwaitUpdate)]
  /\ nextPid w = 1%nat
  /\ trace w
     = jarWarnings jarFound (readSettings config)
       ++ commandEffects (readSettings config) 0 []
       ++ [SetInterval (pollInterval (readSettings config));
           Log Info "ATAG One Thermostat initialized in ${this.mode} mode"
             [LVal (Some (mode (readSettings config)))]].
Proof.
  unfold completes, jarWarnings.
  destruct jarFound, hapError as [e0|],
    (stringifiable (jarPath (readSettings config))) eqn:Hj,
    (stringifiable (pollInterval (readSettings config))) eqn:Hpi,
    (stringifiable (mode (readSettings config))) eqn:Hm;
    start_up Hj Hpi Hm;
    intros H; inversion H; subst; clear H;
    cbn [logged setThis this pending nextPid trace orb andb app];
    rewrite <- ?app_assoc; cbn [app]; conjs; reflexivity.
Qed.

(** The constructor after the validation, however it ends: the accessory
    is the new one, with the guard set if the poll was started, and
    whatever was spawned is the command of the poll. *)
Lemma startUp_leaves jarFound hapError config r w :
  startUp jarFound hapError (newWorld config) = (r, w) ->
  (this w = this (newWorld config)
   \/ this w = set_isUpdating true (this (newWorld config)))
  /\ Forall (configuredSpawn (readSettings config)) (trace w).
Proof.
  pose proof (commandEffects_configured (readSettings config) 0 [] (or_introl eq_refl))
    as Hc.
  destruct jarFound, hapError as [e0|],
    (stringifiable (jarPath (readSettings config))) eqn:Hj,
    (stringifiable (pollInterval (readSettings config))) eqn:Hpi,
    (stringifiable (mode (readSettings config))) eqn:Hm;
    start_up Hj Hpi Hm;
    intros H; inversion H; subst; clear H;
    cbn [logged setThis this trace]; (split; [auto|]);
    repeat (apply Forall_app; split);
    try assumption; repeat constructor; try exact Hc.
Qed.

Lemma construct_inv jarFound hapError config w :
  construct jarFound hapError config = Ret w ->
  validate (readSettings config) = None
  /\ startUp jarFound hapError (newWorld config) = (Ret tt, w).
Proof.
  unfold construct. destruct (validate (readSettings config)); [discriminate|].
  destruct (startUp jarFound hapError (newWorld config)) as [[[]|e] w1];
    [|discriminate].
  intros E. inversion E; subst. now split.
Qed.

End Constructor.

(** X4: what the constructor leaves when it returns.  The first poll is
    already under way: the guard is set, the promise of the poll is the
    one that is pending, and the snapshot still holds the initial values.
    The command of the poll was logged and spawned as the one child if
    its command line can be written; nothing was logged or spawned for it
    otherwise.  The interval is set once, with the configured
    pollInterval.  A JAR file that is not found changes nothing of this:
    it only puts two warnings in front. *)
Theorem constructor_starts_polling jarFound hapError config w :
  construct jarFound hapError config = Ret w ->
  this w = set_isUpdating true (this (newWorld config))
  /\ pending w = [(0%nat, AwaitUpdate)]
  /\ trace w
     = jarWarnings jarFound (readSettings config)
       ++ commandEffects (readSettings config) 0 []
       ++ [SetInterval (pollInterval (readSettings config));
           Log Info "ATAG One Thermostat initialized in ${this.mode} mode"
             [LVal (Some (mode (readSettings config)))]]
  /\ exists w0,
      construct true hapError config = Ret w0
      /\ this w = this w0 /\ pending w = pending w0
      /\ trace w = jarWarnings jarFound (readSettings config) ++ trace w0.
Proof.
  intros H. destruct (construct_inv jarFound hapError config w H) as (Hv & Hs).
  destruct (startUp_run jarFound hapError config w Hs) as (Hc & Ht & Hp & _ & Hl).
  assert (Hc0 : completes true hapError (readSettings config) = true).
  { unfold completes in *. cbn [orb].
    destruct (jarFound || stringifiable (jarPath (readSettings config)));
      [exact Hc | discriminate Hc]. }
  pose proof (startUp_outcome true hapError config) as Ho. rewrite Hc0 in Ho.
  destruct Ho as [w0 H0].
  destruct (startUp_run true hapError config w0 H0) as (_ & Ht0 & Hp0 & _ & Hl0).
  conjs; try assumption.
  exists w0. unfold construct. rewrite Hv, H0.
  conjs; try congruence. rewrite Hl, Hl0. reflexivity.
Qed.

Lemma constructor_starts_polling_witness :
  construct false None exampleConfig
  = Ret (snd (startUp false None (newWorld exampleConfig)))
  /\ pending (snd (startUp false None (newWorld exampleConfig)))
     = [(0%nat, AwaitUpdate)]
  /\ exists w0,
      construct true None exampleConfig = Ret w0
      /\ trace (snd (startUp false None (newWorld exampleConfig)))
         = jarWarnings false (readSettings exampleConfig) ++ trace w0.
Proof.
  assert (H : construct false None exampleConfig
              = Ret (snd (startUp false None (newWorld exampleConfig))))
    by (vm_compute; reflexivity).
  split; [exact H|].
  destruct (constructor_starts_polling false None exampleConfig _ H)
    as (_ & Hp & _ & w0 & H0 & _ & _ & Ht).
  split; [exact Hp|]. exists w0. split; [exact H0 | exact Ht].
Defined.

(** X5: a setting read with a default is never falsy.  For each of name,
    mode, jarPath, javaPath, pollInterval, timeout, minTemp and maxTemp,
    the setting is the configured value when that is truthy and the
    default otherwise, so that a configured 0, empty string, null or false
    is replaced by the default (a minTemp of 0 becomes 5, a timeout of 0
    becomes 30000); the serial number of the information service, the host
    or else the text Remote, is never falsy either. *)
Theorem falsy_settings_get_defaults config k field d :
  In (k, field, d) defaults ->
  truthy (Some (field (readSettings config))) = true
  /\ (if truthy (configField config k)
      then configField config k = Some (field (readSettings config))
      else field (readSettings config) = d)
  /\ truthy (Some (serialNumber (readSettings config))) = true.
Proof.
  intros Hin.
  assert (Hs : truthy (Some (serialNumber (readSettings config))) = true)
    by (apply (orElse_cases (host (readSettings config)) (VStr (lit "Remote")));
        reflexivity).
  cbn [In defaults] in Hin.
  repeat (destruct Hin as [Hin|Hin];
          [inversion Hin; subst; cbn [readSettings name mode jarPath javaPath
                                        pollInterval timeout minTemp maxTemp];
           match goal with
           | |- context [orElse ?a ?d] =>
               destruct (orElse_cases a d) as [H1 H2]; [reflexivity|]
           end; conjs; assumption|]).
  destruct Hin.
Qed.

Lemma falsy_settings_get_defaults_witness :
  truthy (Some (minTemp (readSettings [(lit "minTemp", VNum 0)]))) = true
  /\ (if truthy (configField [(lit "minTemp", VNum 0)] "minTemp")
      then configField [(lit "minTemp", VNum 0)] "minTemp"
           = Some (minTemp (readSettings [(lit "minTemp", VNum 0)]))
      else minTemp (readSettings [(lit "minTemp", VNum 0)]) = VNum 5)
  /\ truthy (Some (serialNumber (readSettings [(lit "minTemp", VNum 0)]))) = true.
Proof.
  apply (falsy_settings_get_defaults [(lit "minTemp", VNum 0)] "minTemp" minTemp (VNum 5)).
  cbn [In defaults]. do 6 right. left. reflexivity.
Defined.

(** X6: the validation looks at the modes local and remote only.  A
    configuration whose mode is any other truthy value passes the
    validation whatever it holds, and the constructor returns if nothing
    throws later on.  The command is then run with the options of the
    remote mode, with the e-mail address and the password as they are
    configured, missing or not: that is the child spawned, when the
    command line can be written. *)
Theorem other_mode_runs_remote_unvalidated jarFound hapError config :
  isString "local" (effectiveMode config) = false ->
  isString "remote" (effectiveMode config) = false ->
  validate (readSettings config) = None
  /\ (completes jarFound hapError (readSettings config) = true ->
      exists w,
        construct jarFound hapError config = Ret w
        /\ (speakable (readSettings config) = true ->
            In (Spawn 0 (javaPath (readSettings config))
                  [ALit "-jar"; AVal (Some (jarPath (readSettings config)));
                   ALit "-r";
                   ALit "-e"; AVal (configField config "email");
                   ALit "-p"; AVal (configField config "password")]
                  (timeout (readSettings config)))
               (trace w))).
Proof.
  intros Hl Hr.
  assert (Hv : validate (readSettings config) = None).
  { unfold validate.
    change (mode (readSettings config)) with (effectiveMode config).
    now rewrite Hl, Hr. }
  split; [exact Hv|]. intros Hc.
  pose proof (startUp_outcome jarFound hapError config) as Ho. rewrite Hc in Ho.
  destruct Ho as [w H].
  destruct (startUp_run jarFound hapError config w H) as (_ & _ & _ & _ & Ht).
  exists w. split; [unfold construct; now rewrite Hv, H|].
  intros Hs. rewrite Ht. apply in_or_app. right. apply in_or_app. left.
  unfold commandEffects. rewrite Hs. right. left.
  unfold commandArgs.
  change (mode (readSettings config)) with (effectiveMode config).
  rewrite Hl. reflexivity.
Qed.

Lemma other_mode_runs_remote_unvalidated_witness :
  validate (readSettings [(lit "mode", VStr (lit "cloud"))]) = None
  /\ exists w,
      construct true None [(lit "mode", VStr (lit "cloud"))] = Ret w
      /\ In (Spawn 0 (VStr (lit "java"))
               [ALit "-jar";
                AVal (Some (VStr (lit "/usr/local/lib/node_modules/homebridge-atag-one/atag-one.jar")));
                ALit "-r"; ALit "-e"; AVal None; ALit "-p"; AVal None]
               (VNum 30000))
            (trace w).
Proof.
  destruct (other_mode_runs_remote_unvalidated true None
              [(lit "mode", VStr (lit "cloud"))] eq_refl eq_refl) as (Hv & Hc).
  split; [exact Hv|].
  destruct (Hc eq_refl) as (w & Hw & Hs).
  exists w. split; [exact Hw | exact (Hs eq_refl)].
Defined.

(** ** Runs of the event loop *)

Section Runs.

Lemma findPending_app pid l l' k :
  findPending pid l = Some k -> findPending pid (l ++ l') = Some k.
Proof.
  induction l as [|[p k0] l IH]; cbn [findPending app]; [discriminate|].
  destruct (Nat.eqb p pid); auto.
Qed.

Lemma findPending_removePending pid p l :
  p <> pid -> findPending pid (removePending p l) = findPending pid l.
Proof.
  intros Hne. induction l as [|[q k0] l IH]; cbn [findPending removePending]; [reflexivity|].
  destruct (Nat.eqb q p) eqn:Hqp.
  - apply Nat.eqb_eq in Hqp. subst q.
    destruct (Nat.eqb p pid) eqn:Hp; [apply Nat.eqb_eq in Hp; contradiction|].
    exact IH.
  - cbn [findPending]. now rewrite IH.
Qed.

Lemma findPending_polls pid l :
  findPending pid l = Some AwaitUpdate ->
  (1 <= List.length (filter isUpdateAwaiter l))%nat.
Proof.
  induction l as [|[p k0] l IH]; cbn [findPending filter]; [discriminate|].
  destruct (Nat.eqb p pid).
  - intros H. inversion H; subst. cbn. lia.
  - intros H. specialize (IH H).
    destruct (isUpdateAwaiter (p, k0)); cbn [List.length]; lia.
Qed.

(** With at most one poll in flight, the promise that [updateATAGData]
    awaits is the only one of its kind. *)
Lemma unique_poll l p q :
  (List.length (filter isUpdateAwaiter l) <= 1)%nat ->
  findPending p l = Some AwaitUpdate ->
  findPending q l = Some AwaitUpdate ->
  p = q.
Proof.
  induction l as [|[a k0] l IH]; cbn [findPending filter]; [discriminate|].
  intros Hlen Hp Hq.
  destruct (Nat.eqb a p) eqn:Hap, (Nat.eqb a q) eqn:Haq.
  - apply Nat.eqb_eq in Hap, Haq. congruence.
  - inversion Hp; subst k0. apply findPending_polls in Hq.
    cbn in Hlen. lia.
  - inversion Hq; subst k0. apply findPending_polls in Hp.
    cbn in Hlen. lia.
  - apply IH; auto.
    destruct (isUpdateAwaiter (a, k0)); cbn [List.length] in Hlen; lia.
Qed.

Lemma polling_guard w pid :
  invariant w ->
  findPending pid (pending w) = Some AwaitUpdate ->
  isUpdating (this w) = true
  /\ (List.length (filter isUpdateAwaiter (pending w)) <= 1)%nat.
Proof.
  intros (_ & _ & Hc) Hf. apply findPending_polls in Hf.
  unfold pollsInFlight in Hc.
  destruct (isUpdating (this w)); split; auto; lia.
Qed.

Lemma commandEffects_noPoll st pid t :
  Forall (noPollEffect st) (commandEffects st pid [ALit "-t"; ANumString t]).
Proof.
  unfold commandEffects. destruct (speakable st); [|constructor].
  repeat (apply Forall_cons || apply Forall_nil); [exact I|].
  cbn [noPollEffect]. eauto.
Qed.

(** One turn while the poll of child [pid] is in flight, the turn not
    being the one that settles it. *)
Lemma step_while_polling e w r w' pid :
  invariant w ->
  findPending pid (pending w) = Some AwaitUpdate ->
  settles pid e = false ->
  step e w = Some (r, w') ->
  findPending pid (pending w') = Some AwaitUpdate
  /\ readings (this w') = readings (this w)
  /\ exists l, trace w' = trace w ++ l
               /\ Forall (noPollEffect (settings (this w))) l.
Proof.
  intros Hinv Hf Hs.
  destruct (polling_guard w pid Hinv Hf) as [Hu Hlen].
  destruct e as [|v|v|v|s c|p ev].
  - rewrite step_timer. unfold polled. rewrite Hu.
    intros H. inversion H; subst. cbn [logged this pending trace].
    conjs; auto. eexists. split; [reflexivity|]. repeat constructor.
  - rewrite step_setTargetTemperature. intros H. inversion H; subst.
    cbn [spawned logged this pending trace]. conjs; auto.
    + now apply findPending_app.
    + eexists. rewrite <- app_assoc. split; [reflexivity|].
      apply Forall_cons; [exact I|]. apply commandEffects_noPoll.
  - rewrite step_setTargetHeatingCoolingState. unfold polled.
    cbn [setThis logged this set_targetHeatingCoolingState isUpdating].
    rewrite Hu. intros H. inversion H; subst.
    cbn [setThis logged this pending trace]. conjs; auto.
    eexists. rewrite <- app_assoc. split; [reflexivity|]. repeat constructor.
  - cbn [step]. intros H. inversion H; subst.
    unfold modify. cbn [setThis this pending trace]. conjs; auto.
    exists []. now rewrite app_nil_r.
  - cbn [step]. destruct (hasService (this w) s); [|discriminate].
    destruct (onGet s c) as [h|] eqn:Hg; [|discriminate].
    destruct (onGet_leaves s c h w Hg) as (x & w1 & logs & Hh & Ht & Hp & Hn & Hl & Hlogs).
    unfold bind, ret. rewrite Hh. intros H. inversion H; subst.
    rewrite Ht, Hp. conjs; auto.
    exists logs. split; [assumption|]. apply Forall_forall. intros y Hy.
    rewrite forallb_forall in Hlogs. specialize (Hlogs y Hy).
    destruct y; simpl in *; try exact I; discriminate.
  - cbn [settles] in Hs. apply Nat.eqb_neq in Hs.
    cbn [step]. destruct (findPending p (pending w)) as [k|] eqn:Hk; [|discriminate].
    destruct k as [|v].
    { exfalso. apply Hs. exact (unique_poll (pending w) p pid Hlen Hk Hf). }
    unfold bind at 1. unfold settlePromise at 1. cbn [resume].
    unfold setTargetTemperature_resume, tryCatch, bind, modify, emit, throw.
    destruct (settle ev); intros H; inversion H; subst;
      cbn [setThis logged this pending trace];
      rewrite (findPending_removePending pid p (pending w) Hs);
      (conjs; [assumption | reflexivity |]);
      eexists; rewrite <- ?app_assoc; (split; [reflexivity|]);
      repeat (apply Forall_cons || apply Forall_nil); cbn [noPollEffect]; auto.
Qed.

Lemma run_cons e es w :
  run (e :: es) w = match step e w with
                    | Some (_, w') => run es w'
                    | None => None
                    end.
Proof. reflexivity. Qed.

Lemma run_reachable jarFound config es : forall w w',
  reachable jarFound config w -> run es w = Some w' ->
  reachable jarFound config w'.
Proof.
  induction es as [|e es IH]; intros w w' Hr; cbn [run].
  - intros H. inversion H; subst. assumption.
  - destruct (step e w) as [[r w1]|] eqn:Hs; [|discriminate].
    apply IH. exact (reach_step jarFound config w e r w1 Hr Hs).
Qed.

(** The invariants of the reachable worlds that the turns keep: the
    settings are those the constructor read, the heating state is OFF or
    HEAT, and every child was spawned with the configured command. *)
Lemma reachable_leaves jarFound config w :
  reachable jarFound config w ->
  settings (this w) = readSettings config
  /\ (currentHeatingCoolingState (this w) = CurrentHeatingCoolingState.OFF
      \/ currentHeatingCoolingState (this w) = CurrentHeatingCoolingState.HEAT)
  /\ Forall (configuredSpawn (readSettings config)) (trace w).
Proof.
  induction 1 as [hapError r w Hv Hs | w e r w' Hr (IHs & IHh & IHt) Hstep].
  - destruct (startUp_leaves jarFound hapError config r w Hs) as (Ht & Hf).
    conjs; try assumption; destruct Ht as [-> | ->]; auto.
  - destruct (step_leaves e w r w' Hstep) as (Hs & Hh & _ & _ & _ & l & Hl & Hf).
    rewrite Hs, Hl, IHs in *. conjs; auto.
    + destruct Hh as [-> | ->]; [assumption | apply heatingState_cases].
    + apply Forall_app. split; assumption.
Qed.

End Runs.

Lemma exampleWorld_reachable : reachable true exampleConfig exampleWorld.
Proof.
  apply (reach_construct true exampleConfig None (Ret tt)); vm_compute; reflexivity.
Qed.

Lemma exampleSetWorld_reachable : reachable true exampleConfig exampleSetWorld.
Proof.
  apply (reach_step true exampleConfig exampleWorld (SetTargetTemperature 21)
           (Ret tt) exampleSetWorld exampleWorld_reachable).
  vm_compute. reflexivity.
Qed.

Lemma reachable_validated jarFound config w :
  reachable jarFound config w -> validate (readSettings config) = None.
Proof.
  induction 1 as [hapError r w Hv Hs | w e r w' Hr IH Hstep]; assumption.
Qed.


(** X7: the configuration is read once.  In every reachable world the
    settings are those that the constructor read from the configuration,
    so that [getServices] hands out the same services for as long as the
    accessory lives: those of the new accessory. *)
Theorem settings_never_change jarFound config w :
  reachable jarFound config w ->
  settings (this w) = readSettings config
  /\ getServices (this w) = getServices (this (newWorld config)).
Proof.
  intros Hr. destruct (reachable_leaves jarFound config w Hr) as (Hs & _).
  split; [assumption|]. unfold getServices. now rewrite Hs.
Qed.

Lemma settings_never_change_witness :
  settings (this exampleSetWorld) = readSettings exampleConfig
  /\ getServices (this exampleSetWorld) = getServices (this (newWorld exampleConfig)).
Proof.
  exact (settings_never_change true exampleConfig exampleSetWorld
           exampleSetWorld_reachable).
Defined.

(** X8: the current heating/cooling state is OFF or HEAT in every
    reachable world, never COOL: the constructor sets OFF and
    [parseATAGData], the only function that writes it, sets one of the
    two. *)
Theorem heating_state_is_off_or_heat jarFound config w :
  reachable jarFound config w ->
  currentHeatingCoolingState (this w) = CurrentHeatingCoolingState.OFF
  \/ currentHeatingCoolingState (this w) = CurrentHeatingCoolingState.HEAT.
Proof.
  intros Hr. now destruct (reachable_leaves jarFound config w Hr) as (_ & Hh & _).
Qed.

Lemma heating_state_is_off_or_heat_witness :
  currentHeatingCoolingState (this exampleSetWorld) = CurrentHeatingCoolingState.OFF
  \/ currentHeatingCoolingState (this exampleSetWorld) = CurrentHeatingCoolingState.HEAT.
Proof.
  exact (heating_state_is_off_or_heat true exampleConfig exampleSetWorld
           exampleSetWorld_reachable).
Defined.

(** X9: every child that the plugin has spawned, in every reachable
    world, runs the configured java with the configured timeout and the
    arguments -jar jarPath, then -d host in the local mode and
    -r -e email -p password otherwise, then nothing or -t with a
    temperature; the target heating/cooling state and the display units
    are never passed on.  In the local mode the host passed on is truthy,
    and in the remote mode so are the e-mail address and the password. *)
Theorem every_spawn_is_the_configured_command jarFound config w :
  reachable jarFound config w ->
  Forall (configuredSpawn (readSettings config)) (trace w)
  /\ (isString "local" (mode (readSettings config)) = true ->
      truthy (host (readSettings config)) = true)
  /\ (isString "remote" (mode (readSettings config)) = true ->
      truthy (email (readSettings config)) = true
      /\ truthy (password (readSettings config)) = true).
Proof.
  intros Hr. destruct (reachable_leaves jarFound config w Hr) as (_ & _ & Hf).
  pose proof (reachable_validated jarFound config w Hr) as Hv.
  unfold validate in Hv. conjs; try assumption.
  - intros Hl. rewrite Hl in Hv.
    destruct (truthy (host (readSettings config))); [reflexivity|discriminate].
  - intros Hm. rewrite Hm in Hv.
    destruct (isString "local" (mode (readSettings config))
              && negb (truthy (host (readSettings config)))); [discriminate|].
    destruct (truthy (email (readSettings config))); [|discriminate].
    destruct (truthy (password (readSettings config))); [now split|discriminate].
Qed.

Lemma every_spawn_is_the_configured_command_witness :
  Forall (configuredSpawn (readSettings exampleConfig)) (trace exampleSetWorld)
  /\ isString "local" (mode (readSettings exampleConfig)) = true
  /\ truthy (host (readSettings exampleConfig)) = true.
Proof.
  destruct (every_spawn_is_the_configured_command true exampleConfig exampleSetWorld
              exampleSetWorld_reachable) as (Hf & Hh & _).
  split; [exact Hf|]. split; [reflexivity | exact (Hh eq_refl)].
Defined.

(** X10: while the child of a poll has not settled, nothing starts
    another poll.  From a reachable world in which the poll of child pid
    is in flight, over any turns of the event loop none of which settles
    that child (timers, set and get requests, set-temperature commands
    that settle), the guard stays set, the poll stays in flight, the
    readings that a poll writes stay as they are, and whatever is spawned
    or published belongs to a set-temperature command.  A child that
    never settles stops the polling for good. *)
Theorem poll_in_flight_blocks_polls jarFound config w pid es w' :
  reachable jarFound config w ->
  findPending pid (pending w) = Some AwaitUpdate ->
  existsb (settles pid) es = false ->
  run es w = Some w' ->
  isUpdating (this w') = true
  /\ findPending pid (pending w') = Some AwaitUpdate
  /\ readings (this w') = readings (this w)
  /\ exists l, trace w' = trace w ++ l
               /\ Forall (noPollEffect (readSettings config)) l.
Proof.
  revert w. induction es as [|e es IH]; intros w Hr Hf Hs; cbn [run].
  - intros H. inversion H; subst.
    destruct (polling_guard w' pid (reachable_invariant jarFound config w' Hr) Hf)
      as [Hu _].
    conjs; auto. exists []. now rewrite app_nil_r.
  - cbn [existsb] in Hs. apply orb_false_iff in Hs. destruct Hs as [Hs1 Hs2].
    destruct (step e w) as [[r w1]|] eqn:Hstep; [|discriminate].
    intros Hrun.
    destruct (step_while_polling e w r w1 pid
                (reachable_invariant jarFound config w Hr) Hf Hs1 Hstep)
      as (Hf1 & Hrd1 & l1 & Hl1 & Hfa1).
    pose proof (reach_step jarFound config w e r w1 Hr Hstep) as Hr1.
    destruct (IH w1 Hr1 Hf1 Hs2 Hrun) as (Hu & Hf' & Hrd & l & Hl & Hfa).
    destruct (reachable_leaves jarFound config w Hr) as (Hset & _).
    rewrite Hset in Hfa1.
    conjs; auto; [congruence|].
    exists (l1 ++ l). rewrite Hl, Hl1, app_assoc. split; [reflexivity|].
    apply Forall_app. split; assumption.
Qed.

Lemma poll_in_flight_blocks_polls_witness :
  exists w',
    run [Timer; SetTargetTemperature 21; Get Thermostat TargetTemperature;
         Child 1 (Close (Some 0%Z) [] []); SetTargetHeatingCoolingState 1]
      exampleWorld = Some w'
    /\ isUpdating (this w') = true
    /\ findPending 0 (pending w') = Some AwaitUpdate
    /\ readings (this w') = readings (this exampleWorld)
    /\ exists l, trace w' = trace exampleWorld ++ l
                 /\ Forall (noPollEffect (readSettings exampleConfig)) l.
Proof.
  eexists. split; [vm_compute; reflexivity|].
  apply (poll_in_flight_blocks_polls true exampleConfig exampleWorld 0
           [Timer; SetTargetTemperature 21; Get Thermostat TargetTemperature;
            Child 1 (Close (Some 0%Z) [] []); SetTargetHeatingCoolingState 1]).
  - exact exampleWorld_reachable.
  - reflexivity.
  - reflexivity.
  - vm_compute. reflexivity.
Defined.

(** X11: polling goes on after every poll.  However the child of a poll
    settles (with output that parses or not, with a failure code, with an
    error), the handler completes, and the next timer then starts a poll:
    it sets the guard and waits for a new promise, and it logs and spawns
    the plain command of the poll as a new child when the command line
    can be written (when it cannot, nothing is logged or spawned). *)
Theorem next_timer_polls_again w pid ev :
  findPending pid (pending w) = Some AwaitUpdate ->
  exists w1 w2,
    step (Child pid ev) w = Some (Ret tt, w1)
    /\ step Timer w1 = Some (Ret tt, w2)
    /\ isUpdating (this w2) = true
    /\ pending w2 = removePending pid (pending w) ++ [(nextPid w, AwaitUpdate)]
    /\ trace w2 = trace w1 ++ commandEffects (settings (this w)) (nextPid w) [].
Proof.
  intros Hf. rewrite (step_child pid ev w AwaitUpdate Hf). cbn [resume].
  set (w0 := Build_World _ _ _ _).
  destruct (updateATAGData_resume_leaves (settle ev) w0)
    as (w1 & Hu & Hs & Hi & _ & _ & Hp & Hn & _).
  exists w1, (polled w1). rewrite Hu, step_timer.
  conjs; try reflexivity; unfold polled; rewrite Hi;
    cbn [spawned setThis this pending nextPid trace set_isUpdating isUpdating settings].
  - reflexivity.
  - now rewrite Hp, Hn.
  - now rewrite Hs, Hn.
Qed.

Lemma next_timer_polls_again_witness :
  exists w1 w2,
    step (Child 0 (ChildError (lit "spawn java ENOENT"))) exampleWorld
    = Some (Ret tt, w1)
    /\ step Timer w1 = Some (Ret tt, w2)
    /\ isUpdating (this w2) = true
    /\ pending w2 = removePending 0 (pending exampleWorld)
                    ++ [(nextPid exampleWorld, AwaitUpdate)]
    /\ trace w2 = trace w1
                  ++ commandEffects (settings (this exampleWorld))
                       (nextPid exampleWorld) [].
Proof.
  exact (next_timer_polls_again exampleWorld 0 (ChildError (lit "spawn java ENOENT"))
           eq_refl).
Defined.

(** X12: who writes what.  Over any turns of the event loop, the snapshot
    changes only in a turn in which a child settles: timers, get requests
    and the set requests themselves leave it alone.  The target
    heating/cooling state changes only when HomeKit sets it, and the
    display units likewise: no poll and no output of the device ever
    writes them. *)
Theorem fields_change_only_by_their_writers es w w' :
  run es w = Some w' ->
  (existsb isChild es = false -> snapshot (this w') = snapshot (this w))
  /\ (existsb isSetState es = false ->
      targetHeatingCoolingState (this w') = targetHeatingCoolingState (this w))
  /\ (existsb isSetUnits es = false ->
      temperatureDisplayUnits (this w') = temperatureDisplayUnits (this w)).
Proof.
  revert w. induction es as [|e es IH]; intros w; cbn [run].
  - intros H. inversion H; subst. conjs; reflexivity.
  - destruct (step e w) as [[r w1]|] eqn:Hstep; [|discriminate].
    intros Hrun. destruct (IH w1 Hrun) as (IH1 & IH2 & IH3).
    destruct (step_leaves e w r w1 Hstep) as (_ & _ & Ht & Hd & Hsn & _).
    cbn [existsb]. conjs; intros Hx; apply orb_false_iff in Hx; destruct Hx as [Hx1 Hx2].
    + rewrite (IH1 Hx2). destruct e; try assumption; discriminate.
    + rewrite (IH2 Hx2), Ht. destruct e; try reflexivity; discriminate.
    + rewrite (IH3 Hx2), Hd. destruct e; try reflexivity; discriminate.
Qed.

Lemma fields_change_only_by_their_writers_witness :
  exists w',
    run [Timer; SetTargetTemperature 21; Get Thermostat TargetTemperature;
         SetTargetHeatingCoolingState 1] exampleWorld = Some w'
    /\ snapshot (this w') = snapshot (this exampleWorld)
    /\ temperatureDisplayUnits (this w') = temperatureDisplayUnits (this exampleWorld).
Proof.
  eexists. split; [vm_compute; reflexivity|].
  destruct (fields_change_only_by_their_writers
              [Timer; SetTargetTemperature 21; Get Thermostat TargetTemperature;
               SetTargetHeatingCoolingState 1] exampleWorld _ eq_refl)
    as (Hs & _ & Hd).
  split; [exact (Hs eq_refl) | exact (Hd eq_refl)].
Defined.



(** X14: the effects of a set-temperature command that succeeds.  When
    its child exits with code 0, whatever it has printed, the handler
    publishes the requested target temperature and schedules one update
    in 2000 ms, and that is all: nothing is logged, and the heating state
    is not computed anew, so that it is the one of the last poll until the
    next one. *)
Theorem set_temperature_success_effects w pid v output errorOutput :
  findPending pid (pending w) = Some (AwaitSet v) ->
  exists w',
    step (Child pid (Close (Some 0%Z) output errorOutput)) w = Some (Ret tt, w')
    /\ pending w' = removePending pid (pending w)
    /\ readings (this w') = readings (this w)
    /\ trace w' = trace w
                  ++ [UpdateCharacteristic Thermostat TargetTemperature (CNum v);
                      SetTimeout 2000].
Proof.
  intros Hf. rewrite (step_child pid _ w (AwaitSet v) Hf).
  cbn [resume settle].
  unfold setTargetTemperature_resume, tryCatch, bind, modify, emit.
  eexists. split; [reflexivity|].
  cbn [setThis logged this pending trace]. rewrite <- app_assoc.
  conjs; reflexivity.
Qed.

Lemma set_temperature_success_effects_witness :
  exists w',
    step (Child 1 (Close (Some 0%Z) (lit "done") [])) exampleSetWorld
    = Some (Ret tt, w')
    /\ pending w' = removePending 1 (pending exampleSetWorld)
    /\ readings (this w') = readings (this exampleSetWorld)
    /\ trace w' = trace exampleSetWorld
                  ++ [UpdateCharacteristic Thermostat TargetTemperature (CNum 21);
                      SetTimeout 2000].
Proof.
  exact (set_temperature_success_effects exampleSetWorld 1 21 (lit "done") []
           eq_refl).
Defined.

(** X15: the get handlers only read.  A get request completes, leaves
    the accessory and the promises as they are, spawns nothing and
    publishes nothing: at most one debug line is written.  The service it
    is for is one that [getServices] hands out. *)
Theorem get_handlers_only_read s c w r w' :
  step (Get s c) w = Some (r, w') ->
  r = Ret tt
  /\ this w' = this w
  /\ pending w' = pending w
  /\ In s (getServices (this w))
  /\ exists logs,
      trace w' = trace w ++ logs
      /\ forallb isLog logs = true
      /\ (List.length logs <= 1)%nat.
Proof.
  cbn [step]. destruct (hasService (this w) s) eqn:Hs; [|discriminate].
  assert (Hin : In s (getServices (this w))).
  { unfold getServices. destruct s; cbn [hasService] in Hs;
      try rewrite Hs; cbn [In app]; auto;
      repeat match goal with
             | |- context [if ?b then _ else _] => destruct b
             end; cbn [In app]; auto 10. }
  destruct s, c; cbn [onGet]; try discriminate;
    unfold bind, getThis, emit, ret; intros H; inversion H; subst;
    cbn [logged this pending trace]; (conjs; [reflexivity .. | assumption |]);
    first [ exists []; rewrite app_nil_r; conjs; [reflexivity | reflexivity | cbn; lia]
          | eexists; conjs; [reflexivity | reflexivity | cbn; lia] ].
Qed.

Lemma get_handlers_only_read_witness :
  exists w',
    step (Get WaterPressureSensor LeakDetected) exampleWorld = Some (Ret tt, w')
    /\ this w' = this exampleWorld
    /\ pending w' = pending exampleWorld
    /\ In WaterPressureSensor (getServices (this exampleWorld))
    /\ exists logs,
        trace w' = trace exampleWorld ++ logs
        /\ forallb isLog logs = true
        /\ (List.length logs <= 1)%nat.
Proof.
  eexists. split; [vm_compute; reflexivity|].
  apply (get_handlers_only_read WaterPressureSensor LeakDetected exampleWorld (Ret tt)).
  vm_compute. reflexivity.
Defined.

(** X16: what [updateHomeKitCharacteristics] publishes is what the get
    handlers return.  It completes, leaves the accessory as it is, and
    publishes between three and six updates; each one is for a
    characteristic of a service that [getServices] hands out, and its
    value is the one that the get handler of that characteristic returns
    right after. *)
Theorem published_values_are_what_get_returns w :
  exists w' l,
    updateHomeKitCharacteristics w = (Ret tt, w')
    /\ this w' = this w
    /\ trace w' = trace w ++ l
    /\ Forall (readsBack w') l
    /\ (3 <= List.length l <= 6)%nat.
Proof.
  destruct (updateHomeKitCharacteristics_spec w) as (w' & Hu & Ht & _ & _ & Hl).
  exists w', (publishList (this w)). conjs; try assumption.
  - unfold publishList, readsBack, getServices. rewrite Ht.
    destruct (outsideTemperatureService (settings (this w))),
             (waterPressureService (settings (this w))),
             (dhwTemperatureService (settings (this w)));
      cbn [app];
      repeat (apply Forall_cons || apply Forall_nil);
      (split; [cbn [In app]; auto 10|]);
      cbn [onGet]; unfold bind, getThis, emit, ret;
      eexists; eexists;
      (conjs; [reflexivity | cbv beta iota; rewrite ?Ht; reflexivity | exact Ht]).
  - unfold publishList.
    destruct (outsideTemperatureService (settings (this w))),
             (waterPressureService (settings (this w))),
             (dhwTemperatureService (settings (this w))); cbn; lia.
  - unfold publishList.
    destruct (outsideTemperatureService (settings (this w))),
             (waterPressureService (settings (this w))),
             (dhwTemperatureService (settings (this w))); cbn; lia.
Qed.

(** X17: a poll that is in flight overrides a set temperature.  When a
    set-temperature command and a poll are both in flight and the command
    succeeds first, the target temperature is the requested one; when the
    poll then succeeds with an output that reports a target temperature,
    the stored target temperature is the reported one again, whatever was
    requested, and that is the value published. *)
Theorem poll_in_flight_overrides_set_temperature
  w p q v output errorOutput output' errorOutput' o t :
  findPending p (pending w) = Some (AwaitSet v) ->
  findPending q (pending w) = Some AwaitUpdate ->
  extractJSON output' = Ret (VObj o) ->
  convertible o = true ->
  getProp (lit "targetTemperature") o = Some t ->
  exists w1 w2,
    step (Child p (Close (Some 0%Z) output errorOutput)) w = Some (Ret tt, w1)
    /\ targetTemperature (this w1) = v
    /\ step (Child q (Close (Some 0%Z) output' errorOutput')) w1 = Some (Ret tt, w2)
    /\ targetTemperature (this w2) = toFloat t
    /\ In (UpdateCharacteristic Thermostat TargetTemperature (CNum (toFloat t)))
          (trace w2).
Proof.
  intros Hp Hq He Hc Ht.
  assert (Hne : p <> q) by (intros ->; rewrite Hp in Hq; discriminate).
  set (w1 := {| this := set_targetTemperature v (this w);
                pending := removePending p (pending w);
                nextPid := nextPid w;
                trace := (trace w
                          ++ [UpdateCharacteristic Thermostat TargetTemperature (CNum v)])
                         ++ [SetTimeout 2000] |}).
  assert (H1 : step (Child p (Close (Some 0%Z) output errorOutput)) w
               = Some (Ret tt, w1))
    by (rewrite (step_child p _ w (AwaitSet v) Hp); reflexivity).
  assert (Hq1 : findPending q (pending w1) = Some AwaitUpdate)
    by (cbn [w1 pending]; now rewrite (findPending_removePending q p (pending w) Hne)).
  set (w0 := {| this := this w1; pending := removePending q (pending w1);
                nextPid := nextPid w1; trace := trace w1 |}).
  destruct (updateATAGData_resume_ok output' o w0 He Hc)
    as (w2 & Hu & Hth & _ & _ & Hl).
  assert (H2 : step (Child q (Close (Some 0%Z) output' errorOutput')) w1
               = Some (Ret tt, w2))
    by (rewrite (step_child q _ w1 AwaitUpdate Hq1); exact (f_equal Some Hu)).
  assert (Htt : targetTemperature (applyFields o (this w0)) = toFloat t)
    by (rewrite applyFields_targetTemperature, Ht; reflexivity).
  exists w1, w2. conjs; try reflexivity; try assumption.
  - rewrite Hth. exact Htt.
  - rewrite Hl. apply in_or_app. right. right. unfold publishList.
    rewrite Htt. cbn [app In]. auto.
Qed.

Lemma poll_in_flight_overrides_set_temperature_witness :
  exists w1 w2,
    step (Child 1 (Close (Some 0%Z) [] [])) exampleSetWorld = Some (Ret tt, w1)
    /\ targetTemperature (this w1) = 21%float
    /\ step (Child 0 (Close (Some 0%Z) exampleOutput [])) w1 = Some (Ret tt, w2)
    /\ targetTemperature (this w2) = toFloat (VStr (lit "22"))
    /\ In (UpdateCharacteristic Thermostat TargetTemperature
             (CNum (toFloat (VStr (lit "22")))))
          (trace w2).
Proof.
  apply (poll_in_flight_overrides_set_temperature exampleSetWorld 1 0 21
           [] [] exampleOutput [] exampleObject (VStr (lit "22"))).
  - reflexivity.
  - reflexivity.
  - vm_compute. reflexivity.
  - reflexivity.
  - reflexivity.
Defined.

(** X18: a reading that is no number is stored and published as NaN.
    When a poll succeeds with an output whose roomTemperature is null, a
    boolean or an object, the parse does not fail: the current temperature
    becomes NaN, and NaN is what is published for it. *)
Theorem reading_that_is_no_number_becomes_nan w pid output errorOutput o v :
  findPending pid (pending w) = Some AwaitUpdate ->
  extractJSON output = Ret (VObj o) ->
  convertible o = true ->
  getProp (lit "roomTemperature") o = Some v ->
  notNumeric v = true ->
  exists w',
    step (Child pid (Close (Some 0%Z) output errorOutput)) w = Some (Ret tt, w')
    /\ PrimFloat.is_nan (currentTemperature (this w')) = true
    /\ In (UpdateCharacteristic Thermostat CurrentTemperature
             (CNum (currentTemperature (this w'))))
          (trace w').
Proof.
  intros Hf He Hc Hg Hn.
  rewrite (step_child pid _ w AwaitUpdate Hf). cbn [resume settle].
  set (w0 := Build_World _ _ _ _).
  destruct (updateATAGData_resume_ok output o w0 He Hc)
    as (w' & Hu & Ht & _ & _ & Hl).
  exists w'. rewrite Hu. split; [reflexivity|].
  assert (Hcur : currentTemperature (this w') = nan).
  { rewrite Ht. cbn [set_isUpdating currentTemperature].
    rewrite applyFields_currentTemperature, Hg.
    destruct v; try discriminate; reflexivity. }
  split.
  - rewrite Hcur. reflexivity.
  - rewrite Hl. apply in_or_app. right. right. unfold publishList.
    rewrite Ht at 1. cbn [set_isUpdating currentTemperature app In]. auto.
Qed.

Lemma reading_that_is_no_number_becomes_nan_witness :
  exists w',
    step (Child 0 (Close (Some 0%Z) (quoted "{'roomTemperature': null}") []))
      exampleWorld
    = Some (Ret tt, w')
    /\ PrimFloat.is_nan (currentTemperature (this w')) = true
    /\ In (UpdateCharacteristic Thermostat CurrentTemperature
             (CNum (currentTemperature (this w'))))
          (trace w').
Proof.
  apply (reading_that_is_no_number_becomes_nan exampleWorld 0
           (quoted "{'roomTemperature': null}") []
           [(lit "roomTemperature", VNull)] VNull).
  - reflexivity.
  - vm_compute. reflexivity.
  - reflexivity.
  - reflexivity.
  - reflexivity.
Defined.

(** X19: the command line is logged as it is run.  Before it spawns the
    child, [executeATAGCommand] writes one debug line with the very
    arguments of the command; when the mode is not local, these hold the
    e-mail address and the password of the configuration.  When the
    conversion of the java path or of an argument to a string throws, it
    writes nothing and spawns nothing. *)
Theorem command_line_is_logged_with_password (setTemp : option float) w :
  isString "local" (mode (settings (this w))) = false ->
  exists w',
    executeATAGCommand setTemp w = (Ret (nextPid w), w')
    /\ In (AVal (email (settings (this w))))
          (commandArgs (settings (this w))
             match setTemp with
             | Some t => [ALit "-t"; ANumString t]
             | None => []
             end)
    /\ In (AVal (password (settings (this w))))
          (commandArgs (settings (this w))
             match setTemp with
             | Some t => [ALit "-t"; ANumString t]
             | None => []
             end)
    /\ trace w'
       = trace w
         ++ (if speakable (settings (this w))
             then [Log Debug "Executing: ${this.javaPath} ${args.join(' ')}"
                     [LVal (Some (javaPath (settings (this w))));
                      LArgs (commandArgs (settings (this w))
                               match setTemp with
                               | Some t => [ALit "-t"; ANumString t]
                               | None => []
                               end)];
                   Spawn (nextPid w) (javaPath (settings (this w)))
                     (commandArgs (settings (this w))
                        match setTemp with
                        | Some t => [ALit "-t"; ANumString t]
                        | None => []
                        end)
                     (timeout (settings (this w)))]
             else []).
Proof.
  intros Hm. destruct (executeATAGCommand_run setTemp w) as (w1 & He & Ha).
  exists w1. split; [exact He|].
  split; [unfold commandArgs; rewrite Hm; cbn [app In]; auto 10|].
  split; [unfold commandArgs; rewrite Hm; cbn [app In]; auto 10|].
  specialize (Ha AwaitUpdate).
  change (trace w1) with (trace (snd (await (nextPid w) AwaitUpdate w1))).
  rewrite Ha. reflexivity.
Qed.

Lemma command_line_is_logged_with_password_witness :
  exists w',
    executeATAGCommand None (newWorld remoteConfig) = (Ret 0%nat, w')
    /\ In (AVal (Some (VStr (lit "user@example.org"))))
          (commandArgs (readSettings remoteConfig) [])
    /\ In (AVal (Some (VStr (lit "secret"))))
          (commandArgs (readSettings remoteConfig) [])
    /\ trace w'
       = [Log Debug "Executing: ${this.javaPath} ${args.join(' ')}"
            [LVal (Some (VStr (lit "java")));
             LArgs (commandArgs (readSettings remoteConfig) [])];
          Spawn 0 (VStr (lit "java")) (commandArgs (readSettings remoteConfig) [])
            (VNum 30000)].
Proof.
  exact (command_line_is_logged_with_password None (newWorld remoteConfig) eq_refl).
Defined.
